(** * ai-news-daily: curation pipeline, summarisation fallback, snapshot
      store and trigger computation

    Shallow embedding of [fetch_news.py] and [scheduler_loop.py].

    Conventions of the model:
    - a Python [str] is the [string] of the bytes of its UTF-8 encoding; a
      character (code point) begins at every byte outside 128..191, and
      slices and lengths count characters; string order and substring search
      on the bytes are those on the characters;
    - [str.lower] in [is_ai_related] is an argument, the library's case
      mapping; the search for the word [quota] in an exception text uses the
      case mapping of the ASCII letters, [str.lower] mapping no other
      character to a letter of that word;
    - an aware [datetime] is the record of its civil fields; every instant of
      [fetch_news.fetch_articles] carries [timezone.utc], every instant of
      the scheduler and the snapshot store carries the fixed JST offset, so
      comparison is the field-wise comparison Python performs between two
      datetimes of equal offset;
    - what the program reads from the outside world (feed contents, backend
      replies, the clock, the snapshot directory) is an explicit argument;
      log lines are not modelled. *)

From Stdlib Require Import ZArith Ascii String DecimalString Lia.
From stdpp Require Import base option list gmap strings sorting.

Local Open Scope Z_scope.

(* ===================================================================== *)
(** ** Text *)
(* ===================================================================== *)

Module Text.

(** Lexicographic chaining of comparisons. *)
Definition lex (c d : comparison) : comparison :=
  match c with Eq => d | _ => c end.

(** Python orders [str] values lexicographically by code point. *)
Definition str_compare (a b : string) : comparison := String.compare a b.
Definition str_leb (a b : string) : bool :=
  match str_compare a b with Gt => false | _ => true end.
Definition str_lt (a b : string) : Prop := str_compare a b = Lt.
Definition str_le (a b : string) : Prop := str_compare a b <> Gt.

(** A byte that continues the character begun before it. *)
Definition is_cont (c : ascii) : bool :=
  let n := nat_of_ascii c in ((128 <=? n) && (n <=? 191))%nat.

(** [len(s)]: the number of characters. *)
Fixpoint len (s : string) : nat :=
  match s with
  | EmptyString => O
  | String c s' => if is_cont c then len s' else S (len s')
  end.

(** [s[:n]]: the first [n] characters, each with all its bytes. *)
Fixpoint slice_to (n : nat) (s : string) : string :=
  match s with
  | EmptyString => EmptyString
  | String c s' =>
      if is_cont c then String c (slice_to n s')
      else match n with
           | O => EmptyString
           | S n' => String c (slice_to n' s')
           end
  end.

(** [s.startswith(p)], also returning the rest after the prefix. *)
Fixpoint strip_prefix (p s : string) : option string :=
  match p, s with
  | EmptyString, _ => Some s
  | String _ _, EmptyString => None
  | String a p', String b s' =>
      if Ascii.eqb a b then strip_prefix p' s' else None
  end.

Definition starts_with (p s : string) : bool :=
  match strip_prefix p s with Some _ => true | None => false end.

(** [needle in hay] *)
Fixpoint contains (needle hay : string) : bool :=
  starts_with needle hay ||
  match hay with
  | EmptyString => false
  | String _ hay' => contains needle hay'
  end.

Definition lower_char (c : ascii) : ascii :=
  let n := nat_of_ascii c in
  if ((65 <=? n) && (n <=? 90))%nat then ascii_of_nat (n + 32) else c.

(** [s.lower()] on the ASCII letters; every other byte is kept. *)
Fixpoint lower (s : string) : string :=
  match s with
  | EmptyString => EmptyString
  | String c s' => String (lower_char c) (lower s')
  end.

(** A decimal digit and the zero-padded [%0kd] rendering of [n]. *)
Definition digit (d : Z) : ascii := ascii_of_nat (48 + Z.to_nat d).

Fixpoint digits (k : nat) (n : Z) : string :=
  match k with
  | O => EmptyString
  | S k' => String (digit (n / 10 ^ Z.of_nat k')) (digits k' (n mod 10 ^ Z.of_nat k'))
  end.

(** The regular-expression class [\s] of a [str] pattern: the characters
    U+0009..U+000D, U+001C..U+0020, U+0085, U+00A0, U+1680, U+2000..U+200A,
    U+2028, U+2029, U+202F, U+205F and U+3000. [is_space] holds the ones of
    one byte, [space_width] gives the number of bytes of the white-space
    character a text begins with, 0 when it begins with none. *)
Definition is_space (c : ascii) : bool :=
  let n := nat_of_ascii c in
  (((9 <=? n) && (n <=? 13)) || ((28 <=? n) && (n <=? 32)))%nat.

Definition is_space2 (a b : ascii) : bool :=
  let x := nat_of_ascii a in
  let y := nat_of_ascii b in
  ((x =? 194) && ((y =? 133) || (y =? 160)))%nat.

Definition is_space3 (a b c : ascii) : bool :=
  let x := nat_of_ascii a in
  let y := nat_of_ascii b in
  let z := nat_of_ascii c in
  (((x =? 225) && (y =? 154) && (z =? 128)) ||
   ((x =? 226) && (y =? 128) &&
    (((128 <=? z) && (z <=? 138)) || (z =? 168) || (z =? 169) || (z =? 175))) ||
   ((x =? 226) && (y =? 129) && (z =? 159)) ||
   ((x =? 227) && (y =? 128) && (z =? 128)))%nat.

Definition space_width (s : string) : nat :=
  match s with
  | String a s1 =>
      if is_space a then 1%nat
      else match s1 with
           | String b s2 =>
               if is_space2 a b then 2%nat
               else match s2 with
                    | String c _ => if is_space3 a b c then 3%nat else 0%nat
                    | EmptyString => 0%nat
                    end
           | EmptyString => 0%nat
           end
  | EmptyString => 0%nat
  end.

Fixpoint mem_char (c : ascii) (s : string) : bool :=
  match s with
  | EmptyString => false
  | String d s' => Ascii.eqb c d || mem_char c s'
  end.

End Text.

(* ===================================================================== *)
(** ** Civil time *)
(* ===================================================================== *)

Module Clock.

(** The fields of a [datetime.datetime]. *)
Record datetime : Type := mk_datetime {
  year : Z; month : Z; day : Z;
  hour : Z; minute : Z; second : Z; microsecond : Z
}.

Definition is_leap (y : Z) : bool :=
  ((y mod 4 =? 0) && negb (y mod 100 =? 0)) || (y mod 400 =? 0).

Definition days_in_month (y m : Z) : Z :=
  if m =? 2 then (if is_leap y then 29 else 28)
  else if (m =? 4) || (m =? 6) || (m =? 9) || (m =? 11) then 30
  else 31.

(** The invariant every [datetime] object satisfies. *)
Definition valid (t : datetime) : Prop :=
  1 <= year t <= 9999 /\ 1 <= month t <= 12 /\
  1 <= day t <= days_in_month (year t) (month t) /\
  0 <= hour t < 24 /\ 0 <= minute t < 60 /\ 0 <= second t < 60 /\
  0 <= microsecond t < 1000000.

Definition validb (t : datetime) : bool :=
  (1 <=? year t) && (year t <=? 9999) && (1 <=? month t) && (month t <=? 12) &&
  (1 <=? day t) && (day t <=? days_in_month (year t) (month t)) &&
  (0 <=? hour t) && (hour t <? 24) && (0 <=? minute t) && (minute t <? 60) &&
  (0 <=? second t) && (second t <? 60) &&
  (0 <=? microsecond t) && (microsecond t <? 1000000).

(** [datetime.__lt__] and friends between two datetimes of equal offset:
    the field tuples are compared. *)
Definition compare (a b : datetime) : comparison :=
  let lex := Text.lex in
  lex (year a ?= year b)
 (lex (month a ?= month b)
 (lex (day a ?= day b)
 (lex (hour a ?= hour b)
 (lex (minute a ?= minute b)
 (lex (second a ?= second b)
      (microsecond a ?= microsecond b)))))).

Definition ltb (a b : datetime) : bool :=
  match compare a b with Lt => true | _ => false end.
Definition lt (a b : datetime) : Prop := compare a b = Lt.
Definition le (a b : datetime) : Prop := compare a b <> Gt.

(** [t - timedelta(hours=24)]: same wall-clock fields on the previous
    civil day (Python raises [OverflowError] on 0001-01-01, which the
    model does not represent). *)
Definition sub_one_day (t : datetime) : datetime :=
  if 1 <? day t then
    mk_datetime (year t) (month t) (day t - 1)
                (hour t) (minute t) (second t) (microsecond t)
  else if 1 <? month t then
    mk_datetime (year t) (month t - 1) (days_in_month (year t) (month t - 1))
                (hour t) (minute t) (second t) (microsecond t)
  else
    mk_datetime (year t - 1) 12 31
                (hour t) (minute t) (second t) (microsecond t).

(** [t + timedelta(days=1)] (Python raises [OverflowError] on 9999-12-31;
    not represented). *)
Definition add_one_day (t : datetime) : datetime :=
  if day t <? days_in_month (year t) (month t) then
    mk_datetime (year t) (month t) (day t + 1)
                (hour t) (minute t) (second t) (microsecond t)
  else if month t <? 12 then
    mk_datetime (year t) (month t + 1) 1
                (hour t) (minute t) (second t) (microsecond t)
  else
    mk_datetime (year t + 1) 1 1
                (hour t) (minute t) (second t) (microsecond t).

(** [t.toordinal()], the number of the civil day of [t], 1 for 0001-01-01:
    the days before the year, plus the days of the year before the month,
    plus the day. *)
Definition days_before_year (y : Z) : Z :=
  let z := y - 1 in z * 365 + z / 4 - z / 100 + z / 400.

Definition days_before_month (y m : Z) : Z :=
  (if m =? 1 then 0 else if m =? 2 then 31 else if m =? 3 then 59
   else if m =? 4 then 90 else if m =? 5 then 120 else if m =? 6 then 151
   else if m =? 7 then 181 else if m =? 8 then 212 else if m =? 9 then 243
   else if m =? 10 then 273 else if m =? 11 then 304 else 334)
  + (if (2 <? m) && is_leap y then 1 else 0).

Definition toordinal (t : datetime) : Z :=
  days_before_year (year t) + days_before_month (year t) (month t) + day t.

(** [t.replace(hour=h, minute=0, second=0, microsecond=0)] *)
Definition replace_hour (t : datetime) (h : Z) : datetime :=
  mk_datetime (year t) (month t) (day t) h 0 0 0.

(** [t.isoformat()] for an aware datetime whose offset renders as
    [offset] (["+00:00"] for UTC, ["+09:00"] for JST): the fraction is
    printed only when it is not zero. *)
Definition isoformat (offset : string) (t : datetime) : string :=
  Text.digits 4 (year t) +:+ "-" +:+ Text.digits 2 (month t) +:+ "-" +:+
  Text.digits 2 (day t) +:+ "T" +:+ Text.digits 2 (hour t) +:+ ":" +:+
  Text.digits 2 (minute t) +:+ ":" +:+ Text.digits 2 (second t) +:+
  (if microsecond t =? 0 then offset
   else "." +:+ Text.digits 6 (microsecond t) +:+ offset).

Definition utc_offset : string := "+00:00".
Definition jst_offset : string := "+09:00".

(** [t.strftime("%Y-%m-%d %H:%M UTC")] *)
Definition strftime_published (t : datetime) : string :=
  Text.digits 4 (year t) +:+ "-" +:+ Text.digits 2 (month t) +:+ "-" +:+
  Text.digits 2 (day t) +:+ " " +:+ Text.digits 2 (hour t) +:+ ":" +:+
  Text.digits 2 (minute t) +:+ " UTC".

(** [t.strftime("%Y%m%d_%H%M")] *)
Definition strftime_stamp (t : datetime) : string :=
  Text.digits 4 (year t) +:+ Text.digits 2 (month t) +:+
  Text.digits 2 (day t) +:+ "_" +:+ Text.digits 2 (hour t) +:+
  Text.digits 2 (minute t).

End Clock.

(* ===================================================================== *)
(** ** Sorting by a text key *)
(* ===================================================================== *)

Module PyList.

(** [l.sort(key=..., reverse=True)] and [sorted(l, reverse=True)] for text
    keys. Python's sort is stable, also under [reverse=True]: elements of
    equal key keep their order. So an element goes in front of the first one
    whose key is not greater than its own. *)
Fixpoint insert_desc {A : Type} (key : A -> string) (a : A) (sorted : list A)
  : list A :=
  match sorted with
  | [] => [a]
  | b :: rest =>
      if Text.str_leb (key b) (key a) then a :: b :: rest
      else b :: insert_desc key a rest
  end.

Definition sort_desc {A : Type} (key : A -> string) (l : list A) : list A :=
  foldr (insert_desc key) [] l.

(** [key_ge key a b]: the sort key of [a] is not below that of [b]. *)
Definition key_ge {A : Type} (key : A -> string) (a b : A) : Prop :=
  Text.str_le (key b) (key a).

End PyList.

(* ===================================================================== *)
(** ** Regular expressions used by [fetch_news.py] *)
(* ===================================================================== *)

Module Regex.

(** Does a tag open right after a ["<"]: one character other than [">"],
    and a [">"] somewhere behind it. *)
Definition opens_tag (s : string) : bool :=
  match s with
  | EmptyString => false
  | String d s' => negb (Ascii.eqb d ">") && Text.mem_char ">" s'
  end.

Fixpoint strip_tags_from (in_tag : bool) (s : string) : string :=
  match s with
  | EmptyString => EmptyString
  | String c s' =>
      if in_tag then
        if Ascii.eqb c ">" then strip_tags_from false s'
        else strip_tags_from true s'
      else if Ascii.eqb c "<" && opens_tag s' then strip_tags_from true s'
      else String c (strip_tags_from false s')
  end.

(** [re.sub(r"<[^>]+>", "", s)] *)
Definition strip_tags (s : string) : string := strip_tags_from false s.

(** [re.sub(marker + r"\s*", "", s)] for a literal, non-empty [marker]:
    [skip] counts the bytes of a matched marker or white-space character
    still to drop, and [in_ws] says that the white space behind a marker is
    being dropped. *)
Fixpoint sub_marker (marker : string) (skip : nat) (in_ws : bool) (s : string)
  : string :=
  match s with
  | EmptyString => EmptyString
  | String c s' =>
      match skip with
      | S k => sub_marker marker k in_ws s'
      | O =>
          if in_ws && (0 <? Text.space_width s)%nat
          then sub_marker marker (Text.space_width s - 1) true s'
          else if Text.starts_with marker s
               then sub_marker marker (String.length marker - 1) true s'
               else String c (sub_marker marker 0 false s')
      end
  end.

(** [re.sub(r"```json\s*", "", s)] *)
Definition sub_fence_json (s : string) : string := sub_marker "```json" 0 false s.

(** [re.sub(r"```\s*", "", s)] *)
Definition sub_fence (s : string) : string := sub_marker "```" 0 false s.

(** The text behind the first ["{"]. *)
Fixpoint after_first_open (s : string) : option string :=
  match s with
  | EmptyString => None
  | String c s' => if Ascii.eqb c "{" then Some s' else after_first_open s'
  end.

(** The longest prefix that ends with ["}"]. *)
Fixpoint upto_last_close (s : string) : option string :=
  match s with
  | EmptyString => None
  | String c s' =>
      match upto_last_close s' with
      | Some p => Some (String c p)
      | None => if Ascii.eqb c "}" then Some (String c EmptyString) else None
      end
  end.

(** [re.search(r'\{[\s\S]*\}', s)], giving [m.group()]: the star is
    greedy, so the match runs from the first ["{"] to the last ["}"]. *)
Definition search_braces (s : string) : option string :=
  match after_first_open s with
  | Some rest =>
      match upto_last_close rest with
      | Some p => Some (String "{" p)
      | None => None
      end
  | None => None
  end.

End Regex.

(* ===================================================================== *)
(** ** Article collection: [fetch_articles] *)
(* ===================================================================== *)

Module Curation.

Definition RSS_FEEDS_MEDIA : list (string * string) :=
  [ ("TechCrunch AI",    "https://techcrunch.com/category/artificial-intelligence/feed/");
    ("VentureBeat",      "https://venturebeat.com/feed/");
    ("The Verge AI",     "https://www.theverge.com/rss/ai-artificial-intelligence/index.xml");
    ("Wired",            "https://www.wired.com/feed/rss");
    ("MIT Tech Review",  "https://www.technologyreview.com/feed/");
    ("ZDNet AI",         "https://www.zdnet.com/topic/artificial-intelligence/rss.xml");
    ("InfoQ AI/ML",      "https://feed.infoq.com/ai-ml-data-eng");
    ("IEEE Spectrum",    "https://spectrum.ieee.org/feeds/feed.rss");
    ("AI Business",      "https://aibusiness.com/rss.xml");
    ("Analytics Vidhya", "https://www.analyticsvidhya.com/feed/");
    ("CNBC Tech",        "https://www.cnbc.com/id/19854910/device/rss/rss.html") ].

Definition RSS_FEEDS_KEYMAN : list (string * string) :=
  [ ("Google DeepMind",   "https://deepmind.google/blog/rss.xml");
    ("NVIDIA Blog",       "https://blogs.nvidia.com/feed/");
    ("Microsoft AI",      "https://blogs.microsoft.com/feed/");
    ("Hugging Face",      "https://huggingface.co/blog/feed.xml");
    ("Meta AI/Eng",       "https://engineering.fb.com/category/ai-research/feed/");
    ("Last Week in AI",   "https://lastweekin.ai/feed");
    ("Import AI",         "https://importai.substack.com/feed");
    ("Sam Altman Blog",   "http://blog.samaltman.com/posts.atom");
    ("Andrej Karpathy",   "https://karpathy.bearblog.dev/feed/") ].

Definition RSS_FEEDS : list (string * string) :=
  RSS_FEEDS_MEDIA ++ RSS_FEEDS_KEYMAN.

Definition AI_KEYWORDS : list string :=
  [ "AI"; "artificial intelligence"; "machine learning"; "deep learning";
    "LLM"; "large language model"; "GPT"; "ChatGPT"; "Claude"; "Gemini";
    "OpenAI"; "Anthropic"; "Google DeepMind"; "Meta AI"; "Microsoft AI";
    "neural network"; "generative AI"; "foundation model"; "AGI";
    "robotics"; "autonomous"; "computer vision"; "natural language";
    "Nvidia"; "GPU"; "semiconductor"; "chip"; "data center" ].

(** One feed entry as [fetch_articles] reads it: the optional fields
    behind [entry.get], and the value [parse_pub_date(entry)] returns
    ([None] when no date field parses). The conversions inside
    [parse_pub_date] are library calls, so the entry carries their
    outcome. *)
Record entry : Type := mk_entry {
  e_title : option string;
  e_summary : option string;
  e_description : option string;
  e_link : option string;
  e_parsed_date : option Clock.datetime
}.

Definition parse_pub_date (e : entry) : option Clock.datetime := e_parsed_date e.

(** What [feedparser.parse(feed_url)] does: it raises, or gives entries.
    The fields of an entry are strings, so nothing raises while the entries
    are scanned; the handler of [fetch_articles] is met by [FetchRaises]
    only. *)
Inductive feed_result : Type :=
| FetchRaises
| Fetched (entries : list entry).

(** The dictionary appended for an accepted entry. *)
Record article : Type := mk_article {
  source : string;
  title : string;
  url : string;
  summary : string;
  published : string;
  pub_dt : string
}.

Definition date_unknown : string := "日付不明".

(** [pub_dt and pub_dt < cutoff] *)
Definition too_old (pub : option Clock.datetime) (cutoff : Clock.datetime) : bool :=
  match pub with
  | Some t => Clock.ltb t cutoff
  | None => false
  end.

Definition entry_title (e : entry) : string := default "" (e_title e).

Definition entry_summary_clean (e : entry) : string :=
  let summary := default (default "" (e_description e)) (e_summary e) in
  Text.slice_to 500 (Regex.strip_tags summary).

Definition make_article (feed_name : string) (e : entry) : article :=
  let pub := parse_pub_date e in
  {| source := feed_name;
     title := entry_title e;
     url := default "" (e_link e);
     summary := entry_summary_clean e;
     published := match pub with
                  | Some t => Clock.strftime_published t
                  | None => date_unknown
                  end;
     pub_dt := match pub with
               | Some t => Clock.isoformat Clock.utc_offset t
               | None => ""
               end |}.

(** The duplicate filter: [seen] is the set of urls met so far. *)
Fixpoint dedup_loop (articles : list article) (seen : gset string)
    (unique : list article) : list article :=
  match articles with
  | [] => unique
  | art :: rest =>
      if decide (url art ∈ seen) then dedup_loop rest seen unique
      else dedup_loop rest ({[url art]} ∪ seen) (unique ++ [art])
  end.

Definition MAX_ARTICLE_AGE_HOURS : Z := 24.

(** [now_utc - timedelta(hours=MAX_ARTICLE_AGE_HOURS)] *)
Definition cutoff_of (now_utc : Clock.datetime) : Clock.datetime :=
  Clock.sub_one_day now_utc.

Section Library.

(** [str.lower], the case mapping of the library. *)
Variable str_lower : string -> string.

Definition is_ai_related (title summary : string) : bool :=
  let text := str_lower (title +:+ " " +:+ summary) in
  existsb (fun kw => Text.contains (str_lower kw) text) AI_KEYWORDS.

(** The loop over the entries of one feed; [count] is the number of
    entries accepted from this feed so far, [articles] the list shared by
    all feeds. *)
Fixpoint scan_entries (feed_name : string) (cutoff : Clock.datetime)
    (max_per_feed : Z) (entries : list entry) (count : Z)
    (articles : list article) : list article :=
  match entries with
  | [] => articles
  | e :: rest =>
      if max_per_feed <=? count then articles
      else if too_old (parse_pub_date e) cutoff
      then scan_entries feed_name cutoff max_per_feed rest count articles
      else if is_ai_related (entry_title e) (entry_summary_clean e)
      then scan_entries feed_name cutoff max_per_feed rest (count + 1)
                        (articles ++ [make_article feed_name e])
      else scan_entries feed_name cutoff max_per_feed rest count articles
  end.

(** The loop over the feeds; a feed whose fetch raises is skipped. *)
Fixpoint collect (parse : string -> feed_result) (cutoff : Clock.datetime)
    (max_per_feed : Z) (feeds : list (string * string))
    (articles : list article) : list article :=
  match feeds with
  | [] => articles
  | (feed_name, feed_url) :: rest =>
      match parse feed_url with
      | FetchRaises => collect parse cutoff max_per_feed rest articles
      | Fetched entries =>
          collect parse cutoff max_per_feed rest
            (scan_entries feed_name cutoff max_per_feed entries 0 articles)
      end
  end.

(** What one feed adds to the shared list. *)
Definition feed_articles (parse : string -> feed_result) (cutoff : Clock.datetime)
    (max_per_feed : Z) (feed : string * string) : list article :=
  match parse feed.2 with
  | FetchRaises => []
  | Fetched entries => scan_entries feed.1 cutoff max_per_feed entries 0 []
  end.

Definition collected (parse : string -> feed_result) (now_utc : Clock.datetime)
    (max_per_feed : Z) : list article :=
  collect parse (cutoff_of now_utc) max_per_feed RSS_FEEDS [].

Definition fetch_articles (parse : string -> feed_result)
    (now_utc : Clock.datetime) (max_per_feed : Z) : list article :=
  let articles := collected parse now_utc max_per_feed in
  let unique := dedup_loop articles ∅ [] in
  (* unique.sort(key=lambda a: a.get("pub_dt", ""), reverse=True) *)
  PyList.sort_desc pub_dt unique.

End Library.

(** Vocabulary of the statements. An article does not keep its instant,
    only the rendering [pub_dt]: [renders o a] says that [a] carries the
    rendering of the optional instant [o]. *)
Definition renders (o : option Clock.datetime) (a : article) : Prop :=
  pub_dt a = match o with
             | Some t => Clock.isoformat Clock.utc_offset t
             | None => EmptyString
             end.

Definition valid_opt (o : option Clock.datetime) : Prop :=
  match o with Some t => Clock.valid t | None => True end.

(** The order of optional instants, the unknown one lowest. *)
Definition instant_le (o1 o2 : option Clock.datetime) : Prop :=
  match o1, o2 with
  | None, _ => True
  | Some _, None => False
  | Some t, Some u => Clock.le t u
  end.

(** Every instant delivered by the configured feeds is a [datetime]. *)
Definition instants_validb (parse : string -> feed_result) : bool :=
  forallb (fun feed : string * string =>
             match parse feed.2 with
             | FetchRaises => true
             | Fetched es =>
                 forallb (fun e => match parse_pub_date e with
                                   | Some t => Clock.validb t
                                   | None => true
                                   end) es
             end) RSS_FEEDS.

End Curation.


(* ===================================================================== *)
(** ** Python values and exceptions *)
(* ===================================================================== *)

Module Py.

(** What [json.loads] produces and [json.dump] consumes; a [dict] keeps its
    items in insertion order. *)
Inductive value : Type :=
| VNone
| VBool (b : bool)
| VInt (n : Z)
| VFloat (lexeme : string)
| VStr (s : string)
| VList (items : list value)
| VDict (items : list (string * value)).

(** The result of running a piece of code that may raise: the value it
    returns, or [str(e)] of the exception [e] it raises. *)
Inductive outcome (A : Type) : Type :=
| Returns (a : A)
| Raises (err_str : string).

Arguments Returns {A} a.
Arguments Raises {A} err_str.

Definition nl : string := String "010"%char EmptyString.

(** [str(i)] *)
Definition str_of_int (i : Z) : string := NilZero.string_of_int (Z.to_int i).

End Py.

(* ===================================================================== *)
(** ** The summarisation orchestrator: [summarize_with_gemini] *)
(* ===================================================================== *)

Module Summarizer.
Import Py Curation.

Definition models_to_try : list string :=
  [ "gemini-2.0-flash"; "gemini-2.0-flash-lite"; "gemini-2.5-flash";
    "gemini-flash-lite-latest" ].

(** The block of the prompt that lists [articles[:10]], numbered from 1. *)
Fixpoint articles_text_loop (i : Z) (arts : list article) (articles_text : string)
  : string :=
  match arts with
  | [] => articles_text
  | art :: rest =>
      articles_text_loop (i + 1) rest
        (articles_text +:+ nl +:+ "【記事" +:+ str_of_int i +:+ "】" +:+ nl +:+
         "タイトル: " +:+ title art +:+ nl +:+
         "ソース: " +:+ source art +:+ nl +:+
         "URL: " +:+ url art +:+ nl +:+
         "概要: " +:+ Text.slice_to 300 (summary art) +:+ nl +:+
         "---" +:+ nl)
  end.

Definition articles_text (articles : list article) : string :=
  articles_text_loop 1 (take 10 articles) EmptyString.

(** [_dummy_summary] *)
Fixpoint dummy_top_articles (i : Z) (top : list article) : list value :=
  match top with
  | [] => []
  | art :: rest =>
      VDict [ ("rank", VInt i);
              ("title", VStr (title art));
              ("source", VStr (source art));
              ("url", VStr (url art));
              ("point", VStr (Text.slice_to 50 (summary art) +:+ "...")) ]
      :: dummy_top_articles (i + 1) rest
  end.

Definition dummy_news_summary : string :=
  "【テストモード】APIキーが設定されていないため、実際の要約は生成されていません。GEMINI_API_KEY環境変数を設定してください。収集された記事のタイトルのみ表示しています。".

Definition dummy_opinion_summary : string :=
  "【テストモード】メディアの意見分析はAPIキーが必要です。実際の運用時はGemini APIキーを設定することで、ポジティブ・ネガティブ・中立の意見分析が自動生成されます。".

Definition dummy_sentiment : string := "APIキー設定後に自動生成されます".

Definition _dummy_summary (articles : list article) : value :=
  let top := take 10 articles in
  let top_articles := dummy_top_articles 1 top in
  VDict [ ("news_summary", VStr dummy_news_summary);
          ("opinion_summary", VStr dummy_opinion_summary);
          ("sentiment", VDict [ ("positive", VStr dummy_sentiment);
                                ("negative", VStr dummy_sentiment);
                                ("neutral", VStr dummy_sentiment) ]);
          ("top_articles", VList top_articles);
          ("joho_picks", VList []) ].

(** The handler's test: ["429" in err_str or "quota" in err_str.lower()]. *)
Definition is_rate_limit (err_str : string) : bool :=
  Text.contains "429" err_str || Text.contains "quota" (Text.lower err_str).

(** The two [re.sub] calls that drop the fence markers. *)
Definition strip_fences (response_text : string) : string :=
  Regex.sub_fence (Regex.sub_fence_json response_text).

(** [str(e)] of the [TypeError] that [re.sub] raises on [None]. *)
Definition none_text_error : string :=
  "expected string or bytes-like object, got 'NoneType'".

Definition no_json_error : string := "JSONが見つかりません".

(** What a client does on [client.models.generate_content(model=...,
    contents=...)] for a model name and a prompt: it raises, or gives a
    response whose [.text] is a string or [None]. *)
Definition client : Type := string -> string -> outcome (option string).

Section Backend.

Variable generate_content : client.

(** [json.loads] *)
Variable json_loads : string -> outcome value.

(** The literal instruction text of [prompt_news] around the article block. *)
Variable prompt_template : string -> string.

Definition prompt_news (articles : list article) : string :=
  prompt_template (articles_text articles).

(** The body of the [try]: it returns the parsed result or raises. *)
Definition attempt (model_name prompt : string) : outcome value :=
  match generate_content model_name prompt with
  | Raises err_str => Raises err_str
  | Returns None => Raises none_text_error
  | Returns (Some response_text) =>
      match Regex.search_braces (strip_fences response_text) with
      | Some group => json_loads group
      | None => Raises no_json_error
      end
  end.

(** The [for model_name in models_to_try] loop with its handler. The first
    component is [Some result] when the loop was left by [return result] and
    [None] when it ended by [break] or ran out of models; the second lists
    the models handed to the backend, in order. *)
Fixpoint try_models (models : list string) (prompt : string)
  : option value * list string :=
  match models with
  | [] => (None, [])
  | model_name :: rest =>
      match attempt model_name prompt with
      | Returns result => (Some result, [model_name])
      | Raises err_str =>
          if is_rate_limit err_str
          then let '(r, invoked) := try_models rest prompt in
               (r, model_name :: invoked)
          else (None, [model_name])
      end
  end.

End Backend.

(** [summarize_with_gemini], with the API key as an argument; it yields the
    outcome of the call and the models it invoked. [genai_Client] is the
    constructor [genai.Client(api_key=...)], which raises or gives a client;
    it is called before the loop, outside every [try]. *)
Definition summarize_with_gemini (genai_Client : string -> outcome client)
    (json_loads : string -> outcome value) (prompt_template : string -> string)
    (GEMINI_API_KEY : string) (articles : list article)
  : outcome value * list string :=
  if String.eqb GEMINI_API_KEY EmptyString
  then (Returns (_dummy_summary articles), [])
  else
    match genai_Client GEMINI_API_KEY with
    | Raises err_str => (Raises err_str, [])
    | Returns generate_content =>
        match try_models generate_content json_loads models_to_try
                (prompt_news prompt_template articles) with
        | (Some result, invoked) => (Returns result, invoked)
        | (None, invoked) => (Returns (_dummy_summary articles), invoked)
        end
    end.

(** Vocabulary of the statements: the attempt failed with a rate or quota
    signature. *)
Definition rate_limited (o : outcome value) : Prop :=
  exists err_str, o = Raises err_str /\ is_rate_limit err_str = true.

(** The entry the fallback holds for the article [art] at rank [i]. *)
Definition dummy_entry (i : Z) (art : article) : value :=
  VDict [ ("rank", VInt i);
          ("title", VStr (title art));
          ("source", VStr (source art));
          ("url", VStr (url art));
          ("point", VStr (Text.slice_to 50 (summary art) +:+ "...")) ].

(** The first balanced object of a text, as the specification words the
    extraction: from the first ["{"] to the brace that closes it, braces
    inside string literals not counted. [depth] counts the open braces,
    [in_str] and [escaped] track string literals. *)
Fixpoint balanced_prefix (depth : nat) (in_str escaped : bool) (s : string)
  : option string :=
  match s with
  | EmptyString => None
  | String c s' =>
      let keep := fun r => match r with Some p => Some (String c p) | None => None end in
      if in_str then
        if escaped then keep (balanced_prefix depth true false s')
        else if Ascii.eqb c "\" then keep (balanced_prefix depth true true s')
        else if Ascii.eqb c "034" then keep (balanced_prefix depth false false s')
        else keep (balanced_prefix depth true false s')
      else if Ascii.eqb c "034" then keep (balanced_prefix depth true false s')
      else if Ascii.eqb c "{" then keep (balanced_prefix (S depth) false false s')
      else if Ascii.eqb c "}" then
        match depth with
        | S O => Some (String c EmptyString)
        | S d => keep (balanced_prefix d false false s')
        | O => None
        end
      else keep (balanced_prefix depth false false s')
  end.

Definition first_balanced_object (s : string) : option string :=
  match Regex.after_first_open s with
  | Some rest =>
      match balanced_prefix 1 false false rest with
      | Some p => Some (String "{" p)
      | None => None
      end
  | None => None
  end.

End Summarizer.

(* ===================================================================== *)
(** ** The commentary generator: [generate_joho_commentary] *)
(* ===================================================================== *)

Module Commentary.
Import Py Curation.

(** The text behind the first occurrence of [c]. *)
Fixpoint after_first (c : ascii) (s : string) : option string :=
  match s with
  | EmptyString => None
  | String d s' => if Ascii.eqb d c then Some s' else after_first c s'
  end.

(** The longest prefix that ends with [c]. *)
Fixpoint upto_last (c : ascii) (s : string) : option string :=
  match s with
  | EmptyString => None
  | String d s' =>
      match upto_last c s' with
      | Some p => Some (String d p)
      | None => if Ascii.eqb d c then Some (String d EmptyString) else None
      end
  end.

(** [re.search(r'\[[\s\S]*\]', s)], giving [m.group()]. *)
Definition search_brackets (s : string) : option string :=
  match after_first "[" s with
  | Some rest =>
      match upto_last "]" rest with
      | Some p => Some (String "[" p)
      | None => None
      end
  | None => None
  end.

(** The block of the prompt that lists [articles[:15]], numbered from 1. *)
Fixpoint articles_text_loop (i : Z) (arts : list article) (articles_text : string)
  : string :=
  match arts with
  | [] => articles_text
  | art :: rest =>
      articles_text_loop (i + 1) rest
        (articles_text +:+ nl +:+ "【記事" +:+ str_of_int i +:+ "】" +:+ nl +:+
         "タイトル: " +:+ title art +:+ nl +:+
         "ソース: " +:+ source art +:+ nl +:+
         "URL: " +:+ url art +:+ nl +:+
         "概要: " +:+ Text.slice_to 400 (summary art) +:+ nl +:+
         "---" +:+ nl)
  end.

Definition articles_text (articles : list article) : string :=
  articles_text_loop 1 (take 15 articles) EmptyString.

(** [len(picks)], evaluated for the success message. *)
Definition py_len (v : value) : outcome Z :=
  match v with
  | VStr s => Returns (Z.of_nat (Text.len s))
  | VList items => Returns (Z.of_nat (length items))
  | VDict items => Returns (Z.of_nat (length items))
  | VNone => Raises "object of type 'NoneType' has no len()"
  | VBool _ => Raises "object of type 'bool' has no len()"
  | VInt _ => Raises "object of type 'int' has no len()"
  | VFloat _ => Raises "object of type 'float' has no len()"
  end.

Definition no_json_list_error : string := "JSONリストが見つかりません".

Section Backend.

Variable generate_content : Summarizer.client.
Variable json_loads : string -> outcome value.

(** The literal instruction text of [prompt] around the article block. *)
Variable prompt_template : string -> string.

Definition prompt (articles : list article) : string :=
  prompt_template (articles_text articles).

(** The body of the [try]. *)
Definition attempt (model_name prompt : string) : outcome value :=
  match generate_content model_name prompt with
  | Raises err_str => Raises err_str
  | Returns None => Raises Summarizer.none_text_error
  | Returns (Some response_text) =>
      match search_brackets (Summarizer.strip_fences response_text) with
      | Some group =>
          match json_loads group with
          | Returns picks =>
              match py_len picks with
              | Returns _ => Returns picks
              | Raises err_str => Raises err_str
              end
          | Raises err_str => Raises err_str
          end
      | None => Raises no_json_list_error
      end
  end.

(** The candidate loop with its handler, as in [summarize_with_gemini]. *)
Fixpoint try_models (models : list string) (prompt : string)
  : option value * list string :=
  match models with
  | [] => (None, [])
  | model_name :: rest =>
      match attempt model_name prompt with
      | Returns picks => (Some picks, [model_name])
      | Raises err_str =>
          if Summarizer.is_rate_limit err_str
          then let '(r, invoked) := try_models rest prompt in
               (r, model_name :: invoked)
          else (None, [model_name])
      end
  end.

End Backend.

(** [generate_joho_commentary]: the outcome of the call and the models it
    invoked. The client is built before the loop, outside every [try]. *)
Definition generate_joho_commentary
    (genai_Client : string -> outcome Summarizer.client)
    (json_loads : string -> outcome value) (prompt_template : string -> string)
    (GEMINI_API_KEY : string) (articles : list article)
  : outcome value * list string :=
  if String.eqb GEMINI_API_KEY EmptyString || bool_decide (articles = [])
  then (Returns (VList []), [])
  else
    match genai_Client GEMINI_API_KEY with
    | Raises err_str => (Raises err_str, [])
    | Returns generate_content =>
        match try_models generate_content json_loads Summarizer.models_to_try
                (prompt prompt_template articles) with
        | (Some picks, invoked) => (Returns picks, invoked)
        | (None, invoked) => (Returns (VList []), invoked)
        end
    end.

End Commentary.

(* ===================================================================== *)
(** ** The snapshot store: [save_data] and [load_history] *)
(* ===================================================================== *)

Module Store.
Import Py Curation.

(** [get_time_slot], with its own clock reading as argument. *)
Definition get_time_slot (now : Clock.datetime) : string :=
  let hour := Clock.hour now in
  if (5 <=? hour) && (hour <? 11) then "朝"
  else if (11 <=? hour) && (hour <? 15) then "昼"
  else if (15 <=? hour) && (hour <? 18) then "夕方"
  else "夜".

(** An article dictionary as a value. *)
Definition article_value (a : article) : value :=
  VDict [ ("source", VStr (source a));
          ("title", VStr (title a));
          ("url", VStr (url a));
          ("summary", VStr (summary a));
          ("published", VStr (published a));
          ("pub_dt", VStr (pub_dt a)) ].

(** The name of the snapshot written at [now], inside [DATA_DIR]. *)
Definition snapshot_name (now : Clock.datetime) : string :=
  "news_" +:+ Clock.strftime_stamp now +:+ ".json".

Definition latest_name : string := "latest.json".

(** [s.endswith(suffix)] *)
Fixpoint ends_with (suffix s : string) : bool :=
  String.eqb s suffix ||
  match s with
  | EmptyString => false
  | String _ s' => ends_with suffix s'
  end.

(** Does a file name match the pattern [news_*.json]. *)
Definition glob_news (name : string) : bool :=
  match Text.strip_prefix "news_" name with
  | Some rest => ends_with ".json" rest
  | None => false
  end.

(** The order of the minute stamps of two instants. *)
Definition compare_minutes (a b : Clock.datetime) : comparison :=
  let lex := Text.lex in
  lex (Clock.year a ?= Clock.year b)
 (lex (Clock.month a ?= Clock.month b)
 (lex (Clock.day a ?= Clock.day b)
 (lex (Clock.hour a ?= Clock.hour b)
      (Clock.minute a ?= Clock.minute b)))).

(** How a block [with open(path, "w", encoding="utf-8") as f:
    json.dump(data, f, ...)] ends: the whole text is in the file; or the
    dump raises after part of the text went out (a character that UTF-8
    cannot encode, a full disk), and the file keeps what was written; or
    [open] raises and the file is not touched. *)
Inductive written : Type :=
| Complete
| Truncated (kept err_str : string)
| NotOpened (err_str : string).

Section Files.

(** The text [json.dump(data, f, ensure_ascii=False, indent=2)] produces. *)
Variable json_dumps : value -> string.

(** What becomes of the writing of a text to a path. *)
Variable write_text : string -> string -> written.

(** [json.load], on the text of a file. *)
Variable json_loads : string -> outcome value.

(** The directory [DATA_DIR]: each file name is bound to the text of the
    file, or to [None] when the file cannot be opened or decoded.
    [write_file] gives the directory after the block and the exception the
    block raises, if any. *)
Definition write_file (fs : gmap string (option string)) (path text : string)
  : gmap string (option string) * option string :=
  match write_text path text with
  | Complete => (<[path := Some text]> fs, None)
  | Truncated kept err_str => (<[path := Some kept]> fs, Some err_str)
  | NotOpened err_str => (fs, Some err_str)
  end.

(** [save_data]: the directory it leaves, and the path it returns or the
    exception it raises. *)
Definition save_data (fs : gmap string (option string))
    (now slot_now : Clock.datetime) (summary : value) (articles : list article)
  : gmap string (option string) * outcome string :=
  let timestamp := Clock.strftime_stamp now in
  let data := VDict [ ("timestamp", VStr (Clock.isoformat Clock.jst_offset now));
                      ("time_slot", VStr (get_time_slot slot_now));
                      ("summary", summary);
                      ("raw_articles", VList (article_value <$> take 15 articles)) ] in
  let filepath := "news_" +:+ timestamp +:+ ".json" in
  match write_file fs filepath (json_dumps data) with
  | (fs, Some err_str) => (fs, Raises err_str)
  | (fs, None) =>
      let latest_path := latest_name in
      match write_file fs latest_path (json_dumps data) with
      | (fs, Some err_str) => (fs, Raises err_str)
      | (fs, None) => (fs, Returns filepath)
      end
  end.

(** [sorted(DATA_DIR.glob("news_*.json"), reverse=True)]: paths of one
    directory are ordered by their names. *)
Definition data_files (fs : gmap string (option string)) : list string :=
  PyList.sort_desc id
    (filter (fun name => glob_news name = true) (elements (dom fs))).

(** The loop of [load_history]: a file whose reading or parsing raises is
    passed over. *)
Fixpoint read_files (fs : gmap string (option string)) (files : list string)
    (history : list value) : list value :=
  match files with
  | [] => history
  | f :: rest =>
      match fs !! f with
      | Some (Some text) =>
          match json_loads text with
          | Returns data => read_files fs rest (history ++ [data])
          | Raises _ => read_files fs rest history
          end
      | _ => read_files fs rest history
      end
  end.

Definition load_history (fs : gmap string (option string)) : list value :=
  read_files fs (take 12 (data_files fs)) [].

(** What one file contributes to the history. *)
Definition read_snapshot (fs : gmap string (option string)) (name : string)
  : option value :=
  match fs !! name with
  | Some (Some text) =>
      match json_loads text with
      | Returns data => Some data
      | Raises _ => None
      end
  | _ => None
  end.

End Files.

End Store.

(* ===================================================================== *)
(** ** The run: [main] of [fetch_news.py] *)
(* ===================================================================== *)

Module Pipeline.
Import Py Curation.


Fixpoint dict_set (key : string) (v : value) (items : list (string * value))
  : list (string * value) :=
  match items with
  | [] => [(key, v)]
  | (k, x) :: rest =>
      if String.eqb k key then (k, v) :: rest
      else (k, x) :: dict_set key v rest
  end.

(** [summary[key] = v]: only a dictionary takes a text key. *)
Definition setitem (summary : value) (key : string) (v : value) : outcome value :=
  match summary with
  | VDict items => Returns (VDict (dict_set key v items))
  | VList _ => Raises "list indices must be integers or slices, not str"
  | VStr _ => Raises "'str' object does not support item assignment"
  | VNone => Raises "'NoneType' object does not support item assignment"
  | VBool _ => Raises "'bool' object does not support item assignment"
  | VInt _ => Raises "'int' object does not support item assignment"
  | VFloat _ => Raises "'float' object does not support item assignment"
  end.

(** What a run leaves behind: the directory, the models invoked for the
    summary and for the commentary, and the history it loaded ([None] when
    the run ended before loading it). *)
Record run : Type := mk_run {
  store : gmap string (option string);
  summary_calls : list string;
  commentary_calls : list string;
  history : option (list value)
}.

Section World.

Variable str_lower : string -> string.
Variable parse : string -> feed_result.

(** The two calls of [genai.Client], the first in [summarize_with_gemini]
    and the second in [generate_joho_commentary]. *)
Variable summary_Client : string -> outcome Summarizer.client.
Variable commentary_Client : string -> outcome Summarizer.client.

Variable json_loads : string -> outcome value.
Variable json_dumps : value -> string.
Variable write_text : string -> string -> Store.written.
Variable summary_template : string -> string.
Variable commentary_template : string -> string.

(** [main], from its start to the call of [load_history]; [generate_html]
    and [upload_to_ftp], which follow, leave [DATA_DIR] as it is. The clock
    readings are [now_utc] (in [fetch_articles]) and [save_now], [slot_now]
    (in [save_data]). *)
Definition main (GEMINI_API_KEY : string) (fs : gmap string (option string))
    (now_utc save_now slot_now : Clock.datetime) : outcome run :=
  let articles := fetch_articles str_lower parse now_utc 5 in
  if bool_decide (articles = []) then Returns (mk_run fs [] [] None)
  else
    match Summarizer.summarize_with_gemini summary_Client json_loads
            summary_template GEMINI_API_KEY articles with
    | (Raises err_str, _) => Raises err_str
    | (Returns summary, calls1) =>
        match Commentary.generate_joho_commentary commentary_Client json_loads
                commentary_template GEMINI_API_KEY articles with
        | (Raises err_str, _) => Raises err_str
        | (Returns joho_picks, calls2) =>
            match setitem summary "joho_picks" joho_picks with
            | Raises err_str => Raises err_str
            | Returns summary =>
                match Store.save_data json_dumps write_text fs save_now slot_now
                        summary articles with
                | (_, Raises err_str) => Raises err_str
                | (fs, Returns _) =>
                    let history := Store.load_history json_loads fs in
                    Returns (mk_run fs calls1 calls2 (Some history))
                end
            end
        end
    end.

End World.

End Pipeline.

(* ===================================================================== *)
(** ** The trigger computation of [scheduler_loop.py] *)
(* ===================================================================== *)

Module Scheduler.

Definition SCHEDULE_HOURS : list Z := [6; 12; 16; 20].

(** The [for hour in SCHEDULE_HOURS] loop of [get_next_run]: the first
    candidate of today that lies after [now], if there is one. *)
Fixpoint first_candidate (now : Clock.datetime) (hours : list Z)
  : option Clock.datetime :=
  match hours with
  | [] => None
  | hour :: rest =>
      let candidate := Clock.replace_hour now hour in
      if Clock.ltb now candidate then Some candidate
      else first_candidate now rest
  end.

(** [get_next_run], with the JST clock reading [now] as its argument. *)
Definition get_next_run (now : Clock.datetime) : Clock.datetime :=
  match first_candidate now SCHEDULE_HOURS with
  | Some candidate => candidate
  | None =>
      let tomorrow := Clock.add_one_day now in
      Clock.replace_hour tomorrow (nth 0 SCHEDULE_HOURS 0)
  end.

(** A configured daily trigger time: a configured hour, on the hour. *)
Definition is_trigger (t : Clock.datetime) : Prop :=
  Clock.hour t ∈ SCHEDULE_HOURS /\ Clock.minute t = 0 /\
  Clock.second t = 0 /\ Clock.microsecond t = 0.

End Scheduler.

(** Sample feeds used to run the model. *)
Module Samples.
Import Curation.

Definition now_utc : Clock.datetime := Clock.mk_datetime 2024 3 10 12 0 0 0.

Definition e_fresh : entry :=
  mk_entry (Some "OpenAI ships a model") (Some "<p>GPT <b>news</b></p>") None
           (Some "https://example.org/a")
           (Some (Clock.mk_datetime 2024 3 10 9 30 0 0)).

Definition e_stale : entry :=
  mk_entry (Some "Machine learning in 2020") (Some "old") None
           (Some "https://example.org/b")
           (Some (Clock.mk_datetime 2024 3 9 11 59 59 0)).

Definition e_undated : entry :=
  mk_entry (Some "Claude update") None (Some "notes") (Some "https://example.org/c")
           None.

Definition e_nolink1 : entry :=
  mk_entry (Some "Gemini notes") None None None None.

Definition e_nolink2 : entry :=
  mk_entry (Some "Nvidia chip") None None None None.

Definition e_offtopic : entry :=
  mk_entry (Some "Football scores") None None (Some "https://example.org/d") None.

Definition parse (u : string) : feed_result :=
  if String.eqb u "https://venturebeat.com/feed/"
  then Fetched [e_stale; e_fresh; e_offtopic; e_undated; e_nolink1]
  else if String.eqb u "https://www.wired.com/feed/rss"
  then Fetched [e_nolink2; e_fresh]
  else FetchRaises.

(** An entry whose summary has 183 characters in 543 bytes, the keyword
    at its end, and a feed that holds it. *)
Definition e_long : entry :=
  mk_entry (Some "新製品") (Some (Nat.iter 180 (String.append "あ") " AI")) None
           (Some "https://example.org/e") None.

Definition parse_long (u : string) : feed_result :=
  if String.eqb u "https://www.wired.com/feed/rss"
  then Fetched [e_long]
  else FetchRaises.

(** The feeds of [parse] with the second source unreachable. *)
Definition parse_wired_down (u : string) : feed_result :=
  if String.eqb u "https://www.wired.com/feed/rss" then FetchRaises else parse u.

(** Sample backends: [json_loads] here only knows the empty object. *)
Definition json_loads (text : string) : Py.outcome Py.value :=
  if String.eqb text "{}" then Py.Returns (Py.VDict [])
  else Py.Raises "Extra data: line 1 column 4 (char 3)".

Definition prompt_template (articles_text : string) : string := articles_text.

(** The first model is out of quota, the second answers in a fence. *)
Definition backend_quota_then_ok (model_name prompt : string)
  : Py.outcome (option string) :=
  if String.eqb model_name "gemini-2.0-flash"
  then Py.Raises "429 RESOURCE_EXHAUSTED"
  else if String.eqb model_name "gemini-2.0-flash-lite"
  then Py.Returns (Some ("```json" +:+ Py.nl +:+ "{}" +:+ Py.nl +:+ "``` done"))
  else Py.Returns (Some "{}").

(** The first model fails for another reason. *)
Definition backend_broken (model_name prompt : string)
  : Py.outcome (option string) :=
  if String.eqb model_name "gemini-2.0-flash"
  then Py.Raises "500 INTERNAL"
  else Py.Returns (Some "{}").

(** Every model answers with an object followed by text with braces. *)
Definition backend_trailing_braces (model_name prompt : string)
  : Py.outcome (option string) :=
  Py.Returns (Some "{} and {more}").

(** A parser for the commentary samples: it knows the empty list and a
    number. *)
Definition json_loads_list (text : string) : Py.outcome Py.value :=
  if String.eqb text "[]" then Py.Returns (Py.VList [])
  else Py.Raises "Expecting value: line 1 column 2 (char 1)".

(** The first model is out of quota, the second answers with a list. *)
Definition backend_quota_then_list (model_name prompt : string)
  : Py.outcome (option string) :=
  if String.eqb model_name "gemini-2.0-flash"
  then Py.Raises "429 RESOURCE_EXHAUSTED"
  else Py.Returns (Some "Here it is: [] .").

(** Every model is out of quota. *)
Definition backend_exhausted (model_name prompt : string)
  : Py.outcome (option string) :=
  Py.Raises "You exceeded your current quota".

(** A parser that accepts texts opening with a brace and keeps the text. *)
Definition json_loads_tagged (text : string) : Py.outcome Py.value :=
  if Text.starts_with "{" text then Py.Returns (Py.VStr text)
  else Py.Raises "Expecting value: line 1 column 1 (char 0)".

Definition json_dumps (data : Py.value) : string :=
  match data with
  | Py.VDict (("timestamp", Py.VStr t) :: _) => "{" +:+ t +:+ "}"
  | _ => "{}"
  end.

(** Twelve snapshots, the seventh most recent one corrupted. *)
Definition twelve_files : gmap string (option string) :=
  list_to_map
    [ ("news_20240308_0600.json", Some "{1}");
      ("news_20240308_1200.json", Some "{2}");
      ("news_20240308_1600.json", Some "{3}");
      ("news_20240308_2000.json", Some "{4}");
      ("news_20240309_0600.json", Some "{5}");
      ("news_20240309_1200.json", Some "oops");
      ("news_20240309_1600.json", Some "{7}");
      ("news_20240309_2000.json", Some "{8}");
      ("news_20240310_0600.json", Some "{9}");
      ("news_20240310_1200.json", Some "{10}");
      ("news_20240310_1600.json", Some "{11}");
      ("news_20240310_2000.json", Some "{12}");
      ("latest.json", Some "{12}") ].

(** The data of a run at 06:00 on 11 March, and a parser that reads back
    what [json_dumps] writes for it. *)
Definition run_now : Clock.datetime := Clock.mk_datetime 2024 3 11 6 0 0 0.

Definition run_data : Py.value :=
  Py.VDict [ ("timestamp", Py.VStr (Clock.isoformat Clock.jst_offset run_now));
             ("time_slot", Py.VStr (Store.get_time_slot run_now));
             ("summary", Py.VStr "{s}");
             ("raw_articles", Py.VList []) ].

Definition json_loads_run (text : string) : Py.outcome Py.value :=
  if String.eqb text (json_dumps run_data) then Py.Returns run_data
  else json_loads_tagged text.

Definition ranked : list Curation.article :=
  Curation.fetch_articles Text.lower parse now_utc 5.

(** A constructor that gives the client [generate_content], and one that
    refuses the key. *)
Definition client_of (generate_content : Summarizer.client) (api_key : string)
  : Py.outcome Summarizer.client :=
  Py.Returns generate_content.

Definition client_refused (api_key : string) : Py.outcome Summarizer.client :=
  Py.Raises "Unsupported client configuration".

(** A directory that takes every write, and one in which the dump of a
    snapshot stops after the opening brace. *)
Definition write_all (path text : string) : Store.written := Store.Complete.

Definition write_stops (path text : string) : Store.written :=
  if Text.starts_with "news_" path
  then Store.Truncated "{" "'utf-8' codec can't encode character '\ud83d' in position 1: surrogates not allowed"
  else Store.Complete.

End Samples.

(* ===================================================================== *)
(** * Properties *)
(* ===================================================================== *)

Example digits_2_7 : Text.digits 2 7 = "07".
Proof. reflexivity. Qed.

Example digits_4_2024 : Text.digits 4 2024 = "2024".
Proof. reflexivity. Qed.

Example contains_mid : Text.contains "quota" "resource quota exceeded" = true.
Proof. reflexivity. Qed.

Example isoformat_whole :
  Clock.isoformat Clock.utc_offset (Clock.mk_datetime 2024 3 9 7 5 0 0)
  = "2024-03-09T07:05:00+00:00".
Proof. reflexivity. Qed.

Example isoformat_fraction :
  Clock.isoformat Clock.utc_offset (Clock.mk_datetime 2024 3 9 7 5 0 1500)
  = "2024-03-09T07:05:00.001500+00:00".
Proof. reflexivity. Qed.

Example sub_one_day_march :
  Clock.sub_one_day (Clock.mk_datetime 2024 3 1 7 5 0 0)
  = Clock.mk_datetime 2024 2 29 7 5 0 0.
Proof. reflexivity. Qed.

(** *** Order of zero-padded renderings *)

Section PaddedOrder.
Import Text.

Lemma compare_refl (s : string) : String.compare s s = Eq.
Proof.
  induction s as [|c s IH]; simpl; [done|].
  unfold Ascii.compare. by rewrite N.compare_refl.
Qed.

Lemma compare_cons (c : ascii) (s t : string) :
  String.compare (String c s) (String c t) = String.compare s t.
Proof. simpl. unfold Ascii.compare. by rewrite N.compare_refl. Qed.

Lemma compare_lt_trans (a b c : string) :
  String.compare a b = Lt -> String.compare b c = Lt -> String.compare a c = Lt.
Proof.
  revert b c. induction a as [|x a IH]; intros [|y b] [|z c]; simpl; try done.
  unfold Ascii.compare.
  destruct (N.compare_spec (N_of_ascii x) (N_of_ascii y)) as [E1|L1|G1];
    destruct (N.compare_spec (N_of_ascii y) (N_of_ascii z)) as [E2|L2|G2];
    destruct (N.compare_spec (N_of_ascii x) (N_of_ascii z)) as [E3|L3|G3];
    try done; try lia.
  apply IH.
Qed.

Lemma str_le_refl (a : string) : str_le a a.
Proof. unfold str_le, str_compare. by rewrite compare_refl. Qed.

Lemma str_le_trans (a b c : string) : str_le a b -> str_le b c -> str_le a c.
Proof.
  unfold str_le, str_compare. intros Hab Hbc.
  destruct (String.compare a b) eqn:E1; [|clear Hab|done].
  - apply String.compare_eq_iff in E1. by subst.
  - destruct (String.compare b c) eqn:E2; [|clear Hbc|done].
    + apply String.compare_eq_iff in E2. subst. by rewrite E1.
    + by rewrite (compare_lt_trans a b c).
Qed.

Lemma str_le_total (a b : string) : str_le a b \/ str_le b a.
Proof.
  unfold str_le, str_compare. rewrite (String.compare_antisym b a).
  destruct (String.compare a b); simpl; auto.
Qed.

Lemma str_leb_le (a b : string) : str_leb a b = true <-> str_le a b.
Proof.
  unfold str_leb, str_le. destruct (str_compare a b); split; done.
Qed.

Lemma append_cons (c : ascii) (s t : string) :
  String c s +:+ t = String c (s +:+ t).
Proof. reflexivity. Qed.

Lemma N_of_digit (x : Z) :
  0 <= x < 10 -> N_of_ascii (digit x) = Z.to_N (48 + x).
Proof.
  intros Hx. unfold digit, ascii_of_nat.
  rewrite N_ascii_embedding by lia. lia.
Qed.

Lemma digit_compare (x y : Z) :
  0 <= x < 10 -> 0 <= y < 10 -> Ascii.compare (digit x) (digit y) = (x ?= y).
Proof.
  intros Hx Hy. unfold Ascii.compare. rewrite !N_of_digit by done.
  rewrite Z2N.inj_compare by lia. apply Z.add_compare_mono_l.
Qed.

Lemma digits_compare (k : nat) :
  forall (a b : Z) (s t : string),
    0 <= a < 10 ^ Z.of_nat k -> 0 <= b < 10 ^ Z.of_nat k ->
    String.compare (digits k a +:+ s) (digits k b +:+ t)
    = lex (a ?= b) (String.compare s t).
Proof.
  induction k as [|k IH]; intros a b s t Ha Hb.
  - simpl in *. assert (a = 0) by lia. assert (b = 0) by lia. by subst.
  - rewrite Nat2Z.inj_succ, Z.pow_succ_r in Ha, Hb by lia.
    set (P := 10 ^ Z.of_nat k) in *.
    assert (HP : 0 < P) by (apply Z.pow_pos_nonneg; lia).
    pose proof (Z.div_mod a P ltac:(lia)) as Ea.
    pose proof (Z.div_mod b P ltac:(lia)) as Eb.
    pose proof (Z.mod_pos_bound a P HP) as Ra.
    pose proof (Z.mod_pos_bound b P HP) as Rb.
    assert (Qa : 0 <= a / P < 10).
    { split; [apply Z.div_pos; lia | apply Z.div_lt_upper_bound; lia]. }
    assert (Qb : 0 <= b / P < 10).
    { split; [apply Z.div_pos; lia | apply Z.div_lt_upper_bound; lia]. }
    cbn [digits]. fold P. rewrite !append_cons.
    cbn [String.compare]. rewrite digit_compare by done.
    destruct (Z.compare_spec (a / P) (b / P)) as [Hq|Hq|Hq].
    + rewrite IH by done.
      destruct (Z.compare_spec (a mod P) (b mod P));
        destruct (Z.compare_spec a b); simpl; try done; nia.
    + destruct (Z.compare_spec a b); simpl; try done; nia.
    + destruct (Z.compare_spec a b); simpl; try done; nia.
Qed.

Lemma digits_length (k : nat) (n : Z) : String.length (digits k n) = k.
Proof. revert n. induction k as [|k IH]; intros n; simpl; [done|]. by rewrite IH. Qed.

End PaddedOrder.

Section StampOrder.
Import Text Clock.

Lemma lex_Eq_r (c : comparison) : lex c Eq = c.
Proof. by destruct c. Qed.

Lemma lex_opp (c d : comparison) :
  CompOpp (lex c d) = lex (CompOpp c) (CompOpp d).
Proof. by destruct c. Qed.

Lemma digits2_compare (a b : Z) (s t : string) :
  0 <= a < 100 -> 0 <= b < 100 ->
  String.compare (digits 2 a +:+ s) (digits 2 b +:+ t)
  = lex (a ?= b) (String.compare s t).
Proof. intros. apply (digits_compare 2); change (10 ^ Z.of_nat 2) with 100; lia. Qed.

Lemma digits4_compare (a b : Z) (s t : string) :
  0 <= a < 10000 -> 0 <= b < 10000 ->
  String.compare (digits 4 a +:+ s) (digits 4 b +:+ t)
  = lex (a ?= b) (String.compare s t).
Proof. intros. apply (digits_compare 4); change (10 ^ Z.of_nat 4) with 10000; lia. Qed.

Lemma digits6_compare (a b : Z) (s t : string) :
  0 <= a < 1000000 -> 0 <= b < 1000000 ->
  String.compare (digits 6 a +:+ s) (digits 6 b +:+ t)
  = lex (a ?= b) (String.compare s t).
Proof.
  intros. apply (digits_compare 6); change (10 ^ Z.of_nat 6) with 1000000; lia.
Qed.

Lemma sep_compare (c : ascii) (s t : string) :
  String.compare (String c EmptyString +:+ s) (String c EmptyString +:+ t)
  = String.compare s t.
Proof. rewrite !append_cons. apply compare_cons. Qed.

(** The optional fraction keeps the order: an offset starts with a sign,
    and both signs sort before the decimal point. *)
Lemma fraction_compare (rest : string) (ua ub : Z) :
  0 <= ua < 1000000 -> 0 <= ub < 1000000 ->
  String.compare
    (if ua =? 0 then String "+" rest
     else "." +:+ digits 6 ua +:+ String "+" rest)
    (if ub =? 0 then String "+" rest
     else "." +:+ digits 6 ub +:+ String "+" rest)
  = (ua ?= ub).
Proof.
  intros Ha Hb.
  destruct (Z.eqb_spec ua 0) as [->|Hna], (Z.eqb_spec ub 0) as [->|Hnb].
  - apply compare_refl.
  - symmetry. apply Z.compare_lt_iff. lia.
  - symmetry. apply Z.compare_gt_iff. lia.
  - rewrite sep_compare, digits6_compare, compare_refl by done.
    apply lex_Eq_r.
Qed.

Lemma valid_bounds (t : datetime) :
  valid t ->
  0 <= year t < 10000 /\ 0 <= month t < 100 /\ 0 <= day t < 100 /\
  0 <= hour t < 100 /\ 0 <= minute t < 100 /\ 0 <= second t < 100 /\
  0 <= microsecond t < 1000000.
Proof.
  unfold valid, days_in_month. intros (?&?&?&?&?&?&?).
  repeat split; try lia.
  destruct (month t =? 2); [destruct (is_leap (year t)); lia|].
  destruct (_ || _); lia.
Qed.

(** Rendered UTC instants sort as the instants do. *)
Lemma isoformat_compare (rest : string) (a b : datetime) :
  valid a -> valid b ->
  String.compare (isoformat (String "+" rest) a) (isoformat (String "+" rest) b)
  = Clock.compare a b.
Proof.
  intros Ha%valid_bounds Hb%valid_bounds.
  destruct Ha as (?&?&?&?&?&?&?), Hb as (?&?&?&?&?&?&?).
  unfold isoformat, Clock.compare.
  rewrite digits4_compare, sep_compare by done.
  rewrite digits2_compare, sep_compare by done.
  rewrite digits2_compare, sep_compare by done.
  rewrite digits2_compare, sep_compare by done.
  rewrite digits2_compare, sep_compare by done.
  rewrite digits2_compare by done.
  by rewrite fraction_compare.
Qed.

Lemma compare_eq (a b : datetime) : Clock.compare a b = Eq -> a = b.
Proof.
  destruct a, b. unfold Clock.compare. simpl.
  repeat match goal with
         | |- lex (?x ?= ?y) _ = Eq -> _ =>
             destruct (Z.compare_spec x y); simpl; [subst|done|done]
         end.
  intros ->%Z.compare_eq. done.
Qed.

Lemma compare_antisym (a b : datetime) :
  Clock.compare b a = CompOpp (Clock.compare a b).
Proof.
  unfold Clock.compare. cbv zeta. rewrite !lex_opp.
  by rewrite <- !Z.compare_antisym.
Qed.

Lemma compare_trans_lt (a b c : datetime) :
  Clock.compare a b = Lt -> Clock.compare b c = Lt -> Clock.compare a c = Lt.
Proof.
  destruct a, b, c. unfold Clock.compare. simpl.
  repeat match goal with
         | |- context [ ?x ?= ?y ] =>
             destruct (Z.compare_spec x y); simpl; try done; try lia
         end.
Qed.

End StampOrder.

(** *** The collection loops *)

Section CollectFacts.
Import Curation.

Variable str_lower : string -> string.

Local Abbreviation is_ai_related := (Curation.is_ai_related str_lower).
Local Abbreviation scan_entries := (Curation.scan_entries str_lower).
Local Abbreviation collect := (Curation.collect str_lower).
Local Abbreviation feed_articles := (Curation.feed_articles str_lower).
Local Abbreviation collected := (Curation.collected str_lower).
Local Abbreviation fetch_articles := (Curation.fetch_articles str_lower).

Lemma scan_entries_app n c m es k arts :
  scan_entries n c m es k arts = arts ++ scan_entries n c m es k [].
Proof.
  revert k arts. induction es as [|e es IH]; intros k arts; simpl.
  - by rewrite app_nil_r.
  - destruct (m <=? k); [by rewrite app_nil_r|].
    destruct (too_old _ _); [apply IH|].
    destruct (is_ai_related _ _); [|apply IH].
    rewrite IH, (IH _ [_]). by rewrite app_assoc.
Qed.

Lemma collect_app parse c m feeds arts :
  collect parse c m feeds arts = arts ++ collect parse c m feeds [].
Proof.
  revert arts. induction feeds as [|[n u] feeds IH]; intros arts; simpl.
  - by rewrite app_nil_r.
  - destruct (parse u) as [|es]; [apply IH|].
    rewrite IH, (IH (scan_entries _ _ _ _ _ [])), scan_entries_app.
    by rewrite app_assoc.
Qed.

Lemma collect_cons parse c m feed feeds :
  collect parse c m (feed :: feeds) []
  = feed_articles parse c m feed ++ collect parse c m feeds [].
Proof.
  destruct feed as [n u]. unfold feed_articles. simpl.
  destruct (parse u); [done|]. apply collect_app.
Qed.

(** Every article of a feed scan was built from an entry of that feed
    which passed both filters. *)
Lemma scan_entries_elem n c m es k a :
  a ∈ scan_entries n c m es k [] ->
  exists e, e ∈ es /\ a = make_article n e /\
            too_old (parse_pub_date e) c = false /\
            is_ai_related (entry_title e) (entry_summary_clean e) = true.
Proof.
  revert k. induction es as [|e es IH]; intros k; simpl.
  - by intros ?%elem_of_nil.
  - destruct (m <=? k); [by intros ?%elem_of_nil|].
    destruct (too_old _ _) eqn:Hold.
    { intros (e'&?&?)%IH. exists e'. split; [by right|done]. }
    destruct (is_ai_related _ _) eqn:Hrel.
    + rewrite scan_entries_app. simpl.
      intros [->|(e'&?&?)%IH]%elem_of_cons.
      * exists e. split; [by left|done].
      * exists e'. split; [by right|done].
    + intros (e'&?&?)%IH. exists e'. split; [by right|done].
Qed.

Lemma collect_elem parse c m feeds a :
  a ∈ collect parse c m feeds [] ->
  exists n u es e,
    (n, u) ∈ feeds /\ parse u = Fetched es /\ e ∈ es /\ a = make_article n e /\
    too_old (parse_pub_date e) c = false /\
    is_ai_related (entry_title e) (entry_summary_clean e) = true.
Proof.
  induction feeds as [|[n u] feeds IH].
  - by intros ?%elem_of_nil.
  - rewrite collect_cons. unfold feed_articles. simpl.
    intros [Hin|Hin]%elem_of_app.
    + destruct (parse u) as [|es] eqn:Hp; [by apply elem_of_nil in Hin|].
      apply scan_entries_elem in Hin as (e&?&?&?&?).
      exists n, u, es, e. split; [by left|done].
    + apply IH in Hin as (n'&u'&es&e&?&?). exists n', u', es, e.
      split; [by right|done].
Qed.

Lemma collect_feed_incl parse c m feeds feed a :
  feed ∈ feeds -> a ∈ feed_articles parse c m feed ->
  a ∈ collect parse c m feeds [].
Proof.
  induction feeds as [|f feeds IH]; [by intros ?%elem_of_nil|].
  rewrite collect_cons. intros [->|Hin]%elem_of_cons Ha; apply elem_of_app; auto.
Qed.

(** Scanning a feed in two parts: the second part is reached with the
    count the first part left, unless the cap was met. *)
Lemma scan_entries_split n c m pre rest k :
  scan_entries n c m (pre ++ rest) k []
  = let r := scan_entries n c m pre k [] in
    r ++ scan_entries n c m rest (k + Z.of_nat (length r)) [].
Proof.
  revert k. induction pre as [|e pre IH]; intros k; cbn [app scan_entries].
  - simpl. by rewrite Z.add_0_r.
  - destruct (m <=? k) eqn:Hcap.
    { simpl. rewrite Z.add_0_r. destruct rest; simpl; [done|by rewrite Hcap]. }
    destruct (too_old _ _); [apply IH|].
    destruct (is_ai_related _ _); [|apply IH].
    rewrite scan_entries_app, (scan_entries_app _ _ _ pre), IH. cbv zeta.
    rewrite <- app_assoc, length_app. simpl.
    do 3 f_equal. lia.
Qed.

End CollectFacts.

(** *** The duplicate filter *)

Section DedupFacts.
Import Curation.

Lemma dedup_loop_app arts seen unique :
  dedup_loop arts seen unique = unique ++ dedup_loop arts seen [].
Proof.
  revert seen unique. induction arts as [|x arts IH]; intros seen unique; simpl.
  - by rewrite app_nil_r.
  - destruct (decide (url x ∈ seen)); [apply IH|].
    rewrite IH, (IH _ [x]). by rewrite app_assoc.
Qed.

Lemma dedup_loop_cons x arts seen :
  dedup_loop (x :: arts) seen []
  = if decide (url x ∈ seen) then dedup_loop arts seen []
    else x :: dedup_loop arts ({[url x]} ∪ seen) [].
Proof. simpl. destruct (decide _); [done|]. by rewrite dedup_loop_app. Qed.

(** An article survives exactly when it is a first occurrence of a url
    that was not seen before. *)
Lemma dedup_loop_elem arts seen a :
  a ∈ dedup_loop arts seen [] <->
  exists pre post, arts = pre ++ a :: post /\ (url a ∉ seen) /\ (url a ∉ url <$> pre).
Proof.
  revert seen. induction arts as [|x arts IH]; intros seen.
  - simpl. split; [by intros ?%elem_of_nil|].
    intros (pre&post&Heq&_). by destruct pre.
  - rewrite dedup_loop_cons. destruct (decide (url x ∈ seen)) as [Hx|Hx].
    + rewrite IH. split.
      * intros (pre&post&->&Hs&Hp). exists (x :: pre), post.
        split_and!; [done|done|]. rewrite fmap_cons, not_elem_of_cons.
        split; [congruence|done].
      * intros (pre&post&Heq&Hs&Hp). destruct pre as [|y pre]; simplify_eq/=.
        { done. }
        exists pre, post. rewrite not_elem_of_cons in Hp. naive_solver.
    + rewrite elem_of_cons, IH. split.
      * intros [->|(pre&post&->&Hs&Hp)].
        { exists [], arts. split_and!; [done|done|]. apply not_elem_of_nil. }
        exists (x :: pre), post. split_and!; [done|set_solver|].
        rewrite fmap_cons, not_elem_of_cons. split; [set_solver|done].
      * intros (pre&post&Heq&Hs&Hp). destruct pre as [|y pre]; simplify_eq/=.
        { by left. }
        right. exists pre, post. rewrite not_elem_of_cons in Hp.
        split_and!; [done|set_solver|naive_solver].
Qed.

Lemma dedup_loop_NoDup arts seen :
  NoDup (url <$> dedup_loop arts seen []).
Proof.
  revert seen. induction arts as [|x arts IH]; intros seen.
  - simpl. constructor.
  - rewrite dedup_loop_cons. destruct (decide _); [apply IH|].
    rewrite fmap_cons. constructor; [|apply IH].
    intros (b&Hb&Hin)%list_elem_of_fmap.
    apply dedup_loop_elem in Hin as (?&?&?&?&?). set_solver.
Qed.

End DedupFacts.

(** *** The stable descending sort *)

Section SortFacts.
Import PyList Text.
Context {A : Type} (key : A -> string).

Lemma insert_desc_perm a l : insert_desc key a l ≡ₚ a :: l.
Proof.
  induction l as [|b l IH]; simpl; [done|].
  destruct (str_leb _ _); [done|]. rewrite IH. apply Permutation_swap.
Qed.

Lemma sort_desc_perm l : sort_desc key l ≡ₚ l.
Proof.
  induction l as [|a l IH]; simpl; [done|].
  rewrite insert_desc_perm. by f_equiv.
Qed.

Lemma insert_desc_sorted a l :
  StronglySorted (key_ge key) l -> StronglySorted (key_ge key) (insert_desc key a l).
Proof.
  induction l as [|b l IH]; simpl; intros Hs.
  - repeat constructor.
  - apply StronglySorted_cons in Hs as [Hb Hl].
    destruct (str_leb (key b) (key a)) eqn:Hle.
    + apply str_leb_le in Hle.
      apply StronglySorted_cons. split; [|by apply StronglySorted_cons].
      constructor; [done|].
      eapply Forall_impl; [exact Hb|]. intros x Hx. unfold key_ge in *.
      by eapply str_le_trans.
    + apply StronglySorted_cons. split; [|by apply IH].
      rewrite insert_desc_perm. constructor; [|done].
      unfold key_ge. destruct (str_le_total (key a) (key b)) as [|Hc]; [done|].
      apply str_leb_le in Hc. congruence.
Qed.

Lemma sort_desc_sorted l : StronglySorted (key_ge key) (sort_desc key l).
Proof.
  induction l as [|a l IH]; simpl; [constructor|]. by apply insert_desc_sorted.
Qed.

Lemma sorted_lookup (R : relation A) l i j a b :
  StronglySorted R l -> (i < j)%nat -> l !! i = Some a -> l !! j = Some b -> R a b.
Proof.
  intros Hs. revert i j. induction Hs as [|x l Hs IH Hx]; intros i j Hij Ha Hb.
  - by rewrite lookup_nil in Ha.
  - destruct j as [|j]; [lia|]. destruct i as [|i]; simpl in *.
    + simplify_eq. rewrite Forall_forall in Hx. apply Hx.
      by eapply list_elem_of_lookup_2.
    + eapply IH; [|done..]. lia.
Qed.

End SortFacts.

(** *** Claims about [fetch_articles] *)

Section FetchArticles.
Import Curation Text.

Variable str_lower : string -> string.

Local Abbreviation is_ai_related := (Curation.is_ai_related str_lower).
Local Abbreviation scan_entries := (Curation.scan_entries str_lower).
Local Abbreviation collect := (Curation.collect str_lower).
Local Abbreviation feed_articles := (Curation.feed_articles str_lower).
Local Abbreviation collected := (Curation.collected str_lower).
Local Abbreviation fetch_articles := (Curation.fetch_articles str_lower).

Lemma fetch_articles_elem parse now cap a :
  a ∈ fetch_articles parse now cap <->
  a ∈ dedup_loop (collected parse now cap) ∅ [].
Proof. unfold fetch_articles. cbv zeta. by rewrite sort_desc_perm. Qed.

(** C2. The list [fetch_articles] returns holds no two articles with the
    same url, and an article is in it exactly when it is the first
    occurrence of its url among the collected articles, taken in the order
    in which the sources were processed: every later article with that url
    is discarded. *)
Theorem fetch_articles_unique_urls parse now cap :
  NoDup (url <$> fetch_articles parse now cap) /\
  (forall a,
     a ∈ fetch_articles parse now cap <->
     exists pre post,
       collected parse now cap = pre ++ a :: post /\ (url a ∉ url <$> pre)).
Proof.
  split.
  - unfold fetch_articles. cbv zeta. rewrite sort_desc_perm.
    apply dedup_loop_NoDup.
  - intros a. rewrite fetch_articles_elem, dedup_loop_elem.
    split; intros (pre&post&?); exists pre, post; set_solver.
Qed.

Lemma NoDup_fmap_eq {A B} (f : A -> B) (l : list A) x y :
  NoDup (f <$> l) -> x ∈ l -> y ∈ l -> f x = f y -> x = y.
Proof.
  induction l as [|z l IH]; [by intros _ ?%elem_of_nil|].
  rewrite fmap_cons, NoDup_cons. intros [Hz Hnd].
  intros [->|Hx]%elem_of_cons [->|Hy]%elem_of_cons Heq; [done| | |by apply IH].
  - destruct Hz. rewrite Heq. by apply list_elem_of_fmap_2.
  - destruct Hz. rewrite <- Heq. by apply list_elem_of_fmap_2.
Qed.

Lemma first_with_url (l : list article) (u : string) :
  u ∈ url <$> l ->
  exists pre a post, l = pre ++ a :: post /\ url a = u /\ (u ∉ url <$> pre).
Proof.
  induction l as [|x l IH]; [by intros ?%elem_of_nil|].
  rewrite fmap_cons. intros Hin.
  destruct (decide (url x = u)) as [Hx|Hx].
  - exists [], x, l. split_and!; [done|done|apply not_elem_of_nil].
  - apply elem_of_cons in Hin as [?|Hin]; [done|].
    destruct (IH Hin) as (pre&a&post&->&?&?).
    exists (x :: pre), a, post. split_and!; [done|done|].
    rewrite fmap_cons, not_elem_of_cons. done.
Qed.

Lemma validb_valid (t : Clock.datetime) : Clock.validb t = true -> Clock.valid t.
Proof. unfold Clock.validb, Clock.valid. rewrite !andb_true_iff. lia. Qed.

Lemma instants_validb_spec parse n u es e t :
  instants_validb parse = true ->
  (n, u) ∈ RSS_FEEDS -> parse u = Fetched es -> e ∈ es ->
  parse_pub_date e = Some t -> Clock.valid t.
Proof.
  unfold instants_validb. rewrite forallb_forall.
  intros Hall Hf%list_elem_of_In Hp He%list_elem_of_In Ht.
  specialize (Hall _ Hf). simpl in Hall. rewrite Hp, forallb_forall in Hall.
  specialize (Hall _ He). rewrite Ht in Hall. by apply validb_valid.
Qed.

Lemma isoformat_nonempty off t : Clock.isoformat off t <> EmptyString.
Proof. unfold Clock.isoformat. done. Qed.

Lemma isoformat_inj (t u : Clock.datetime) :
  Clock.valid t -> Clock.valid u ->
  Clock.isoformat Clock.utc_offset t = Clock.isoformat Clock.utc_offset u ->
  t = u.
Proof.
  intros Ht Hu Heq. apply compare_eq.
  rewrite <- (isoformat_compare "00:00") by done.
  fold Clock.utc_offset. rewrite Heq. apply compare_refl.
Qed.

(** The cutoff: the same time of day on the civil day before. *)
Lemma days_before_next_year (z : Z) :
  Clock.days_before_year (z + 1)
  = Clock.days_before_year z + 365 + (if Clock.is_leap z then 1 else 0).
Proof.
  unfold Clock.days_before_year, Clock.is_leap. cbv zeta.
  replace (z + 1 - 1) with z by lia.
  destruct (Z.eqb_spec (z mod 4) 0), (Z.eqb_spec (z mod 100) 0),
    (Z.eqb_spec (z mod 400) 0); cbn [andb orb negb];
    Z.div_mod_to_equations; lia.
Qed.

Lemma toordinal_sub_one_day (t : Clock.datetime) :
  Clock.valid t ->
  ~ (Clock.year t = 1 /\ Clock.month t = 1 /\ Clock.day t = 1) ->
  Clock.toordinal (Clock.sub_one_day t) = Clock.toordinal t - 1.
Proof.
  intros (?&?&?&_) Hmin. destruct t as [y m d h mi se us]. simpl in *.
  unfold Clock.sub_one_day, Clock.toordinal. simpl.
  destruct (Z.ltb_spec 1 d); simpl; [lia|].
  assert (d = 1) as -> by lia.
  destruct (Z.ltb_spec 1 m); simpl.
  - set (D := Clock.days_before_year y).
    unfold Clock.days_before_month, Clock.days_in_month.
    assert (m = 2 \/ m = 3 \/ m = 4 \/ m = 5 \/ m = 6 \/ m = 7 \/ m = 8 \/ m = 9 \/
            m = 10 \/ m = 11 \/ m = 12) as Hm by lia.
    destruct (Clock.is_leap y);
      destruct Hm as [->|[->|[->|[->|[->|[->|[->|[->|[->|[->| ->]]]]]]]]]];
      repeat match goal with
             | |- context [Z.pos ?p - 1] =>
                 let v := eval vm_compute in (Z.pos p - 1) in
                 change (Z.pos p - 1) with v
             end;
      cbn; lia.
  - assert (m = 1) as -> by lia.
    pose proof (days_before_next_year (y - 1)) as Hy.
    replace (y - 1 + 1) with y in Hy by lia.
    unfold Clock.days_before_month. simpl.
    destruct (Clock.is_leap (y - 1)); lia.
Qed.

Lemma sub_one_day_valid (t : Clock.datetime) :
  Clock.valid t ->
  ~ (Clock.year t = 1 /\ Clock.month t = 1 /\ Clock.day t = 1) ->
  Clock.valid (Clock.sub_one_day t).
Proof.
  intros (?&?&?&?&?&?&?) Hmin. destruct t as [y m d h mi se us]. simpl in *.
  unfold Clock.sub_one_day. simpl.
  destruct (Z.ltb_spec 1 d); [unfold Clock.valid; simpl; lia|].
  destruct (Z.ltb_spec 1 m); unfold Clock.valid; simpl.
  - assert (28 <= Clock.days_in_month y (m - 1)).
    { unfold Clock.days_in_month. destruct (m - 1 =? 2).
      - destruct (Clock.is_leap y); lia.
      - destruct (_ || _); lia. }
    lia.
  - change (Clock.days_in_month (y - 1) 12) with 31. lia.
Qed.

Lemma sub_one_day_time (t : Clock.datetime) :
  Clock.hour (Clock.sub_one_day t) = Clock.hour t /\
  Clock.minute (Clock.sub_one_day t) = Clock.minute t /\
  Clock.second (Clock.sub_one_day t) = Clock.second t /\
  Clock.microsecond (Clock.sub_one_day t) = Clock.microsecond t.
Proof.
  unfold Clock.sub_one_day. destruct (1 <? Clock.day t); [done|].
  by destruct (1 <? Clock.month t).
Qed.

(** C1. The cutoff is the time of the run minus 24 hours: the same time of
    day on the civil day before. An entry whose parsed instant is strictly
    older than the cutoff yields no article of the result; an entry whose
    instant is unknown is not touched by that check: when it is relevant
    and met below the per-feed cap, its article is collected, and the
    result holds an article with its url. *)
Theorem freshness_cutoff parse now cap :
  instants_validb parse = true ->
  (Clock.valid now ->
   ~ (Clock.year now = 1 /\ Clock.month now = 1 /\ Clock.day now = 1) ->
   Clock.valid (cutoff_of now) /\
   Clock.toordinal (cutoff_of now) = Clock.toordinal now - 1 /\
   Clock.hour (cutoff_of now) = Clock.hour now /\
   Clock.minute (cutoff_of now) = Clock.minute now /\
   Clock.second (cutoff_of now) = Clock.second now /\
   Clock.microsecond (cutoff_of now) = Clock.microsecond now) /\
  (forall n u es e t,
     (n, u) ∈ RSS_FEEDS -> parse u = Fetched es -> e ∈ es ->
     parse_pub_date e = Some t -> Clock.lt t (cutoff_of now) ->
     make_article n e ∉ fetch_articles parse now cap) /\
  (forall n u pre e post,
     (n, u) ∈ RSS_FEEDS -> parse u = Fetched (pre ++ e :: post) ->
     parse_pub_date e = None ->
     is_ai_related (entry_title e) (entry_summary_clean e) = true ->
     Z.of_nat (length (scan_entries n (cutoff_of now) cap pre 0 [])) < cap ->
     too_old (parse_pub_date e) (cutoff_of now) = false /\
     make_article n e ∈ collected parse now cap /\
     exists a, a ∈ fetch_articles parse now cap /\ url a = url (make_article n e)).
Proof.
  intros Hvalid. split_and!.
  - intros Hnow Hmin. unfold cutoff_of.
    split; [by apply sub_one_day_valid|].
    split; [by apply toordinal_sub_one_day|]. apply sub_one_day_time.
  - intros n u es e t Hf Hp He Ht Hold Hin.
    apply fetch_articles_elem, dedup_loop_elem in Hin as (pre&post&Hc&_).
    assert (Hin : make_article n e ∈ collected parse now cap).
    { rewrite Hc. apply elem_of_app. right. by left. }
    apply collect_elem in Hin as (n'&u'&es'&e'&Hf'&Hp'&He'&Heq&Hfresh&_).
    apply (f_equal pub_dt) in Heq. simpl in Heq. rewrite Ht in Heq.
    destruct (parse_pub_date e') as [t'|] eqn:Ht'.
    + apply isoformat_inj in Heq;
        [|by apply (instants_validb_spec parse n u es e)
         |by apply (instants_validb_spec parse n' u' es' e')].
      subst t'. simpl in Hfresh. unfold Clock.ltb in Hfresh.
      unfold Clock.lt in Hold. by rewrite Hold in Hfresh.
    + by apply isoformat_nonempty in Heq.
  - intros n u pre e post Hf Hp Ht Hrel Hcount.
    assert (Hcol : make_article n e ∈ collected parse now cap).
    { apply (collect_feed_incl _ _ _ _ _ (n, u)); [done|].
      unfold feed_articles. simpl. rewrite Hp, scan_entries_split. cbv zeta.
      apply elem_of_app. right. cbn [scan_entries].
      rewrite Z.add_0_l. destruct (Z.leb_spec cap
        (Z.of_nat (length (scan_entries n (cutoff_of now) cap pre 0 [])))); [lia|].
      rewrite Ht. cbn [too_old]. rewrite Hrel, scan_entries_app.
      apply elem_of_app. left. by left. }
    split_and!; [by rewrite Ht|done|].
    destruct (first_with_url (collected parse now cap) (url (make_article n e)))
      as (p&a&q&Hc&Hu&Hp').
    { by apply list_elem_of_fmap_2. }
    exists a. split; [|done].
    apply fetch_articles_elem, dedup_loop_elem. exists p, q.
    rewrite Hu. split_and!; [done|set_solver|done].
Qed.

Lemma str_le_empty (s : string) : str_le s EmptyString -> s = EmptyString.
Proof. destruct s; [done|]. unfold str_le, str_compare. simpl. done. Qed.

(** C3. The list [fetch_articles] returns is in descending order of the
    publication instant: of two positions, the earlier one holds the
    greater or equal sort key, hence the later or equal instant; and no
    article with a known instant stands behind one with an unknown
    instant, the unknown instant being below every known one. *)
Theorem ranked_by_recency parse now cap :
  (forall i j ai aj,
     (i < j)%nat ->
     fetch_articles parse now cap !! i = Some ai ->
     fetch_articles parse now cap !! j = Some aj ->
     str_le (pub_dt aj) (pub_dt ai) /\
     (pub_dt ai = EmptyString -> pub_dt aj = EmptyString) /\
     (forall oi oj, valid_opt oi -> valid_opt oj ->
                    renders oi ai -> renders oj aj -> instant_le oj oi)) /\
  (instants_validb parse = true ->
   forall a, a ∈ fetch_articles parse now cap ->
             exists o, valid_opt o /\ renders o a).
Proof.
  split.
  - intros i j ai aj Hij Hi Hj.
    assert (Hle : str_le (pub_dt aj) (pub_dt ai)).
    { eapply (sorted_lookup (PyList.key_ge pub_dt)); [apply sort_desc_sorted|done..]. }
    split_and!; [done| |].
    + intros Hai. rewrite Hai in Hle. by apply str_le_empty.
    + intros oi oj Hvi Hvj Hri Hrj. unfold renders in *.
      rewrite Hri, Hrj in Hle. destruct oj as [tj|]; [|done].
      destruct oi as [ti|]; simpl.
      * unfold str_le, str_compare, Clock.utc_offset in Hle.
        rewrite isoformat_compare in Hle by done. exact Hle.
      * by apply str_le_empty, isoformat_nonempty in Hle.
  - intros Hvalid a Ha.
    apply fetch_articles_elem, dedup_loop_elem in Ha as (pre&post&Hc&_).
    assert (Hin : a ∈ collected parse now cap).
    { rewrite Hc. apply elem_of_app. right. by left. }
    apply collect_elem in Hin as (n&u&es&e&Hf&Hp&He&->&_).
    exists (parse_pub_date e). split; [|done].
    destruct (parse_pub_date e) eqn:Ht; [|done]. simpl.
    by eapply instants_validb_spec.
Qed.

(** C10. An accepted entry without a link gets the empty string as its
    url; hence, of all collected articles whose url is empty, the list
    [fetch_articles] returns keeps the first one in processing order and
    none of the others, distinct articles though they are. *)
Theorem missing_link_collapses parse now cap :
  (forall n e, e_link e = None -> url (make_article n e) = EmptyString) /\
  (forall pre a post,
     collected parse now cap = pre ++ a :: post ->
     url a = EmptyString ->
     EmptyString ∉ url <$> pre ->
     a ∈ fetch_articles parse now cap /\
     (forall b, b ∈ fetch_articles parse now cap -> url b = EmptyString -> b = a) /\
     (forall b, b ∈ post -> url b = EmptyString -> b <> a ->
                b ∉ fetch_articles parse now cap)).
Proof.
  split.
  - intros n e He. simpl. by rewrite He.
  - intros pre a post Hc Hu Hpre.
    assert (Ha : a ∈ fetch_articles parse now cap).
    { apply fetch_articles_elem, dedup_loop_elem. exists pre, post.
      rewrite Hu. split_and!; [done|set_solver|done]. }
    assert (Hone : forall b, b ∈ fetch_articles parse now cap ->
                             url b = EmptyString -> b = a).
    { intros b Hb Hub.
      eapply (NoDup_fmap_eq url); [|done|done|congruence].
      unfold fetch_articles. cbv zeta. rewrite sort_desc_perm.
      apply dedup_loop_NoDup. }
    split_and!; [done|done|].
    intros b _ Hub Hne Hb. by apply Hne, Hone.
Qed.

End FetchArticles.

Section FetchArticlesRuns.
Import Curation Text.

Local Abbreviation fetch_articles := (Curation.fetch_articles Text.lower).
Local Abbreviation collected := (Curation.collected Text.lower).

Lemma freshness_cutoff_witness :
  (cutoff_of Samples.now_utc = Clock.mk_datetime 2024 3 9 12 0 0 0 /\
   Clock.toordinal (cutoff_of Samples.now_utc)
   = Clock.toordinal Samples.now_utc - 1) /\
  (make_article "VentureBeat" Samples.e_stale
     ∉ fetch_articles Samples.parse Samples.now_utc 5) /\
  (too_old (parse_pub_date Samples.e_undated) (cutoff_of Samples.now_utc) = false /\
   make_article "VentureBeat" Samples.e_undated
     ∈ collected Samples.parse Samples.now_utc 5 /\
   exists a, a ∈ fetch_articles Samples.parse Samples.now_utc 5 /\
             url a = url (make_article "VentureBeat" Samples.e_undated)).
Proof.
  pose proof (freshness_cutoff Text.lower Samples.parse Samples.now_utc 5 eq_refl)
    as (Hcut&Hold&Hunknown).
  split; [split|split].
  - reflexivity.
  - apply Hcut; [by apply validb_valid|]. intros (H&_). discriminate H.
  - apply (Hold "VentureBeat" "https://venturebeat.com/feed/"
             [Samples.e_stale; Samples.e_fresh; Samples.e_offtopic;
              Samples.e_undated; Samples.e_nolink1]
             Samples.e_stale (Clock.mk_datetime 2024 3 9 11 59 59 0));
      [repeat constructor|reflexivity|repeat constructor|reflexivity|reflexivity].
  - apply (Hunknown "VentureBeat" "https://venturebeat.com/feed/"
             [Samples.e_stale; Samples.e_fresh; Samples.e_offtopic]
             Samples.e_undated [Samples.e_nolink1]);
      [repeat constructor|reflexivity|reflexivity|reflexivity|vm_compute; reflexivity].
Defined.

Lemma ranked_by_recency_witness :
  let ai := make_article "VentureBeat" Samples.e_fresh in
  let aj := make_article "VentureBeat" Samples.e_undated in
  (str_le (pub_dt aj) (pub_dt ai) /\
   (pub_dt ai = EmptyString -> pub_dt aj = EmptyString) /\
   (forall oi oj, valid_opt oi -> valid_opt oj ->
                  renders oi ai -> renders oj aj -> instant_le oj oi)) /\
  (forall a, a ∈ fetch_articles Samples.parse Samples.now_utc 5 ->
             exists o, valid_opt o /\ renders o a).
Proof.
  intros ai aj.
  pose proof (ranked_by_recency Text.lower Samples.parse Samples.now_utc 5)
    as [Hord Hren].
  split.
  - apply (Hord 0%nat 1%nat ai aj);
      [lia|vm_compute; reflexivity|vm_compute; reflexivity].
  - apply Hren. reflexivity.
Defined.

Lemma missing_link_collapses_witness :
  let a := make_article "VentureBeat" Samples.e_nolink1 in
  let b := make_article "Wired" Samples.e_nolink2 in
  a ∈ fetch_articles Samples.parse Samples.now_utc 5 /\
  (forall x, x ∈ fetch_articles Samples.parse Samples.now_utc 5 ->
             url x = EmptyString -> x = a) /\
  (forall x, x ∈ [b; make_article "Wired" Samples.e_fresh] ->
             url x = EmptyString -> x <> a ->
             x ∉ fetch_articles Samples.parse Samples.now_utc 5).
Proof.
  intros a b.
  apply (proj2 (missing_link_collapses Text.lower Samples.parse Samples.now_utc 5)
           [make_article "VentureBeat" Samples.e_fresh;
            make_article "VentureBeat" Samples.e_undated]
           a [b; make_article "Wired" Samples.e_fresh]).
  - vm_compute. reflexivity.
  - reflexivity.
  - intros Hin. vm_compute in Hin.
    repeat (apply elem_of_cons in Hin as [Hin|Hin]; [discriminate Hin|]).
    by apply elem_of_nil in Hin.
Defined.

End FetchArticlesRuns.

Example fetch_articles_sample :
  Curation.url <$> Curation.fetch_articles Text.lower Samples.parse Samples.now_utc 5
  = ["https://example.org/a"; "https://example.org/c"; EmptyString].
Proof. vm_compute. reflexivity. Qed.


(** *** The next trigger *)

Section NextRun.
Import Clock Scheduler.

Lemma lex_lt_iff (x y : Z) (c : comparison) :
  Text.lex (x ?= y) c = Lt <-> x < y \/ (x = y /\ c = Lt).
Proof.
  destruct (Z.compare_spec x y); simpl; split; try done; try lia; auto.
  intros [?|[_ ?]]; [lia|done].
Qed.

Lemma lex_le_iff (x y : Z) (c : comparison) :
  Text.lex (x ?= y) c <> Gt <-> x < y \/ (x = y /\ c <> Gt).
Proof.
  destruct (Z.compare_spec x y); simpl; split; try done; try lia; auto.
  intros [?|[_ ?]]; [lia|done].
Qed.

Lemma lt_spec (a b : datetime) :
  lt a b <->
  year a < year b \/ (year a = year b /\
  (month a < month b \/ (month a = month b /\
  (day a < day b \/ (day a = day b /\
  (hour a < hour b \/ (hour a = hour b /\
  (minute a < minute b \/ (minute a = minute b /\
  (second a < second b \/ (second a = second b /\
   microsecond a < microsecond b))))))))))).
Proof.
  unfold lt, Clock.compare. cbv zeta.
  by rewrite !lex_lt_iff, Z.compare_lt_iff.
Qed.

Lemma le_spec (a b : datetime) :
  le a b <->
  year a < year b \/ (year a = year b /\
  (month a < month b \/ (month a = month b /\
  (day a < day b \/ (day a = day b /\
  (hour a < hour b \/ (hour a = hour b /\
  (minute a < minute b \/ (minute a = minute b /\
  (second a < second b \/ (second a = second b /\
   microsecond a <= microsecond b))))))))))).
Proof.
  unfold le, Clock.compare. cbv zeta.
  by rewrite !lex_le_iff, Z.compare_le_iff.
Qed.

Lemma ltb_lt (a b : datetime) : ltb a b = true <-> lt a b.
Proof. unfold ltb, lt. destruct (Clock.compare a b); split; done. Qed.

(** Today's candidate for hour [h] lies after [now] exactly when the hour
    of [now] is below [h]. *)
Lemma ltb_replace_hour (now : datetime) (h : Z) :
  valid now -> ltb now (replace_hour now h) = (hour now <? h).
Proof.
  intros (_&_&_&_&?&?&?).
  destruct (Z.ltb_spec (hour now) h) as [Hlt|Hge].
  - apply ltb_lt, lt_spec. simpl. lia.
  - destruct (ltb now (replace_hour now h)) eqn:E; [|done].
    apply ltb_lt, lt_spec in E. simpl in E. lia.
Qed.

Lemma days_in_month_bounds (y m : Z) : 28 <= days_in_month y m <= 31.
Proof.
  unfold days_in_month. destruct (m =? 2); [destruct (is_leap y); lia|].
  destruct (_ || _); lia.
Qed.

Lemma add_one_day_valid (t : datetime) :
  valid t -> year t < 9999 -> valid (add_one_day t).
Proof.
  intros (?&?&?&?&?&?&?) Hy. unfold add_one_day.
  destruct (Z.ltb_spec (day t) (days_in_month (year t) (month t))).
  { unfold valid; simpl. lia. }
  destruct (Z.ltb_spec (month t) 12); unfold valid; simpl.
  - pose proof (days_in_month_bounds (year t) (month t + 1)). lia.
  - pose proof (days_in_month_bounds (year t + 1) 1). lia.
Qed.

(** The day after is the least date above the date of [t]. *)
Lemma add_one_day_least (t u : datetime) :
  valid t -> valid u ->
  (year t < year u \/ (year t = year u /\
   (month t < month u \/ (month t = month u /\ day t < day u)))) ->
  let n := add_one_day t in
  year n < year u \/ (year n = year u /\
   (month n < month u \/ (month n = month u /\ day n <= day u))).
Proof.
  intros (?&?&?&_) (?&?&?&_) Hlt. unfold add_one_day.
  destruct (Z.ltb_spec (day t) (days_in_month (year t) (month t))); simpl.
  { lia. }
  destruct (Z.ltb_spec (month t) 12); simpl.
  - destruct Hlt as [?|[Hy [?|[Hm ?]]]]; [lia|lia|].
    rewrite <- Hy, <- Hm in *. lia.
  - destruct Hlt as [?|[Hy [?|[Hm ?]]]]; [lia|lia|].
    rewrite <- Hy, <- Hm in *. lia.
Qed.

Lemma add_one_day_later (t : datetime) :
  let n := add_one_day t in
  year t < year n \/ (year t = year n /\
   (month t < month n \/ (month t = month n /\ day t < day n))).
Proof.
  unfold add_one_day.
  destruct (Z.ltb_spec (day t) (days_in_month (year t) (month t))); simpl; [lia|].
  destruct (Z.ltb_spec (month t) 12); simpl; lia.
Qed.

Lemma get_next_run_cases (now : datetime) :
  valid now ->
  get_next_run now =
    if hour now <? 6 then replace_hour now 6
    else if hour now <? 12 then replace_hour now 12
    else if hour now <? 16 then replace_hour now 16
    else if hour now <? 20 then replace_hour now 20
    else replace_hour (add_one_day now) 6.
Proof.
  intros Hv. unfold get_next_run, SCHEDULE_HOURS. cbn [first_candidate nth].
  rewrite !ltb_replace_hour by done.
  by repeat destruct (_ <? _).
Qed.

Ltac case_ltb :=
  match goal with
  | |- context [ ?a <? ?b ] => destruct (Z.ltb_spec a b)
  end.

Lemma is_trigger_hours (t : datetime) :
  is_trigger t ->
  (hour t = 6 \/ hour t = 12 \/ hour t = 16 \/ hour t = 20) /\
  minute t = 0 /\ second t = 0 /\ microsecond t = 0.
Proof.
  intros (Hh&?&?&?). split; [|done].
  unfold SCHEDULE_HOURS in Hh. set_unfold in Hh. tauto.
Qed.

(** C9. For a clock reading [now], [get_next_run] returns a configured
    trigger time strictly after [now], and no configured trigger time
    strictly after [now] is earlier. When every configured time of today has
    passed, it is the first configured time of the next day. With the
    configured hours 6, 12, 16, 20: at 21:00 the result is 06:00 of the next
    day, at 05:00 it is 06:00 of the same day. *)
Theorem get_next_run_earliest (now : datetime) :
  valid now ->
  is_trigger (get_next_run now) /\
  lt now (get_next_run now) /\
  (forall t, valid t -> is_trigger t -> lt now t -> le (get_next_run now) t) /\
  ((forall h, h ∈ SCHEDULE_HOURS -> ~ lt now (replace_hour now h)) ->
   get_next_run now = replace_hour (add_one_day now) 6) /\
  (hour now = 21 -> get_next_run now = replace_hour (add_one_day now) 6) /\
  (hour now = 5 -> get_next_run now = replace_hour now 6) /\
  (year now < 9999 -> valid (get_next_run now)).
Proof.
  intros Hv. rewrite get_next_run_cases by done.
  pose proof Hv as (Hy&Hm&Hd&Hh&Hmi&Hs&Hu).
  split_and!.
  - unfold is_trigger, SCHEDULE_HOURS.
    repeat destruct (_ <? _); simpl; split_and!; try done; set_solver.
  - apply lt_spec.
    repeat case_ltb; simpl; try lia.
    pose proof (add_one_day_later now) as Hn. cbv zeta in Hn. lia.
  - intros t Ht [Hht (Ht1&Ht2&Ht3)]%is_trigger_hours Hlt.
    apply lt_spec in Hlt. apply le_spec.
    repeat case_ltb; simpl; try lia.
    assert (Hdate : year now < year t \/ (year now = year t /\
              (month now < month t \/ (month now = month t /\ day now < day t))))
      by lia.
    pose proof (add_one_day_least now t Hv Ht Hdate) as Hn. cbv zeta in Hn.
    lia.
  - intros Hpassed.
    repeat case_ltb; try done;
      exfalso;
      [apply (Hpassed 6)|apply (Hpassed 12)|apply (Hpassed 16)|apply (Hpassed 20)];
      try (unfold SCHEDULE_HOURS; set_solver);
      apply lt_spec; simpl; lia.
  - intros H21. repeat case_ltb; done || lia.
  - intros H5. case_ltb; [done|lia].
  - intros Hy9.
    pose proof (add_one_day_valid now Hv Hy9) as (?&?&?&_).
    repeat case_ltb; unfold valid; simpl; lia.
Qed.

Lemma get_next_run_earliest_witness :
  is_trigger (get_next_run (mk_datetime 2024 2 29 21 0 0 0)) /\
  lt (mk_datetime 2024 2 29 21 0 0 0) (get_next_run (mk_datetime 2024 2 29 21 0 0 0)) /\
  (forall t, valid t -> is_trigger t -> lt (mk_datetime 2024 2 29 21 0 0 0) t ->
             le (get_next_run (mk_datetime 2024 2 29 21 0 0 0)) t) /\
  get_next_run (mk_datetime 2024 2 29 21 0 0 0) = mk_datetime 2024 3 1 6 0 0 0 /\
  valid (get_next_run (mk_datetime 2024 2 29 21 0 0 0)).
Proof.
  destruct (get_next_run_earliest (mk_datetime 2024 2 29 21 0 0 0))
    as (H1&H2&H3&_&H5&_&H7).
  { apply validb_valid. reflexivity. }
  split_and!; [exact H1|exact H2|exact H3|exact (H5 eq_refl)|exact (H7 eq_refl)].
Defined.

End NextRun.

Example next_run_at_21 :
  Scheduler.get_next_run (Clock.mk_datetime 2024 3 10 21 0 0 0)
  = Clock.mk_datetime 2024 3 11 6 0 0 0.
Proof. reflexivity. Qed.

Example next_run_at_5 :
  Scheduler.get_next_run (Clock.mk_datetime 2024 3 10 5 0 0 0)
  = Clock.mk_datetime 2024 3 10 6 0 0 0.
Proof. reflexivity. Qed.

Example next_run_on_the_hour :
  Scheduler.get_next_run (Clock.mk_datetime 2024 3 10 12 0 0 0)
  = Clock.mk_datetime 2024 3 10 16 0 0 0.
Proof. reflexivity. Qed.

Example next_run_month_end :
  Scheduler.get_next_run (Clock.mk_datetime 2024 2 29 20 0 0 1)
  = Clock.mk_datetime 2024 3 1 6 0 0 0.
Proof. reflexivity. Qed.


(** *** The candidate loop of [summarize_with_gemini] *)

Section CandidateLoop.
Import Py Curation Summarizer.

Variable generate_content : string -> string -> outcome (option string).
Variable json_loads : string -> outcome value.

Local Abbreviation attempt := (Summarizer.attempt generate_content json_loads).
Local Abbreviation try_models := (Summarizer.try_models generate_content json_loads).

Lemma try_models_rate_limited pre rest prompt :
  (forall x, x ∈ pre -> rate_limited (attempt x prompt)) ->
  try_models (pre ++ rest) prompt
  = ((try_models rest prompt).1, pre ++ (try_models rest prompt).2).
Proof.
  induction pre as [|m pre IH]; intros Hpre; simpl.
  - by destruct (try_models rest prompt).
  - destruct (Hpre m) as (e&->&->); [by left|].
    rewrite IH by (intros; apply Hpre; by right).
    done.
Qed.

Lemma try_models_prefix models prompt :
  (try_models models prompt).2 `prefix_of` models.
Proof.
  induction models as [|m models IH]; simpl; [done|].
  destruct (attempt m prompt) as [v|e]; simpl.
  - by apply prefix_cons, prefix_nil.
  - destruct (is_rate_limit e).
    + destruct (try_models models prompt). simpl in *. by apply prefix_cons.
    + by apply prefix_cons, prefix_nil.
Qed.

Lemma models_to_try_NoDup : NoDup models_to_try.
Proof. apply (bool_decide_unpack (NoDup models_to_try)). by vm_compute. Qed.

End CandidateLoop.

Section Orchestrator.
Import Py Curation Summarizer.

Variable genai_Client : string -> outcome client.
Variable generate_content : string -> string -> outcome (option string).
Variable json_loads : string -> outcome value.
Variable prompt_template : string -> string.

Local Abbreviation attempt := (Summarizer.attempt generate_content json_loads).
Local Abbreviation try_models := (Summarizer.try_models generate_content json_loads).
Local Abbreviation summarize_with_gemini :=
  (Summarizer.summarize_with_gemini genai_Client json_loads prompt_template).
Local Abbreviation prompt_news := (Summarizer.prompt_news prompt_template).

Lemma summarize_invoked key articles :
  (summarize_with_gemini key articles).2 `prefix_of` models_to_try.
Proof.
  unfold Summarizer.summarize_with_gemini.
  destruct (String.eqb key EmptyString); [apply prefix_nil|].
  destruct (genai_Client key) as [gc|err_str]; [|apply prefix_nil].
  pose proof (try_models_prefix gc json_loads models_to_try
                (prompt_news articles)) as Hp.
  by destruct (Summarizer.try_models _ _ _ _) as [[v|] tr].
Qed.

(** The fallback keeps the first 50 characters of a summary. *)
Lemma slice_to_len n s : Text.len (Text.slice_to n s) = Nat.min n (Text.len s).
Proof.
  revert n. induction s as [|c s IH]; intros n; cbn [Text.slice_to Text.len].
  - by destruct n.
  - destruct (Text.is_cont c) eqn:E.
    + cbn [Text.len]. rewrite E. apply IH.
    + destruct n as [|n]; [done|]. cbn [Text.len]. rewrite E, IH. done.
Qed.

Lemma slice_to_prefix n s : exists rest, s = Text.slice_to n s +:+ rest.
Proof.
  revert n. induction s as [|c s IH]; intros n; cbn [Text.slice_to].
  - by exists EmptyString.
  - destruct (Text.is_cont c).
    + destruct (IH n) as [rest Hrest]. exists rest.
      rewrite append_cons. by rewrite <- Hrest.
    + destruct n as [|n]; [by exists (String c s)|].
      destruct (IH n) as [rest Hrest]. exists rest.
      rewrite append_cons. by rewrite <- Hrest.
Qed.

(** C4. With a backend configured and its client constructed, the
    candidates are invoked in the order of [models_to_try], each at most
    once. When the candidates in front of
    one all failed with a rate or quota signature, that one is invoked; if
    it yields a parsed result, that result is returned and no later
    candidate is invoked; if it fails without such a signature, the loop
    stops there, no later candidate is invoked and the fallback is returned.
    When all candidates fail with the signature, all are invoked and the
    fallback is returned. *)
Theorem candidates_in_priority_order key articles :
  key <> EmptyString ->
  genai_Client key = Returns generate_content ->
  ((summarize_with_gemini key articles).2 `prefix_of` models_to_try /\
   NoDup (summarize_with_gemini key articles).2) /\
  (forall pre m post,
     models_to_try = pre ++ m :: post ->
     (forall x, x ∈ pre -> rate_limited (attempt x (prompt_news articles))) ->
     (forall result,
        attempt m (prompt_news articles) = Returns result ->
        summarize_with_gemini key articles = (Returns result, pre ++ [m])) /\
     (forall err_str,
        attempt m (prompt_news articles) = Raises err_str ->
        is_rate_limit err_str = false ->
        summarize_with_gemini key articles
        = (Returns (_dummy_summary articles), pre ++ [m]))) /\
  ((forall x, x ∈ models_to_try -> rate_limited (attempt x (prompt_news articles))) ->
   summarize_with_gemini key articles
   = (Returns (_dummy_summary articles), models_to_try)).
Proof.
  intros Hkey Hclient.
  assert (Hk : String.eqb key EmptyString = false) by by apply String.eqb_neq.
  split_and!.
  - apply summarize_invoked.
  - destruct (summarize_invoked key articles) as [k Hk'].
    pose proof models_to_try_NoDup as Hnd. rewrite Hk' in Hnd.
    by apply NoDup_app in Hnd as (?&_).
  - intros pre m post Hm Hpre. unfold Summarizer.summarize_with_gemini.
    rewrite Hk, Hclient, Hm, try_models_rate_limited by done.
    split; [intros result Ha|intros err_str Ha Hrl]; simpl; rewrite Ha; simpl.
    + done.
    + by rewrite Hrl.
  - intros Hall. unfold Summarizer.summarize_with_gemini. rewrite Hk, Hclient.
    rewrite <- (app_nil_r models_to_try) at 1.
    rewrite try_models_rate_limited by done. cbn [Summarizer.try_models fst snd].
    by rewrite app_nil_r.
Qed.

Lemma dummy_top_articles_length i top :
  length (dummy_top_articles i top) = length top.
Proof. revert i. induction top as [|a top IH]; intros i; simpl; [done|]. by rewrite IH. Qed.

Lemma dummy_top_articles_lookup i top k art :
  top !! k = Some art ->
  dummy_top_articles i top !! k = Some (dummy_entry (i + Z.of_nat k) art).
Proof.
  revert i k. induction top as [|a top IH]; intros i k; [by rewrite lookup_nil|].
  destruct k as [|k]; simpl.
  - intros [= ->]. by rewrite Z.add_0_r.
  - intros Hk. rewrite (IH _ _ Hk). do 2 f_equal. lia.
Qed.

(** C5 (amended). Without an API key [summarize_with_gemini] returns the
    fallback and invokes no backend; once the client is constructed, it
    returns the fallback when the candidate loop ends without a result
    (aborted or exhausted); and in both situations it returns a value, no
    exception leaves it. The fallback holds the fixed placeholder texts and
    one entry for each of the first [min 10 (length articles)] ranked
    articles, in order: rank [i + 1] for position [i], the article's title,
    source and url, and as point the truncated summary, namely its first
    [min 50 (len summary)] characters, followed by an ellipsis. *)
Theorem fallback_summary key articles :
  summarize_with_gemini EmptyString articles
  = (Returns (_dummy_summary articles), []) /\
  (genai_Client key = Returns generate_content ->
   (try_models models_to_try (prompt_news articles)).1 = None ->
   (summarize_with_gemini key articles).1 = Returns (_dummy_summary articles)) /\
  (key = EmptyString \/ genai_Client key = Returns generate_content ->
   exists result, (summarize_with_gemini key articles).1 = Returns result) /\
  (exists top_articles,
     _dummy_summary articles
     = VDict [ ("news_summary", VStr dummy_news_summary);
               ("opinion_summary", VStr dummy_opinion_summary);
               ("sentiment", VDict [ ("positive", VStr dummy_sentiment);
                                     ("negative", VStr dummy_sentiment);
                                     ("neutral", VStr dummy_sentiment) ]);
               ("top_articles", VList top_articles);
               ("joho_picks", VList []) ] /\
     length top_articles = Nat.min 10 (length articles) /\
     (forall i art,
        (i < 10)%nat -> articles !! i = Some art ->
        top_articles !! i = Some (dummy_entry (Z.of_nat i + 1) art))) /\
  (forall i art,
     exists cut rest,
       dummy_entry i art
       = VDict [ ("rank", VInt i);
                 ("title", VStr (title art));
                 ("source", VStr (source art));
                 ("url", VStr (url art));
                 ("point", VStr (cut +:+ "...")) ] /\
       summary art = cut +:+ rest /\
       Text.len cut = Nat.min 50 (Text.len (summary art))).
Proof.
  split_and!.
  - done.
  - intros Hclient. unfold Summarizer.summarize_with_gemini.
    destruct (String.eqb key EmptyString); [done|]. rewrite Hclient.
    destruct (Summarizer.try_models _ _ _ _) as [[v|] tr]; [done|done].
  - intros Hcase. unfold Summarizer.summarize_with_gemini.
    destruct (String.eqb_spec key EmptyString) as [Hk|Hk]; [by eexists|].
    destruct Hcase as [?|Hclient]; [done|]. rewrite Hclient.
    destruct (Summarizer.try_models _ _ _ _) as [[v|] tr]; by eexists.
  - exists (dummy_top_articles 1 (take 10 articles)). split_and!.
    + done.
    + by rewrite dummy_top_articles_length, length_take.
    + intros i art Hi Hart.
      rewrite (dummy_top_articles_lookup 1 _ i art) by by rewrite lookup_take_lt.
      do 2 f_equal. lia.
  - intros i art. destruct (slice_to_prefix 50 (summary art)) as [rest Hrest].
    exists (Text.slice_to 50 (summary art)), rest. split_and!.
    + done.
    + done.
    + apply slice_to_len.
Qed.

End Orchestrator.

Lemma candidates_in_priority_order_witness :
  Summarizer.summarize_with_gemini
    (Samples.client_of Samples.backend_quota_then_ok)
    Samples.json_loads Samples.prompt_template "key" Samples.ranked
  = (Py.Returns (Py.VDict []), ["gemini-2.0-flash"; "gemini-2.0-flash-lite"]) /\
  Summarizer.summarize_with_gemini (Samples.client_of Samples.backend_broken)
    Samples.json_loads Samples.prompt_template "key" Samples.ranked
  = (Py.Returns (Summarizer._dummy_summary Samples.ranked), ["gemini-2.0-flash"]) /\
  Summarizer.summarize_with_gemini (Samples.client_of Samples.backend_exhausted)
    Samples.json_loads Samples.prompt_template "key" Samples.ranked
  = (Py.Returns (Summarizer._dummy_summary Samples.ranked), Summarizer.models_to_try).
Proof.
  assert (Hkey : "key" <> EmptyString) by discriminate.
  split_and!.
  - destruct (candidates_in_priority_order
                (Samples.client_of Samples.backend_quota_then_ok)
                Samples.backend_quota_then_ok
                Samples.json_loads Samples.prompt_template "key" Samples.ranked
                Hkey eq_refl)
      as (_&Hstep&_).
    destruct (Hstep ["gemini-2.0-flash"] "gemini-2.0-flash-lite"
                ["gemini-2.5-flash"; "gemini-flash-lite-latest"] eq_refl)
      as [Hok _].
    { intros x ->%list_elem_of_singleton. exists "429 RESOURCE_EXHAUSTED".
      split; vm_compute; reflexivity. }
    apply Hok. vm_compute. reflexivity.
  - destruct (candidates_in_priority_order
                (Samples.client_of Samples.backend_broken) Samples.backend_broken
                Samples.json_loads Samples.prompt_template "key" Samples.ranked
                Hkey eq_refl)
      as (_&Hstep&_).
    destruct (Hstep [] "gemini-2.0-flash"
                ["gemini-2.0-flash-lite"; "gemini-2.5-flash";
                 "gemini-flash-lite-latest"] eq_refl)
      as [_ Herr].
    { by intros x ?%elem_of_nil. }
    apply (Herr "500 INTERNAL"); vm_compute; reflexivity.
  - destruct (candidates_in_priority_order
                (Samples.client_of Samples.backend_exhausted)
                Samples.backend_exhausted
                Samples.json_loads Samples.prompt_template "key" Samples.ranked
                Hkey eq_refl)
      as (_&_&Hall).
    apply Hall. intros x _. exists "You exceeded your current quota".
    split; vm_compute; reflexivity.
Defined.

Lemma fallback_summary_witness :
  (Summarizer.summarize_with_gemini (Samples.client_of Samples.backend_broken)
     Samples.json_loads Samples.prompt_template "key" Samples.ranked).1
  = Py.Returns (Summarizer._dummy_summary Samples.ranked) /\
  (exists result,
     (Summarizer.summarize_with_gemini (Samples.client_of Samples.backend_broken)
        Samples.json_loads Samples.prompt_template "key" Samples.ranked).1
     = Py.Returns result) /\
  Summarizer.dummy_entry 1 (Curation.make_article "Wired" Samples.e_long)
  = Py.VDict [ ("rank", Py.VInt 1);
               ("title", Py.VStr "新製品");
               ("source", Py.VStr "Wired");
               ("url", Py.VStr "https://example.org/e");
               ("point", Py.VStr (Nat.iter 50 (String.append "あ") "...")) ].
Proof.
  destruct (fallback_summary (Samples.client_of Samples.backend_broken)
              Samples.backend_broken Samples.json_loads Samples.prompt_template
              "key" Samples.ranked) as (_&Hloop&Hreturns&_).
  split_and!.
  - apply Hloop; vm_compute; reflexivity.
  - apply Hreturns. right. reflexivity.
  - vm_compute. reflexivity.
Defined.

(** Summarisation can raise: the constructor of the client is called
    outside the [try], and when it raises, [summarize_with_gemini] raises. *)
Lemma summarization_can_raise :
  Summarizer.summarize_with_gemini Samples.client_refused Samples.json_loads
    Samples.prompt_template "key" Samples.ranked
  = (Py.Raises "Unsupported client configuration", []) /\
  ~ (forall genai_Client json_loads prompt_template key articles,
       exists result,
         (Summarizer.summarize_with_gemini genai_Client json_loads
            prompt_template key articles).1 = Py.Returns result).
Proof.
  split; [reflexivity|].
  intros Hnever.
  destruct (Hnever Samples.client_refused Samples.json_loads
              Samples.prompt_template "key" Samples.ranked) as [result Hr].
  vm_compute in Hr. discriminate Hr.
Qed.

Example dummy_summary_three :
  exists tops,
    Summarizer._dummy_summary Samples.ranked
    = Py.VDict [ ("news_summary", Py.VStr Summarizer.dummy_news_summary);
                 ("opinion_summary", Py.VStr Summarizer.dummy_opinion_summary);
                 ("sentiment",
                  Py.VDict [ ("positive", Py.VStr Summarizer.dummy_sentiment);
                             ("negative", Py.VStr Summarizer.dummy_sentiment);
                             ("neutral", Py.VStr Summarizer.dummy_sentiment) ]);
                 ("top_articles", Py.VList tops);
                 ("joho_picks", Py.VList []) ] /\
    length tops = 3%nat.
Proof. eexists. split; reflexivity. Qed.

(** *** Extraction of the JSON text from a response *)

Section Extraction.
Import Text Regex Py Summarizer.

Lemma append_nil_l (s : string) : EmptyString +:+ s = s.
Proof. reflexivity. Qed.

Ltac app_simpl :=
  rewrite ?append_cons, ?append_nil_l;
  cbn [mem_char after_first_open upto_last_close String.length].

Lemma append_nil_r (s : string) : s +:+ EmptyString = s.
Proof. induction s as [|c s IH]; app_simpl; [done|]. by rewrite IH. Qed.

Lemma append_assoc (a b c : string) : (a +:+ b) +:+ c = a +:+ (b +:+ c).
Proof. induction a as [|x a IH]; app_simpl; [done|]. by rewrite IH. Qed.

Lemma mem_char_app (c : ascii) (a b : string) :
  mem_char c (a +:+ b) = mem_char c a || mem_char c b.
Proof.
  induction a as [|x a IH]; app_simpl; [done|]. rewrite IH. by rewrite orb_assoc.
Qed.

Lemma upto_last_close_none (s : string) :
  mem_char "}" s = false -> upto_last_close s = None.
Proof.
  induction s as [|c s IH]; app_simpl; [done|].
  intros [Hc Hs]%orb_false_iff. rewrite (IH Hs).
  by rewrite Ascii.eqb_sym, Hc.
Qed.

Lemma after_first_open_app (pre rest : string) :
  mem_char "{" pre = false ->
  after_first_open (pre +:+ String "{" rest) = Some rest.
Proof.
  induction pre as [|c pre IH]; app_simpl.
  { by rewrite Ascii.eqb_refl. }
  intros [Hc Hs]%orb_false_iff. rewrite Ascii.eqb_sym, Hc. by apply IH.
Qed.

Lemma upto_last_close_app (mid post : string) :
  mem_char "}" post = false ->
  upto_last_close (mid +:+ String "}" post) = Some (mid +:+ "}").
Proof.
  intros Hpost. induction mid as [|c mid IH]; app_simpl.
  - by rewrite (upto_last_close_none post Hpost).
  - by rewrite IH.
Qed.

Lemma close_absent (s : string) :
  upto_last_close s = None -> mem_char "}" s = false.
Proof.
  induction s as [|d s IH]; app_simpl; [done|].
  destruct (upto_last_close s); [done|].
  destruct (Ascii.eqb_spec d "}") as [->|Hd]; [done|].
  intros _. rewrite IH, orb_false_r by done.
  apply Ascii.eqb_neq. congruence.
Qed.

Lemma after_first_open_inv (s rest : string) :
  after_first_open s = Some rest ->
  exists pre, s = pre +:+ String "{" rest /\ mem_char "{" pre = false.
Proof.
  induction s as [|c s IH]; app_simpl; [done|].
  destruct (Ascii.eqb_spec c "{") as [->|Hc].
  - intros [= ->]. by exists EmptyString.
  - intros (pre&->&Hpre)%IH. exists (String c pre). split; [done|].
    app_simpl. rewrite Hpre, orb_false_r. apply Ascii.eqb_neq. congruence.
Qed.

Lemma upto_last_close_inv (s p : string) :
  upto_last_close s = Some p ->
  exists mid post,
    p = mid +:+ "}" /\ s = mid +:+ String "}" post /\ mem_char "}" post = false.
Proof.
  revert p. induction s as [|c s IH]; intros p; app_simpl; [done|].
  destruct (upto_last_close s) as [q|] eqn:Hq.
  - intros [= <-]. destruct (IH q eq_refl) as (mid&post&->&->&Hpost).
    by exists (String c mid), post.
  - destruct (Ascii.eqb_spec c "}") as [->|Hc]; [|done].
    intros [= <-]. exists EmptyString, s. split_and!; [done|done|].
    by apply close_absent.
Qed.

(** The match of [search_braces] runs from the first opening brace of the
    text to its last closing brace. *)
Lemma search_braces_spec (s span : string) :
  search_braces s = Some span <->
  exists pre mid post,
    s = pre +:+ String "{" (mid +:+ String "}" post) /\
    span = String "{" (mid +:+ "}") /\
    mem_char "{" pre = false /\ mem_char "}" post = false.
Proof.
  unfold search_braces. split.
  - destruct (after_first_open s) as [rest|] eqn:Hr; [|done].
    destruct (upto_last_close rest) as [p|] eqn:Hp; [|done].
    intros [= <-].
    apply after_first_open_inv in Hr as (pre&->&Hpre).
    apply upto_last_close_inv in Hp as (mid&post&->&->&Hpost).
    by exists pre, mid, post.
  - intros (pre&mid&post&->&->&Hpre&Hpost).
    by rewrite after_first_open_app, upto_last_close_app.
Qed.

Lemma space_width_brace (r : string) : space_width (String "{" r) = 0%nat.
Proof. destruct r as [|b [|c r]]; reflexivity. Qed.

Lemma is_space2_brace (a : ascii) : is_space2 a "{" = false.
Proof. unfold is_space2. destruct (_ =? 194)%nat; reflexivity. Qed.

Lemma is_space3_brace_mid (a c : ascii) : is_space3 a "{" c = false.
Proof.
  unfold is_space3.
  destruct (nat_of_ascii a =? 225)%nat, (nat_of_ascii a =? 226)%nat,
    (nat_of_ascii a =? 227)%nat; reflexivity.
Qed.

Lemma is_space3_brace (a b : ascii) : is_space3 a b "{" = false.
Proof.
  unfold is_space3.
  destruct (nat_of_ascii a =? 225)%nat, (nat_of_ascii a =? 226)%nat,
    (nat_of_ascii a =? 227)%nat, (nat_of_ascii b =? 154)%nat,
    (nat_of_ascii b =? 128)%nat, (nat_of_ascii b =? 129)%nat; reflexivity.
Qed.

(** A white-space character in front of an opening brace ends before it. *)
Lemma space_width_before_brace (pre r : string) :
  (space_width (pre +:+ String "{" r) <= String.length pre)%nat.
Proof.
  destruct pre as [|a [|b [|c pre]]]; rewrite ?append_cons, ?append_nil_l.
  - by rewrite space_width_brace.
  - cbn [space_width String.length]. destruct (is_space a); [lia|].
    rewrite is_space2_brace. destruct r; [lia|].
    rewrite is_space3_brace_mid. lia.
  - cbn [space_width String.length]. destruct (is_space a); [lia|].
    destruct (is_space2 a b); [lia|].
    rewrite is_space3_brace. lia.
  - cbn [space_width String.length]. destruct (is_space a); [lia|].
    destruct (is_space2 a b); [lia|].
    destruct (is_space3 a b c); lia.
Qed.

(** A marker found in front of a character it does not hold ends before
    that character. *)
Lemma strip_prefix_before (m p r : string) (x : ascii) :
  mem_char x m = false ->
  strip_prefix m (p +:+ String x r) <> None ->
  strip_prefix m p <> None /\ (String.length m <= String.length p)%nat.
Proof.
  revert p. induction m as [|a m IH]; intros p Hm Hs.
  { split; [by destruct p|simpl; lia]. }
  apply orb_false_iff in Hm as [Ha Hm].
  destruct p as [|c p]; rewrite ?append_cons, ?append_nil_l in Hs; cbn [strip_prefix] in *.
  - rewrite Ascii.eqb_sym, Ha in Hs. done.
  - destruct (Ascii.eqb a c); [|done].
    destruct (IH p Hm Hs) as [? ?]. split; [done|]. cbn [String.length]. lia.
Qed.

Lemma starts_with_before (m p r : string) (x : ascii) :
  mem_char x m = false ->
  starts_with m (p +:+ String x r) = true ->
  starts_with m p = true /\ (String.length m <= String.length p)%nat.
Proof.
  unfold starts_with. intros Hm Hs.
  destruct (strip_prefix_before m p r x Hm) as [Hp Hl].
  { by destruct (strip_prefix m (p +:+ String x r)). }
  split; [|done]. by destruct (strip_prefix m p).
Qed.

Lemma strip_prefix_app (m p r : string) :
  strip_prefix m p <> None -> strip_prefix m (p +:+ r) <> None.
Proof.
  revert p. induction m as [|a m IH]; intros p; [done|].
  destruct p as [|c p]; [done|]. rewrite append_cons. cbn [strip_prefix].
  destruct (Ascii.eqb a c); [apply IH|done].
Qed.

Lemma starts_with_extend (m p r : string) :
  starts_with m p = true -> starts_with m (p +:+ r) = true.
Proof.
  unfold starts_with. intros Hp.
  pose proof (strip_prefix_app m p r) as H.
  destruct (strip_prefix m p); [|done].
  by destruct (strip_prefix m (p +:+ r)); [|destruct H].
Qed.

Lemma sub_marker_keeps_absent (marker : string) (c : ascii) (s : string) :
  mem_char c s = false ->
  forall k b, mem_char c (sub_marker marker k b s) = false.
Proof.
  induction s as [|d s IH]; [done|].
  intros [Hd Hs]%orb_false_iff k b. cbn [sub_marker].
  destruct k; [|by apply IH].
  destruct (b && _); [by apply IH|].
  destruct (starts_with marker (String d s)); [by apply IH|].
  cbn [mem_char]. by rewrite Hd, IH.
Qed.

(** A text that holds no marker is left as it is. *)
Lemma sub_marker_absent (marker s : string) :
  contains marker s = false -> sub_marker marker 0 false s = s.
Proof.
  induction s as [|c s IH]; [done|].
  cbn [contains sub_marker andb]. intros [Hs Hc]%orb_false_iff.
  rewrite Hs. by rewrite IH.
Qed.

(** The text in front of the first opening brace: whatever is dropped there
    ends before the brace. *)
Lemma sub_marker_front (marker pre r : string) :
  mem_char "{" marker = false ->
  mem_char "{" pre = false ->
  forall k b,
    (k <= String.length pre)%nat ->
    exists pre' b',
      sub_marker marker k b (pre +:+ String "{" r)
      = pre' +:+ sub_marker marker 0 b' (String "{" r) /\
      mem_char "{" pre' = false.
Proof.
  intros Hm. induction pre as [|c pre IH]; intros Hpre k b Hk.
  { cbn [String.length] in Hk. assert (k = 0%nat) as -> by lia.
    by exists EmptyString, b. }
  apply orb_false_iff in Hpre as [Hc Hpre]. cbn [String.length] in Hk.
  rewrite append_cons. cbn [sub_marker].
  destruct k as [|k]; [|apply IH; [done|lia]].
  rewrite <- append_cons.
  destruct (b && _) eqn:Hws.
  { apply IH; [done|].
    pose proof (space_width_before_brace (String c pre) r) as Hw.
    cbn [String.length] in Hw. lia. }
  destruct (starts_with marker _) eqn:Hs.
  { apply IH; [done|].
    apply starts_with_before in Hs as [_ Hl]; [|done].
    cbn [String.length] in Hl. lia. }
  destruct (IH Hpre 0%nat false) as (pre'&b'&->&Hpre'); [lia|].
  exists (String c pre'), b'. split; [by rewrite append_cons|].
  cbn [mem_char]. by rewrite Hc, Hpre'.
Qed.

(** A stretch without marker that ends with a closing brace goes through. *)
Lemma sub_marker_body (marker t post : string) :
  marker <> EmptyString ->
  mem_char "}" marker = false ->
  contains marker (t +:+ "}") = false ->
  sub_marker marker 0 false (t +:+ String "}" post)
  = t +:+ String "}" (sub_marker marker 0 false post).
Proof.
  intros Hne Hm. induction t as [|c t IH]; rewrite ?append_cons, ?append_nil_l.
  - intros _. cbn [sub_marker andb].
    destruct (starts_with marker (String "}" post)) eqn:Hs; [|done].
    destruct marker as [|a m]; [done|].
    apply orb_false_iff in Hm as [Ha _]. unfold starts_with in Hs.
    cbn [strip_prefix] in Hs. by rewrite Ascii.eqb_sym, Ha in Hs.
  - cbn [contains]. intros [Hs Hc]%orb_false_iff.
    cbn [sub_marker andb].
    destruct (starts_with marker (String c (t +:+ String "}" post))) eqn:Hs'.
    { rewrite <- append_cons in Hs'.
      apply starts_with_before in Hs' as [Hs' _]; [|done].
      apply (starts_with_extend _ _ "}") in Hs'. rewrite append_cons in Hs'.
      congruence. }
    by rewrite IH.
Qed.

(** One pass over a response: an object without marker is kept, the text
    in front of it gains no opening brace and the text behind it no
    closing brace. *)
Lemma sub_marker_object (marker pre mid post : string) (b : bool) :
  marker <> EmptyString ->
  mem_char "{" marker = false -> mem_char "}" marker = false ->
  contains marker (String "{" (mid +:+ "}")) = false ->
  mem_char "{" pre = false -> mem_char "}" post = false ->
  exists pre' post',
    sub_marker marker 0 b (pre +:+ String "{" (mid +:+ String "}" post))
    = pre' +:+ String "{" (mid +:+ String "}" post') /\
    mem_char "{" pre' = false /\ mem_char "}" post' = false.
Proof.
  intros Hne Hopen Hclose Hbody Hpre Hpost.
  destruct (sub_marker_front marker pre (mid +:+ String "}" post) Hopen Hpre
              0%nat b) as (pre'&b'&->&Hpre'); [lia|].
  exists pre', (sub_marker marker 0 false post). split_and!; [|done|].
  - f_equal. cbn [sub_marker]. rewrite space_width_brace, andb_false_r.
    cbn [contains] in Hbody. apply orb_false_iff in Hbody as [Hs Hc].
    destruct (starts_with marker (String "{" (mid +:+ String "}" post))) eqn:Hs'.
    { change (String "{" (mid +:+ String "}" post))
        with (String "{" mid +:+ String "}" post) in Hs'.
      apply starts_with_before in Hs' as [Hs' _]; [|done].
      apply (starts_with_extend _ _ "}") in Hs'. rewrite append_cons in Hs'.
      congruence. }
    f_equal. by apply sub_marker_body.
  - by apply sub_marker_keeps_absent.
Qed.

Lemma starts_with_longer (m x s : string) :
  starts_with (m +:+ x) s = true -> starts_with m s = true.
Proof.
  unfold starts_with. revert s. induction m as [|a m IH]; intros s; [done|].
  rewrite append_cons. destruct s as [|c s]; [done|]. cbn [strip_prefix].
  destruct (Ascii.eqb a c); [apply IH|done].
Qed.

Lemma contains_longer (m x s : string) :
  contains m s = false -> contains (m +:+ x) s = false.
Proof.
  induction s as [|c s IH]; cbn [contains].
  - intros [Hs _]%orb_false_iff. rewrite orb_false_r.
    destruct (starts_with (m +:+ x) EmptyString) eqn:E; [|done].
    apply starts_with_longer in E. congruence.
  - intros [Hs Hc]%orb_false_iff. rewrite IH, orb_false_r by done.
    destruct (starts_with (m +:+ x) (String c s)) eqn:E; [|done].
    apply starts_with_longer in E. congruence.
Qed.

(** Both passes leave an object without fence marker in place. *)
Lemma strip_fences_object (pre mid post : string) :
  contains "```" (String "{" (mid +:+ "}")) = false ->
  mem_char "{" pre = false -> mem_char "}" post = false ->
  exists pre' post',
    strip_fences (pre +:+ String "{" (mid +:+ String "}" post))
    = pre' +:+ String "{" (mid +:+ String "}" post') /\
    mem_char "{" pre' = false /\ mem_char "}" post' = false.
Proof.
  intros Hbody Hpre Hpost. unfold strip_fences, sub_fence, sub_fence_json.
  destruct (sub_marker_object "```json" pre mid post false)
    as (pre1&post1&->&Hpre1&Hpost1); [done|done|done| |done|done|].
  { by apply (contains_longer "```" "json"). }
  by apply sub_marker_object.
Qed.

(** A text that holds no fence marker is left as it is. *)
Lemma strip_fences_absent (s : string) :
  contains "```" s = false -> strip_fences s = s.
Proof.
  intros Hs. unfold strip_fences, sub_fence, sub_fence_json.
  rewrite (sub_marker_absent "```json") by by apply (contains_longer "```" "json").
  by apply sub_marker_absent.
Qed.

Lemma sub_fence_no_tick (s : string) :
  starts_with "`" s = false -> starts_with "`" (sub_marker "```" 0 false s) = false.
Proof.
  destruct s as [|c s]; [done|]. intros Hc. cbn [sub_marker andb].
  destruct (starts_with "```" (String c s)) eqn:Hs.
  { apply (starts_with_longer "`" "``") in Hs. congruence. }
  unfold starts_with in *. cbn [strip_prefix] in *.
  by destruct (Ascii.eqb "`" c).
Qed.

Lemma sub_fence_no_ticks (s : string) :
  starts_with "``" s = false -> starts_with "``" (sub_marker "```" 0 false s) = false.
Proof.
  destruct s as [|c s]; [done|]. intros Hc. cbn [sub_marker andb].
  destruct (starts_with "```" (String c s)) eqn:Hs.
  { apply (starts_with_longer "``" "`") in Hs. congruence. }
  unfold starts_with in *. cbn [strip_prefix] in *.
  destruct (Ascii.eqb "`" c); [|done].
  apply (sub_fence_no_tick s). unfold starts_with. exact Hc.
Qed.

(** After the second pass no fence marker is left. *)
Lemma sub_fence_removes_all (s : string) :
  forall k b, contains "```" (sub_marker "```" k b s) = false.
Proof.
  induction s as [|c s IH]; intros k b; [done|]. cbn [sub_marker].
  destruct k as [|k]; [|apply IH].
  destruct (b && _); [apply IH|].
  destruct (starts_with "```" (String c s)) eqn:Hs; [apply IH|].
  cbn [contains]. rewrite IH, orb_false_r.
  unfold starts_with in *. cbn [strip_prefix] in *.
  destruct (Ascii.eqb "`" c); [|done].
  apply (sub_fence_no_ticks s). unfold starts_with. exact Hs.
Qed.


Lemma sub_marker_skip (marker p rest : string) (b : bool) :
  sub_marker marker (String.length p) b (p +:+ rest) = sub_marker marker 0 b rest.
Proof. induction p as [|c p IH]; app_simpl; [done|]. apply IH. Qed.

(** The white space behind a marker ends where no white-space character
    begins. *)
Lemma sub_marker_ws_end (marker s : string) :
  space_width s = 0%nat -> sub_marker marker 0 true s = sub_marker marker 0 false s.
Proof. intros Hs. destruct s as [|c s]; [done|]. cbn [sub_marker]. by rewrite Hs. Qed.

(** An opening json fence and the white-space character behind it go. *)
Lemma strip_fences_opening (w rest : string) :
  w ∈ [nl; " "; "　"] -> space_width rest = 0%nat ->
  strip_fences ("```json" +:+ w +:+ rest) = strip_fences rest.
Proof.
  intros Hw Hrest. unfold strip_fences. f_equal. unfold sub_fence_json.
  change ("```json" +:+ w +:+ rest) with (String "`" ("``json" +:+ (w +:+ rest))).
  cbn [sub_marker andb]. change (starts_with _ _) with true. cbv iota.
  change (String.length "```json" - 1)%nat with (String.length "``json").
  rewrite sub_marker_skip.
  assert (Hskip : sub_marker "```json" 0 true (w +:+ rest)
                  = sub_marker "```json" 0 true rest).
  { repeat (apply elem_of_cons in Hw as [->|Hw]); [..|by apply elem_of_nil in Hw].
    - reflexivity.
    - reflexivity.
    - change ("　" +:+ rest) with (String "227" (String "128" (String "128" rest))).
      reflexivity. }
  rewrite Hskip. by apply sub_marker_ws_end.
Qed.

(** C6 (amended). The extraction step strips the fence markers and hands to
    the parser the span from the first opening brace to the last closing
    brace of what remains. Stripping leaves no fence marker, takes the white
    space behind an opening fence with it, and leaves a text without marker
    as it is. In particular, when the response holds an object (a text from
    an opening to a closing brace, free of fence markers) behind text
    without an opening brace, such as an opening fence, and in front of
    trailing text without a closing brace, the text handed to the parser is
    that object. *)
Theorem extraction_first_to_last_brace
    (generate_content : string -> string -> outcome (option string))
    (json_loads : string -> outcome value) (model_name prompt : string) :
  (forall text,
     generate_content model_name prompt = Returns (Some text) ->
     attempt generate_content json_loads model_name prompt
     = match search_braces (strip_fences text) with
       | Some group => json_loads group
       | None => Raises no_json_error
       end) /\
  (forall s span,
     search_braces s = Some span <->
     exists pre mid post,
       s = pre +:+ String "{" (mid +:+ String "}" post) /\
       span = String "{" (mid +:+ "}") /\
       mem_char "{" pre = false /\ mem_char "}" post = false) /\
  (forall text, contains "```" (strip_fences text) = false) /\
  (forall text, contains "```" text = false -> strip_fences text = text) /\
  (forall w rest,
     w ∈ [nl; " "; "　"] -> space_width rest = 0%nat ->
     strip_fences ("```json" +:+ w +:+ rest) = strip_fences rest) /\
  (forall pre mid post,
     contains "```" (String "{" (mid +:+ "}")) = false ->
     mem_char "{" pre = false ->
     mem_char "}" post = false ->
     generate_content model_name prompt
     = Returns (Some (pre +:+ String "{" (mid +:+ "}") +:+ post)) ->
     attempt generate_content json_loads model_name prompt
     = json_loads (String "{" (mid +:+ "}"))).
Proof.
  split_and!.
  - intros text Hg. unfold attempt. by rewrite Hg.
  - apply search_braces_spec.
  - intros text. apply sub_fence_removes_all.
  - apply strip_fences_absent.
  - apply strip_fences_opening.
  - intros pre mid post Hbody Hpre Hpost Hg. unfold attempt. rewrite Hg.
    rewrite append_cons, append_assoc, append_cons, append_nil_l.
    destruct (strip_fences_object pre mid post Hbody Hpre Hpost)
      as (pre'&post'&->&Hpre'&Hpost').
    rewrite (proj2 (search_braces_spec _ (String "{" (mid +:+ "}")))); [done|].
    by exists pre', mid, post'.
Qed.

End Extraction.

Lemma extraction_first_to_last_brace_witness :
  Summarizer.attempt Samples.backend_trailing_braces Samples.json_loads
    "gemini-2.0-flash" EmptyString
  = Samples.json_loads "{} and {more}" /\
  Summarizer.attempt (fun _ _ => Py.Returns (Some "Sure: {} and more"))
    Samples.json_loads "gemini-2.0-flash" EmptyString
  = Samples.json_loads "{}" /\
  Summarizer.attempt Samples.backend_quota_then_ok Samples.json_loads
    "gemini-2.0-flash-lite" EmptyString
  = Samples.json_loads "{}" /\
  Summarizer.strip_fences ("```json" +:+ "　" +:+ "{}") = "{}".
Proof.
  split_and!.
  - exact (proj1 (extraction_first_to_last_brace Samples.backend_trailing_braces
                   Samples.json_loads "gemini-2.0-flash" EmptyString)
             "{} and {more}" eq_refl).
  - destruct (extraction_first_to_last_brace
                (fun _ _ => Py.Returns (Some "Sure: {} and more"))
                Samples.json_loads "gemini-2.0-flash" EmptyString)
      as (_&_&_&_&_&Hobject).
    exact (Hobject "Sure: " EmptyString " and more" eq_refl eq_refl eq_refl eq_refl).
  - destruct (extraction_first_to_last_brace Samples.backend_quota_then_ok
                Samples.json_loads "gemini-2.0-flash-lite" EmptyString)
      as (_&_&_&_&_&Hobject).
    exact (Hobject ("```json" +:+ Py.nl) EmptyString (Py.nl +:+ "``` done")
             eq_refl eq_refl eq_refl eq_refl).
  - destruct (extraction_first_to_last_brace Samples.backend_quota_then_ok
                Samples.json_loads "gemini-2.0-flash-lite" EmptyString)
      as (_&_&_&Hkeep&Hopening&_).
    rewrite (Hopening "　" "{}"); [|set_solver|reflexivity].
    apply Hkeep. reflexivity.
Defined.

(** The response [{} and {more}] starts with a balanced object, yet the
    text handed to the parser is the whole response; the parser rejects it
    and the fallback is returned after one invocation. *)
Lemma extraction_not_first_balanced :
  Summarizer.first_balanced_object (Summarizer.strip_fences "{} and {more}")
  = Some "{}" /\
  Regex.search_braces (Summarizer.strip_fences "{} and {more}")
  = Some "{} and {more}" /\
  Regex.search_braces (Summarizer.strip_fences "{} and {more}")
  <> Summarizer.first_balanced_object (Summarizer.strip_fences "{} and {more}") /\
  Samples.json_loads "{}" = Py.Returns (Py.VDict []) /\
  Summarizer.summarize_with_gemini
    (Samples.client_of Samples.backend_trailing_braces)
    Samples.json_loads Samples.prompt_template "key" Samples.ranked
  = (Py.Returns (Summarizer._dummy_summary Samples.ranked), ["gemini-2.0-flash"]).
Proof.
  split_and!; [reflexivity|reflexivity|discriminate|reflexivity|].
  vm_compute. reflexivity.
Qed.

(** *** The snapshot store *)

Section StoreFacts.
Import Py Curation Store Text.

Variable json_dumps : value -> string.
Variable write_text : string -> string -> written.
Variable json_loads : string -> outcome value.

Lemma snapshot_not_latest (now : Clock.datetime) : snapshot_name now <> latest_name.
Proof. unfold snapshot_name. rewrite append_cons. discriminate. Qed.

(** C7 (amended). When [save_data] returns, it has written the snapshot of
    the run under the name that carries its minute stamp and has written
    [latest.json] whatever it held before; both files then hold the same
    text, the one serialisation of the run's data, and no other file of the
    directory has changed. It returns exactly when both writes complete;
    when the write of the snapshot raises, [latest.json] is not written. *)
Theorem save_data_latest_identical (fs : gmap string (option string))
    now slot_now summary articles :
  let text :=
    json_dumps
      (VDict [ ("timestamp", VStr (Clock.isoformat Clock.jst_offset now));
               ("time_slot", VStr (get_time_slot slot_now));
               ("summary", summary);
               ("raw_articles", VList (article_value <$> take 15 articles)) ]) in
  let after := save_data json_dumps write_text fs now slot_now summary articles in
  (forall path,
     after.2 = Returns path ->
     path = snapshot_name now /\
     after.1 !! snapshot_name now = Some (Some text) /\
     after.1 !! latest_name = Some (Some text) /\
     (forall name,
        name <> snapshot_name now -> name <> latest_name ->
        after.1 !! name = fs !! name)) /\
  ((exists path, after.2 = Returns path) <->
   write_text (snapshot_name now) text = Complete /\
   write_text latest_name text = Complete) /\
  (write_text (snapshot_name now) text <> Complete ->
   (exists err_str, after.2 = Raises err_str) /\
   after.1 !! latest_name = fs !! latest_name).
Proof.
  intros text after. subst after. unfold save_data, write_file. cbv zeta.
  fold (snapshot_name now). fold text.
  pose proof (snapshot_not_latest now) as Hne.
  destruct (write_text (snapshot_name now) text) as [|kept1 e1|e1] eqn:H1.
  - destruct (write_text latest_name text) as [|kept2 e2|e2] eqn:H2; cbn [fst snd].
    + split_and!.
      * intros path [= <-]. split_and!; [done| |by rewrite lookup_insert_eq|].
        { by rewrite lookup_insert_ne, lookup_insert_eq. }
        intros name Hn1 Hn2. by rewrite !lookup_insert_ne.
      * split; [done|]. intros _. by eexists.
      * done.
    + split_and!; [done| |done]. split; [by intros [path ?]|by intros [_ ?]].
    + split_and!; [done| |done]. split; [by intros [path ?]|by intros [_ ?]].
  - cbn [fst snd]. split_and!; [done| |].
    + split; [by intros [path ?]|by intros [? _]].
    + intros _. split; [by eexists|]. by rewrite lookup_insert_ne.
  - cbn [fst snd]. split_and!; [done| |].
    + split; [by intros [path ?]|by intros [? _]].
    + intros _. split; [by eexists|done].
Qed.

Lemma strip_prefix_spec (p s rest : string) :
  strip_prefix p s = Some rest <-> s = p +:+ rest.
Proof.
  revert s. induction p as [|a p IH]; intros s.
  - rewrite append_nil_l. cbn [strip_prefix]. split; [by intros [= ->]|by intros ->].
  - rewrite append_cons. destruct s as [|c s]; cbn [strip_prefix]; [done|].
    destruct (Ascii.eqb_spec a c) as [->|Hac].
    + rewrite IH. split; [by intros ->|by intros [= ->]].
    + split; [done|]. intros [= ? ?]. done.
Qed.

Lemma ends_with_spec (suffix s : string) :
  ends_with suffix s = true <-> exists stem, s = stem +:+ suffix.
Proof.
  induction s as [|c s IH]; cbn [ends_with].
  - rewrite orb_false_r, String.eqb_eq. split.
    + intros <-. by exists EmptyString.
    + intros [[|d stem] Hs]; [done|]. by rewrite append_cons in Hs.
  - rewrite orb_true_iff, String.eqb_eq, IH. split.
    + intros [<-|[stem ->]]; [by exists EmptyString|by exists (String c stem)].
    + intros [[|d stem] Hs]; [by left|].
      rewrite append_cons in Hs. injection Hs as -> ->. right. by exists stem.
Qed.

(** The names that match [news_*.json]. *)
Lemma glob_news_spec (name : string) :
  glob_news name = true <-> exists stem, name = "news_" +:+ stem +:+ ".json".
Proof.
  unfold glob_news. split.
  - destruct (strip_prefix "news_" name) as [rest|] eqn:Hp; [|done].
    apply strip_prefix_spec in Hp as ->.
    intros [stem ->]%ends_with_spec. by exists stem.
  - intros [stem ->].
    rewrite (proj2 (strip_prefix_spec "news_" _ (stem +:+ ".json")) eq_refl).
    apply ends_with_spec. by exists stem.
Qed.

Lemma read_files_omap (fs : gmap string (option string)) files history :
  read_files json_loads fs files history
  = history ++ omap (read_snapshot json_loads fs) files.
Proof.
  revert history. induction files as [|f files IH]; intros history; simpl.
  - by rewrite app_nil_r.
  - unfold read_snapshot at 1.
    destruct (fs !! f) as [[text|]|]; [|apply IH..].
    destruct (json_loads text); [|apply IH].
    rewrite IH. by rewrite <- app_assoc.
Qed.

Lemma omap_read_all (fs : gmap string (option string)) names vs :
  Forall2 (fun n v => read_snapshot json_loads fs n = Some v) names vs ->
  omap (read_snapshot json_loads fs) names = vs.
Proof.
  induction 1 as [|n v names vs Hn _ IH]; simpl; [done|].
  rewrite Hn. f_equal. exact IH.
Qed.

Lemma strictly_sorted (l : list string) :
  StronglySorted (PyList.key_ge id) l -> NoDup l ->
  StronglySorted (fun a b => str_lt b a) l.
Proof.
  induction 1 as [|a l Hs IH Ha]; intros Hnd; [constructor|].
  apply NoDup_cons in Hnd as [Hin Hnd]. constructor; [by apply IH|].
  rewrite Forall_forall in Ha |- *. intros b Hb.
  specialize (Ha b Hb). unfold PyList.key_ge, str_le, str_lt, str_compare in *. simpl in Ha.
  destruct (String.compare b a) eqn:E; [|done|done].
  apply String.compare_eq_iff in E. by subst.
Qed.

Lemma data_files_elem (fs : gmap string (option string)) n :
  n ∈ data_files fs <-> is_Some (fs !! n) /\ glob_news n = true.
Proof.
  unfold data_files. rewrite sort_desc_perm, list_elem_of_filter.
  rewrite elem_of_elements, elem_of_dom. split; intros [? ?]; by split.
Qed.

Lemma data_files_sorted (fs : gmap string (option string)) :
  StronglySorted (fun a b => str_lt b a) (data_files fs).
Proof.
  apply strictly_sorted; [apply sort_desc_sorted|].
  unfold data_files. rewrite sort_desc_perm.
  apply NoDup_filter, NoDup_elements.
Qed.

Lemma prefix_compare (p s t : string) :
  String.compare (p +:+ s) (p +:+ t) = String.compare s t.
Proof.
  induction p as [|c p IH]; [done|]. by rewrite !append_cons, compare_cons.
Qed.

(** File names sort as the minute stamps of the runs that wrote them. *)
Lemma snapshot_name_compare (t u : Clock.datetime) :
  Clock.valid t -> Clock.valid u ->
  String.compare (snapshot_name t) (snapshot_name u) = compare_minutes t u.
Proof.
  intros Ht%valid_bounds Hu%valid_bounds.
  destruct Ht as (?&?&?&?&?&?&?), Hu as (?&?&?&?&?&?&?).
  unfold snapshot_name, Clock.strftime_stamp, compare_minutes.
  rewrite prefix_compare, !append_assoc.
  rewrite digits4_compare by done.
  rewrite digits2_compare by done.
  rewrite digits2_compare, sep_compare by done.
  rewrite digits2_compare by done.
  rewrite digits2_compare, compare_refl by done.
  by rewrite lex_Eq_r.
Qed.

(** C8. [load_history] looks at the snapshot files, the files named
    [news_*.json] (every name [save_data] gives a snapshot is one, and
    [latest.json] is none), in descending order of their names, and at no
    more than the first twelve of them; these names order as the minute
    stamps of the runs that wrote them, so they are the twelve most recent
    snapshots, most recent first. The history is the list of the parsed
    contents of those files, in that order, a file that cannot be read or
    parsed being left out without ending the loop: when one of at most
    twelve files is corrupted, the history holds the contents of all the
    others, in order. *)
Theorem load_history_most_recent (fs : gmap string (option string)) :
  (StronglySorted (fun a b => str_lt b a) (data_files fs) /\
   forall n, n ∈ data_files fs <-> is_Some (fs !! n) /\ glob_news n = true) /\
  ((forall name,
      glob_news name = true <-> exists stem, name = "news_" +:+ stem +:+ ".json") /\
   (forall t, glob_news (snapshot_name t) = true) /\
   glob_news latest_name = false /\
   latest_name ∉ data_files fs) /\
  load_history json_loads fs
  = omap (read_snapshot json_loads fs) (take 12 (data_files fs)) /\
  (forall before bad after vs1 vs2,
     data_files fs = before ++ bad :: after ->
     (length (before ++ bad :: after) <= 12)%nat ->
     Forall2 (fun n v => read_snapshot json_loads fs n = Some v) before vs1 ->
     read_snapshot json_loads fs bad = None ->
     Forall2 (fun n v => read_snapshot json_loads fs n = Some v) after vs2 ->
     load_history json_loads fs = vs1 ++ vs2) /\
  (forall t u,
     Clock.valid t -> Clock.valid u ->
     1000 <= Clock.year t -> 1000 <= Clock.year u ->
     (str_lt (snapshot_name t) (snapshot_name u) <-> compare_minutes t u = Lt)).
Proof.
  assert (Hload : load_history json_loads fs
                  = omap (read_snapshot json_loads fs) (take 12 (data_files fs))).
  { unfold load_history. by rewrite read_files_omap. }
  split_and!.
  - apply data_files_sorted.
  - apply data_files_elem.
  - apply glob_news_spec.
  - intros t. apply glob_news_spec. by exists (Clock.strftime_stamp t).
  - reflexivity.
  - intros [_ Hg]%data_files_elem. vm_compute in Hg. discriminate Hg.
  - done.
  - intros before bad after vs1 vs2 Hfiles Hlen H1 Hbad H2.
    rewrite Hload, Hfiles, take_ge by done.
    rewrite omap_app, (omap_read_all _ _ _ H1).
    change (bad :: after) with ([bad] ++ after).
    rewrite omap_app, (omap_read_all _ _ _ H2). simpl. by rewrite Hbad.
  - intros t u Ht Hu _ _. unfold str_lt, str_compare.
    by rewrite snapshot_name_compare.
Qed.

End StoreFacts.

Lemma save_data_latest_identical_witness :
  let after :=
    Store.save_data Samples.json_dumps Samples.write_all Samples.twelve_files
      (Clock.mk_datetime 2024 3 11 6 0 0 0) (Clock.mk_datetime 2024 3 11 6 0 1 0)
      (Summarizer._dummy_summary Samples.ranked) Samples.ranked in
  after.2 = Py.Returns "news_20240311_0600.json" /\
  after.1 !! "news_20240311_0600.json" = after.1 !! "latest.json" /\
  after.1 !! "latest.json" = Some (Some "{2024-03-11T06:00:00+09:00}") /\
  after.1 !! "news_20240310_2000.json" = Some (Some "{12}").
Proof.
  intros after.
  destruct (save_data_latest_identical Samples.json_dumps Samples.write_all
              Samples.twelve_files
              (Clock.mk_datetime 2024 3 11 6 0 0 0) (Clock.mk_datetime 2024 3 11 6 0 1 0)
              (Summarizer._dummy_summary Samples.ranked) Samples.ranked)
    as (Hsame&Hreturns&_).
  destruct (proj2 Hreturns) as [path Hpath]; [by split|].
  destruct (Hsame path Hpath) as (->&Hsnap&Hlatest&Hother).
  split_and!.
  - exact Hpath.
  - change (after.1 !! "news_20240311_0600.json") with
      (after.1 !! Store.snapshot_name (Clock.mk_datetime 2024 3 11 6 0 0 0)).
    unfold after. rewrite Hsnap.
    change (@lookup string _ _ _ "latest.json") with
      (@lookup string (option string) (gmap string (option string)) _
         Store.latest_name).
    by rewrite Hlatest.
  - change (@lookup string _ _ _ "latest.json") with
      (@lookup string (option string) (gmap string (option string)) _
         Store.latest_name).
    unfold after. rewrite Hlatest. reflexivity.
  - unfold after.
    rewrite (Hother "news_20240310_2000.json"); [reflexivity|discriminate|discriminate].
Defined.

(** The two files can differ: in a directory where the dump of the
    snapshot stops part way, [save_data] raises, the snapshot holds what
    went out and [latest.json] still holds the text of the run before. *)
Lemma save_data_files_can_differ :
  let after :=
    Store.save_data Samples.json_dumps Samples.write_stops Samples.twelve_files
      (Clock.mk_datetime 2024 3 11 6 0 0 0) (Clock.mk_datetime 2024 3 11 6 0 1 0)
      (Summarizer._dummy_summary Samples.ranked) Samples.ranked in
  (exists err_str, after.2 = Py.Raises err_str) /\
  after.1 !! "news_20240311_0600.json" = Some (Some "{") /\
  after.1 !! "latest.json" = Some (Some "{12}") /\
  after.1 !! "news_20240311_0600.json" <> after.1 !! "latest.json".
Proof.
  intros after.
  assert (H1 : after.1 !! "news_20240311_0600.json" = Some (Some "{"))
    by reflexivity.
  assert (H2 : after.1 !! "latest.json" = Some (Some "{12}")) by reflexivity.
  split_and!; [by eexists|exact H1|exact H2|].
  rewrite H1, H2. discriminate.
Qed.

Lemma load_history_most_recent_witness :
  Store.load_history Samples.json_loads_tagged Samples.twelve_files
  = [ Py.VStr "{12}"; Py.VStr "{11}"; Py.VStr "{10}"; Py.VStr "{9}";
      Py.VStr "{8}"; Py.VStr "{7}" ]
    ++ [ Py.VStr "{5}"; Py.VStr "{4}"; Py.VStr "{3}"; Py.VStr "{2}";
         Py.VStr "{1}" ] /\
  (Text.str_lt (Store.snapshot_name (Clock.mk_datetime 2024 3 9 20 0 0 0))
               (Store.snapshot_name (Clock.mk_datetime 2024 3 10 6 0 0 0)) <->
   Store.compare_minutes (Clock.mk_datetime 2024 3 9 20 0 0 0)
                         (Clock.mk_datetime 2024 3 10 6 0 0 0) = Lt).
Proof.
  destruct (load_history_most_recent Samples.json_loads_tagged Samples.twelve_files)
    as (_&_&_&Hskip&Hname).
  split.
  - apply (Hskip
             [ "news_20240310_2000.json"; "news_20240310_1600.json";
               "news_20240310_1200.json"; "news_20240310_0600.json";
               "news_20240309_2000.json"; "news_20240309_1600.json" ]
             "news_20240309_1200.json"
             [ "news_20240309_0600.json"; "news_20240308_2000.json";
               "news_20240308_1600.json"; "news_20240308_1200.json";
               "news_20240308_0600.json" ]).
    + vm_compute. reflexivity.
    + simpl. lia.
    + repeat constructor.
    + vm_compute. reflexivity.
    + repeat constructor.
  - apply Hname; [by apply validb_valid..|simpl; lia|simpl; lia].
Defined.


(** *** Further runs of the model *)

(** The handler looks for the signature in the text of any exception: a
    parser message that names character 429 counts as a rate limit. *)
Example parse_error_naming_429 :
  Summarizer.is_rate_limit "Expecting ',' delimiter: line 4 column 29 (char 429)"
  = true.
Proof. reflexivity. Qed.

Example transport_error_is_not_rate_limit :
  Summarizer.is_rate_limit "503 UNAVAILABLE" = false.
Proof. reflexivity. Qed.

Example strip_tags_sample :
  Regex.strip_tags "<p>Hello <b>AI</b></p> a < b > c <> d <x"
  = "Hello AI a  c <> d <x".
Proof. reflexivity. Qed.

Example no_backend_invokes_nothing :
  (Summarizer.summarize_with_gemini
     (Samples.client_of Samples.backend_quota_then_ok)
     Samples.json_loads Samples.prompt_template EmptyString Samples.ranked).2
  = [].
Proof. reflexivity. Qed.

Example history_skips_latest :
  "latest.json" ∉ Store.data_files Samples.twelve_files.
Proof.
  intros H. vm_compute in H.
  repeat (apply elem_of_cons in H as [H|H]; [discriminate H|]).
  by apply elem_of_nil in H.
Qed.


(* ===================================================================== *)
(** * Further properties *)
(* ===================================================================== *)

(** *** Collection: caps, provenance, isolation of sources *)

Section CurationMore.
Import Curation Text.

Variable str_lower : string -> string.

Local Abbreviation is_ai_related := (Curation.is_ai_related str_lower).
Local Abbreviation scan_entries := (Curation.scan_entries str_lower).
Local Abbreviation collect := (Curation.collect str_lower).
Local Abbreviation feed_articles := (Curation.feed_articles str_lower).
Local Abbreviation collected := (Curation.collected str_lower).
Local Abbreviation fetch_articles := (Curation.fetch_articles str_lower).

Lemma scan_entries_bound n c m es k :
  Z.of_nat (length (scan_entries n c m es k [])) <= Z.max 0 (m - k).
Proof.
  revert k. induction es as [|e es IH]; intros k; simpl; [lia|].
  destruct (Z.leb_spec m k); [simpl; lia|].
  destruct (too_old _ _); [apply IH|].
  destruct (is_ai_related _ _); [|apply IH].
  rewrite scan_entries_app, length_app. simpl. specialize (IH (k + 1)). lia.
Qed.

Lemma scan_entries_sublist n c m es k :
  scan_entries n c m es k [] `sublist_of` (make_article n <$> es).
Proof.
  revert k. induction es as [|e es IH]; intros k; simpl; [done|].
  destruct (m <=? k); [apply sublist_nil_l|].
  destruct (too_old _ _); [by apply sublist_cons|].
  destruct (is_ai_related _ _); [|by apply sublist_cons].
  rewrite scan_entries_app. simpl. by apply sublist_skip.
Qed.

Lemma collect_length parse c m feeds :
  Z.of_nat (length (collect parse c m feeds [])) <= Z.of_nat (length feeds) * Z.max 0 m.
Proof.
  induction feeds as [|feed feeds IH]; [simpl; lia|].
  rewrite collect_cons, length_app. unfold feed_articles.
  destruct (parse feed.2) as [|es].
  - simpl length. lia.
  - pose proof (scan_entries_bound feed.1 c m es 0) as Hb.
    rewrite Z.sub_0_r in Hb. simpl length. lia.
Qed.

Lemma dedup_loop_sublist l seen : dedup_loop l seen [] `sublist_of` l.
Proof.
  revert seen. induction l as [|x l IH]; intros seen; [done|].
  rewrite dedup_loop_cons. destruct (decide _).
  - by apply sublist_cons.
  - by apply sublist_skip.
Qed.

(** X1. From one source [fetch_articles] accepts no more than
    [max_per_feed] entries, and it accepts them in feed order; hence a run
    returns no more articles than the number of sources times the cap. *)
Theorem per_feed_cap parse now cap feed :
  Z.of_nat (length (feed_articles parse (cutoff_of now) cap feed)) <= Z.max 0 cap /\
  match parse feed.2 with
  | FetchRaises => feed_articles parse (cutoff_of now) cap feed = []
  | Fetched entries =>
      feed_articles parse (cutoff_of now) cap feed
        `sublist_of` (make_article feed.1 <$> entries)
  end /\
  Z.of_nat (length (fetch_articles parse now cap))
  <= Z.of_nat (length RSS_FEEDS) * Z.max 0 cap.
Proof.
  split_and!.
  - unfold feed_articles. destruct (parse feed.2) as [|es]; [simpl; lia|].
    pose proof (scan_entries_bound feed.1 (cutoff_of now) cap es 0) as Hb.
    by rewrite Z.sub_0_r in Hb.
  - unfold feed_articles. destruct (parse feed.2) as [|es]; [done|].
    apply scan_entries_sublist.
  - unfold fetch_articles. cbv zeta. rewrite sort_desc_perm.
    pose proof (sublist_length _ _ (dedup_loop_sublist (collected parse now cap) ∅)).
    pose proof (collect_length parse (cutoff_of now) cap RSS_FEEDS).
    unfold collected in *. lia.
Qed.

(** X2. Every article [fetch_articles] returns is relevant (its title and
    cleaned summary match the keyword list), carries a summary of at most
    500 characters, the first 500 of the cleaned text of its entry or all of
    them when there are fewer, and names one of the configured sources. *)
Theorem returned_articles_well_formed parse now cap a :
  a ∈ fetch_articles parse now cap ->
  is_ai_related (title a) (summary a) = true /\
  (len (summary a) <= 500)%nat /\
  (exists n u es e rest,
     (n, u) ∈ RSS_FEEDS /\ parse u = Fetched es /\ e ∈ es /\ a = make_article n e /\
     Regex.strip_tags (default (default "" (e_description e)) (e_summary e))
     = summary a +:+ rest /\
     len (summary a)
     = Nat.min 500
         (len (Regex.strip_tags
                 (default (default "" (e_description e)) (e_summary e))))) /\
  source a ∈ RSS_FEEDS.*1.
Proof.
  intros Ha. apply fetch_articles_elem in Ha.
  pose proof (elem_of_sublist _ _ _ Ha (dedup_loop_sublist _ _)) as Hc.
  clear Ha. apply collect_elem in Hc as (n&u&es&e&Hf&Hp&He&->&_&Hrel).
  split_and!.
  - done.
  - cbn [summary make_article]. unfold entry_summary_clean.
    rewrite slice_to_len. lia.
  - destruct (slice_to_prefix 500
                (Regex.strip_tags
                   (default (default "" (e_description e)) (e_summary e))))
      as [rest Hrest].
    exists n, u, es, e, rest. split_and!; [done..| |].
    + exact Hrest.
    + apply slice_to_len.
  - change (source (make_article n e)) with ((n, u).1).
    by apply list_elem_of_fmap_2.
Qed.

Lemma collect_feeds_elem parse c m feeds a :
  a ∈ collect parse c m feeds [] <->
  exists feed, feed ∈ feeds /\ a ∈ feed_articles parse c m feed.
Proof.
  induction feeds as [|f feeds IH].
  - simpl. split; [by intros ?%elem_of_nil|]. by intros (?&?%elem_of_nil&_).
  - rewrite collect_cons, elem_of_app, IH. split.
    + intros [?|(feed&?&?)]; [exists f|exists feed]; split; try done;
        [by left|by right].
    + intros (feed&[->|?]%elem_of_cons&?); [by left|right; by exists feed].
Qed.

Lemma collect_sublist parse1 parse2 c m feeds :
  (forall u, parse2 u = parse1 u \/ parse2 u = FetchRaises) ->
  collect parse2 c m feeds [] `sublist_of` collect parse1 c m feeds [].
Proof.
  intros Hagree. induction feeds as [|f feeds IH]; [done|].
  rewrite !collect_cons. apply sublist_app; [|done].
  unfold feed_articles. destruct (Hagree f.2) as [->| ->]; [done|].
  apply sublist_nil_l.
Qed.

(** X3. A source whose fetch fails costs the run its own articles and
    nothing else: when the feeds answer as before except that some now
    fail, the collected list is the earlier one without the articles of the
    failing sources, in the same order; when every source fails the result
    is empty. *)
Theorem failed_sources_are_isolated parse1 parse2 now cap :
  (forall u, parse2 u = parse1 u \/ parse2 u = FetchRaises) ->
  collected parse2 now cap `sublist_of` collected parse1 now cap /\
  (forall a,
     a ∈ collected parse2 now cap <->
     exists feed, feed ∈ RSS_FEEDS /\ parse2 feed.2 <> FetchRaises /\
                  a ∈ feed_articles parse1 (cutoff_of now) cap feed) /\
  ((forall u, parse2 u = FetchRaises) -> fetch_articles parse2 now cap = []).
Proof.
  intros Hagree. split_and!.
  - by apply collect_sublist.
  - intros a. unfold collected. rewrite collect_feeds_elem. split.
    + intros (feed&Hf&Ha). exists feed. unfold feed_articles in *.
      destruct (Hagree feed.2) as [Hp|Hp]; rewrite Hp in Ha.
      * split_and!; [done| |done]. rewrite Hp. intros Hr. rewrite Hr in Ha.
        by apply elem_of_nil in Ha.
      * by apply elem_of_nil in Ha.
    + intros (feed&Hf&Hne&Ha). exists feed. split; [done|].
      unfold feed_articles in *. by destruct (Hagree feed.2) as [-> |?].
  - intros Hall. unfold fetch_articles, collected. cbv zeta.
    assert (Hnil : collect parse2 (cutoff_of now) cap RSS_FEEDS [] = []).
    { generalize RSS_FEEDS. intros feeds.
      induction feeds as [|[n u] feeds IH]; simpl; [done|]. by rewrite Hall. }
    by rewrite Hnil.
Qed.

End CurationMore.

Section CurationRuns.
Import Curation Text.

Local Abbreviation is_ai_related := (Curation.is_ai_related Text.lower).
Local Abbreviation feed_articles := (Curation.feed_articles Text.lower).
Local Abbreviation collected := (Curation.collected Text.lower).
Local Abbreviation fetch_articles := (Curation.fetch_articles Text.lower).

Lemma returned_articles_well_formed_witness :
  (is_ai_related "OpenAI ships a model" "GPT news" = true /\
   (len "GPT news" <= 500)%nat /\
   "VentureBeat" ∈ RSS_FEEDS.*1) /\
  (is_ai_related (title (make_article "Wired" Samples.e_long))
     (summary (make_article "Wired" Samples.e_long)) = true /\
   (len (summary (make_article "Wired" Samples.e_long)) <= 500)%nat /\
   len (summary (make_article "Wired" Samples.e_long)) = 183%nat /\
   String.length (summary (make_article "Wired" Samples.e_long)) = 543%nat).
Proof.
  split.
  - destruct (returned_articles_well_formed Text.lower Samples.parse
                Samples.now_utc 5 (make_article "VentureBeat" Samples.e_fresh))
      as (H1&H2&_&H4).
    { vm_compute. repeat constructor. }
    by split_and!.
  - destruct (returned_articles_well_formed Text.lower Samples.parse_long
                Samples.now_utc 5 (make_article "Wired" Samples.e_long))
      as (H1&H2&_&_).
    { vm_compute. repeat constructor. }
    split_and!; [exact H1|exact H2|reflexivity|reflexivity].
Defined.

Lemma failed_sources_are_isolated_witness :
  collected Samples.parse_wired_down Samples.now_utc 5
    `sublist_of` collected Samples.parse Samples.now_utc 5 /\
  (forall a,
     a ∈ collected Samples.parse_wired_down Samples.now_utc 5 <->
     exists feed, feed ∈ RSS_FEEDS /\
                  Samples.parse_wired_down feed.2 <> FetchRaises /\
                  a ∈ feed_articles Samples.parse (cutoff_of Samples.now_utc) 5 feed) /\
  ((forall u, Samples.parse_wired_down u = FetchRaises) ->
   fetch_articles Samples.parse_wired_down Samples.now_utc 5 = []).
Proof.
  apply (failed_sources_are_isolated Text.lower Samples.parse Samples.parse_wired_down).
  intros u. unfold Samples.parse_wired_down.
  destruct (String.eqb u "https://www.wired.com/feed/rss"); [by right|by left].
Defined.

End CurationRuns.

(** *** Ranking: stability; the duplicate filter *)

Section RankingMore.
Import Curation Text PyList.

Variable str_lower : string -> string.

Local Abbreviation is_ai_related := (Curation.is_ai_related str_lower).
Local Abbreviation scan_entries := (Curation.scan_entries str_lower).
Local Abbreviation collect := (Curation.collect str_lower).
Local Abbreviation feed_articles := (Curation.feed_articles str_lower).
Local Abbreviation collected := (Curation.collected str_lower).
Local Abbreviation fetch_articles := (Curation.fetch_articles str_lower).

Lemma str_leb_refl s : str_leb s s = true.
Proof. unfold str_leb, str_compare. by rewrite compare_refl. Qed.

Lemma insert_desc_filter {A} (key : A -> string) (k : string) a l :
  filter (fun x => key x = k) (insert_desc key a l)
  = filter (fun x => key x = k) (a :: l).
Proof.
  induction l as [|b l IH]; [done|]. simpl.
  destruct (str_leb (key b) (key a)) eqn:Hle; [done|].
  rewrite (filter_cons _ b), IH, !filter_cons.
  destruct (decide (key b = k)) as [Hb|Hb], (decide (key a = k)) as [Ha|Ha];
    try done.
  rewrite Hb, Ha, str_leb_refl in Hle. done.
Qed.

Lemma sort_desc_filter {A} (key : A -> string) (k : string) l :
  filter (fun x => key x = k) (sort_desc key l) = filter (fun x => key x = k) l.
Proof.
  induction l as [|a l IH]; [done|]. simpl.
  by rewrite insert_desc_filter, !filter_cons, IH.
Qed.

(** X4. The ranking is stable: the returned articles that share a sort
    key stand in the order in which they were collected. In particular the
    articles without a known instant keep their collection order at the
    tail. *)
Theorem ranking_is_stable parse now cap (k : string) :
  filter (fun a => pub_dt a = k) (fetch_articles parse now cap)
  = filter (fun a => pub_dt a = k) (dedup_loop (collected parse now cap) ∅ []).
Proof. unfold fetch_articles. cbv zeta. apply sort_desc_filter. Qed.

Lemma dedup_loop_fixed l seen :
  NoDup (url <$> l) -> (forall a, a ∈ l -> url a ∉ seen) ->
  dedup_loop l seen [] = l.
Proof.
  revert seen. induction l as [|x l IH]; intros seen Hnd Hseen; [done|].
  rewrite fmap_cons in Hnd. apply NoDup_cons in Hnd as [Hx Hnd].
  rewrite dedup_loop_cons. destruct (decide _) as [Hin|_].
  { destruct (Hseen x); [by left|done]. }
  f_equal. apply IH; [done|]. intros a Ha.
  apply not_elem_of_union. split; [|apply Hseen; by right].
  apply not_elem_of_singleton. intros Heq. apply Hx. rewrite <- Heq.
  by apply list_elem_of_fmap_2.
Qed.

(** X8. The duplicate filter loses no url and no order: the urls of the
    returned articles are exactly the urls of the collected ones, the
    filtered list is the collected list with elements left out, and
    filtering a second time changes nothing. *)
Theorem dedup_keeps_every_url parse now cap :
  (forall u, u ∈ url <$> fetch_articles parse now cap <->
             u ∈ url <$> collected parse now cap) /\
  dedup_loop (collected parse now cap) ∅ [] `sublist_of` collected parse now cap /\
  dedup_loop (dedup_loop (collected parse now cap) ∅ []) ∅ []
  = dedup_loop (collected parse now cap) ∅ [].
Proof.
  split_and!.
  - intros u. split.
    + intros (a&->&Ha)%list_elem_of_fmap. apply fetch_articles_elem in Ha.
      apply list_elem_of_fmap_2.
      exact (elem_of_sublist _ _ _ Ha (dedup_loop_sublist _ _)).
    + intros Hu. apply first_with_url in Hu as (pre&a&post&Hc&<-&Hpre).
      apply list_elem_of_fmap_2, fetch_articles_elem, dedup_loop_elem.
      exists pre, post. split_and!; [done|set_solver|done].
  - apply dedup_loop_sublist.
  - apply dedup_loop_fixed; [apply dedup_loop_NoDup|set_solver].
Qed.

End RankingMore.

(** *** The freshness window *)

Section WindowMore.
Import Clock Curation.

Lemma sub_one_day_back (t : datetime) :
  valid t -> ~ (year t = 1 /\ month t = 1 /\ day t = 1) ->
  add_one_day (sub_one_day t) = t /\ lt (sub_one_day t) t /\ valid (sub_one_day t).
Proof.
  intros (?&?&?&?&?&?&?) Hmin. destruct t as [y m d h mi se us]. simpl in *.
  unfold sub_one_day. simpl.
  destruct (Z.ltb_spec 1 d).
  { split_and!.
    - unfold add_one_day. simpl.
      destruct (Z.ltb_spec (d - 1) (days_in_month y m)); [|lia].
      f_equal. lia.
    - apply lt_spec. simpl. lia.
    - unfold valid. simpl. lia. }
  assert (d = 1) as -> by lia.
  destruct (Z.ltb_spec 1 m).
  { pose proof (days_in_month_bounds y (m - 1)).
    split_and!.
    - unfold add_one_day. simpl. rewrite Z.ltb_irrefl.
      destruct (Z.ltb_spec (m - 1) 12); [|lia]. f_equal. lia.
    - apply lt_spec. simpl. lia.
    - unfold valid. simpl. lia. }
  assert (m = 1) as -> by lia.
  split_and!.
  - unfold add_one_day. simpl.
    change (days_in_month (y - 1) 12) with 31. simpl. f_equal. lia.
  - apply lt_spec. simpl. lia.
  - unfold valid. simpl. change (days_in_month (y - 1) 12) with 31. lia.
Qed.

(** X5. The cutoff lies exactly one civil day before the time of the run.
    The freshness test is strict and one-sided: an entry dated exactly at
    the cutoff is kept, and so is every entry dated at or after the time of
    the run (a date in the future is never rejected). *)
Theorem freshness_window (now : datetime) :
  valid now -> ~ (year now = 1 /\ month now = 1 /\ day now = 1) ->
  add_one_day (cutoff_of now) = now /\
  lt (cutoff_of now) now /\
  too_old (Some (cutoff_of now)) (cutoff_of now) = false /\
  (forall t, le now t -> too_old (Some t) (cutoff_of now) = false).
Proof.
  intros Hv Hmin. unfold cutoff_of.
  destruct (sub_one_day_back now Hv Hmin) as (Hback&Hlt&_).
  split_and!; [done|done| |].
  - simpl. unfold ltb. destruct (Clock.compare _ _) eqn:E; try done.
    apply lt_spec in E. lia.
  - intros t Hle. simpl. unfold ltb.
    destruct (Clock.compare t (sub_one_day now)) eqn:E; try done.
    apply lt_spec in E. apply lt_spec in Hlt. apply le_spec in Hle. lia.
Qed.

Lemma freshness_window_witness :
  add_one_day (cutoff_of Samples.now_utc) = Samples.now_utc /\
  lt (cutoff_of Samples.now_utc) Samples.now_utc /\
  too_old (Some (cutoff_of Samples.now_utc)) (cutoff_of Samples.now_utc) = false /\
  (forall t, le Samples.now_utc t -> too_old (Some t) (cutoff_of Samples.now_utc) = false).
Proof.
  apply (freshness_window Samples.now_utc).
  - apply validb_valid. reflexivity.
  - intros (H&_). discriminate H.
Defined.

End WindowMore.

(** *** The summary cleaning *)

Section TextMore.
Import Text Regex Curation.

Lemma lower_app (a b : string) : lower (a +:+ b) = lower a +:+ lower b.
Proof.
  induction a as [|c a IH]; [done|].
  rewrite append_cons. cbn [lower]. by rewrite IH, append_cons.
Qed.

Lemma starts_with_app (p s : string) : starts_with p (p +:+ s) = true.
Proof.
  unfold starts_with. induction p as [|c p IH]; [done|].
  rewrite append_cons. cbn [strip_prefix]. by rewrite Ascii.eqb_refl.
Qed.

Lemma contains_app (p a b : string) : contains p (a +:+ p +:+ b) = true.
Proof.
  induction a as [|c a IH].
  - rewrite append_nil_l. pose proof (starts_with_app p b) as Hs.
    destruct (p +:+ b); cbn [contains]; by rewrite Hs.
  - rewrite append_cons. cbn [contains]. rewrite IH. apply orb_true_r.
Qed.

Lemma strip_tags_from_length (b : bool) (s : string) :
  (String.length (strip_tags_from b s) <= String.length s)%nat.
Proof.
  revert b. induction s as [|c s IH]; intros b; [done|]. cbn [strip_tags_from].
  destruct b.
  - destruct (Ascii.eqb c ">"); [specialize (IH false)|specialize (IH true)];
      simpl; lia.
  - destruct (Ascii.eqb c "<" && opens_tag s); [specialize (IH true)|specialize (IH false)];
      simpl; lia.
Qed.

Lemma strip_tags_from_clean (a rest : string) :
  mem_char "<" a = false ->
  strip_tags_from false (a +:+ rest) = a +:+ strip_tags_from false rest.
Proof.
  induction a as [|c a IH]; [done|]. cbn [mem_char].
  intros [Hc Ha]%orb_false_iff. rewrite !append_cons. cbn [strip_tags_from].
  rewrite Ascii.eqb_sym, Hc. cbn [andb]. by rewrite IH.
Qed.

Lemma strip_tags_from_inside (inner rest : string) :
  mem_char ">" inner = false ->
  strip_tags_from true (inner +:+ String ">" rest) = strip_tags_from false rest.
Proof.
  induction inner as [|c inner IH].
  - intros _. rewrite append_nil_l. cbn [strip_tags_from]. by rewrite Ascii.eqb_refl.
  - cbn [mem_char]. intros [Hc Hi]%orb_false_iff. rewrite append_cons.
    cbn [strip_tags_from]. rewrite Ascii.eqb_sym, Hc. by apply IH.
Qed.

Lemma opens_tag_unclosed (s : string) : mem_char ">" s = false -> opens_tag s = false.
Proof.
  destruct s as [|d s]; [done|]. cbn [mem_char opens_tag].
  intros [_ ->]%orb_false_iff. apply andb_false_r.
Qed.

Lemma strip_tags_from_unclosed (s : string) :
  mem_char ">" s = false -> strip_tags_from false s = s.
Proof.
  induction s as [|c s IH]; [done|]. cbn [mem_char].
  intros [Hc Hs]%orb_false_iff. cbn [strip_tags_from].
  rewrite (opens_tag_unclosed s Hs), andb_false_r. by rewrite IH.
Qed.

(** X7. Cleaning a summary only deletes: the result is never longer than
    the text. A text without an opening or without a closing angle bracket
    is returned as it is. A tag, an opening bracket followed by one or more
    characters other than the closing bracket and then the closing bracket,
    that follows bracket-free text is removed whole, and cleaning goes on
    behind it. *)
Theorem strip_tags_removes_tags (a inner b : string) :
  mem_char "<" a = false ->
  inner <> EmptyString ->
  mem_char ">" inner = false ->
  strip_tags (a +:+ "<" +:+ inner +:+ ">" +:+ b) = a +:+ strip_tags b /\
  strip_tags a = a /\
  strip_tags inner = inner /\
  (forall s, (String.length (strip_tags s) <= String.length s)%nat).
Proof.
  intros Ha Hne Hinner. unfold strip_tags. split_and!.
  - rewrite strip_tags_from_clean by done. f_equal.
    rewrite !append_cons, !append_nil_l. cbn [strip_tags_from].
    rewrite Ascii.eqb_refl. cbn [andb].
    destruct inner as [|d inner]; [done|]. cbn [mem_char] in Hinner.
    apply orb_false_iff in Hinner as [Hd Hi].
    assert (Hopen : opens_tag (String d inner +:+ String ">" b) = true).
    { rewrite append_cons. cbn [opens_tag].
      rewrite Ascii.eqb_sym, Hd, mem_char_app. cbn [mem_char negb andb].
      rewrite Ascii.eqb_refl. by rewrite orb_true_r. }
    rewrite Hopen. apply strip_tags_from_inside.
    cbn [mem_char]. by rewrite Hd, Hi.
  - rewrite <- (append_nil_r a) at 1.
    by rewrite strip_tags_from_clean, append_nil_r.
  - by apply strip_tags_from_unclosed.
  - intros s. apply strip_tags_from_length.
Qed.

Lemma strip_tags_removes_tags_witness :
  strip_tags ("GPT " +:+ "<" +:+ "b class=x" +:+ ">" +:+ "news</b>") = "GPT " +:+ strip_tags "news</b>" /\
  strip_tags "GPT " = "GPT " /\
  strip_tags "b class=x" = "b class=x" /\
  (forall s, (String.length (strip_tags s) <= String.length s)%nat).
Proof.
  apply (strip_tags_removes_tags "GPT " "b class=x" "news</b>");
    [reflexivity|discriminate|reflexivity].
Defined.

End TextMore.

(** *** The orchestrator and the commentary generator *)

Section BackendMore.
Import Py Curation Text.

Variable genai_Client : string -> outcome Summarizer.client.
Variable generate_content : string -> string -> outcome (option string).
Variable json_loads : string -> outcome value.
Variable prompt_template : string -> string.

Lemma try_models_head m rest prompt :
  exists tl,
    (Summarizer.try_models generate_content json_loads (m :: rest) prompt).2
    = m :: tl.
Proof.
  cbn [Summarizer.try_models].
  destruct (Summarizer.attempt _ _ m prompt); [by eexists|].
  destruct (Summarizer.is_rate_limit _); [|by eexists].
  destruct (Summarizer.try_models _ _ rest prompt). by eexists.
Qed.

(** X9. Summarisation reads the first ten ranked articles only: called on
    a list or on its first ten elements it invokes the same models and
    returns the same result. With a key configured and the client
    constructed it always invokes the first candidate and never more than
    the four configured ones. *)
Theorem summary_reads_top_ten key articles :
  Summarizer.summarize_with_gemini genai_Client json_loads prompt_template
    key articles
  = Summarizer.summarize_with_gemini genai_Client json_loads prompt_template
      key (take 10 articles) /\
  (key <> EmptyString ->
   genai_Client key = Returns generate_content ->
   exists rest,
     (Summarizer.summarize_with_gemini genai_Client json_loads prompt_template
        key articles).2 = "gemini-2.0-flash" :: rest /\
     (length rest <= 3)%nat).
Proof.
  split.
  - unfold Summarizer.summarize_with_gemini, Summarizer.prompt_news,
      Summarizer.articles_text, Summarizer._dummy_summary.
    cbv zeta. by rewrite take_idemp.
  - intros Hkey Hclient. apply String.eqb_neq in Hkey.
    unfold Summarizer.summarize_with_gemini. rewrite Hkey, Hclient.
    pose proof (try_models_prefix generate_content json_loads
                  Summarizer.models_to_try
                  (Summarizer.prompt_news prompt_template articles)) as Hp.
    destruct (Summarizer.try_models _ _ _ _) as [r tr] eqn:Ht.
    assert (Hhd : exists rest, tr = "gemini-2.0-flash" :: rest).
    { destruct (try_models_head "gemini-2.0-flash"
                  ["gemini-2.0-flash-lite"; "gemini-2.5-flash";
                   "gemini-flash-lite-latest"]
                  (Summarizer.prompt_news prompt_template articles)) as [tl Htl].
      exists tl. change Summarizer.models_to_try
        with ("gemini-2.0-flash" :: ["gemini-2.0-flash-lite"; "gemini-2.5-flash";
                                     "gemini-flash-lite-latest"]) in Ht.
      rewrite Ht in Htl. exact Htl. }
    destruct Hhd as [rest ->]. exists rest. split; [by destruct r|].
    apply prefix_length in Hp. simpl in Hp. lia.
Qed.

Lemma commentary_try_models_rate_limited pre rest prompt :
  (forall x, x ∈ pre ->
     Summarizer.rate_limited
       (Commentary.attempt generate_content json_loads x prompt)) ->
  Commentary.try_models generate_content json_loads (pre ++ rest) prompt
  = ((Commentary.try_models generate_content json_loads rest prompt).1,
     pre ++ (Commentary.try_models generate_content json_loads rest prompt).2).
Proof.
  induction pre as [|m pre IH]; intros Hpre; simpl.
  - by destruct (Commentary.try_models _ _ rest prompt).
  - destruct (Hpre m) as (e&->&->); [by left|].
    rewrite IH by (intros; apply Hpre; by right).
    done.
Qed.

Lemma commentary_try_models_prefix models prompt :
  (Commentary.try_models generate_content json_loads models prompt).2
    `prefix_of` models.
Proof.
  induction models as [|m models IH]; simpl; [done|].
  destruct (Commentary.attempt _ _ m prompt) as [v|e]; simpl.
  - by apply prefix_cons, prefix_nil.
  - destruct (Summarizer.is_rate_limit e).
    + destruct (Commentary.try_models _ _ models prompt). simpl in *.
      by apply prefix_cons.
    + by apply prefix_cons, prefix_nil.
Qed.

(** X11. Once its client is constructed, the commentary generator follows
    the same candidate protocol as the summariser: the invoked models are a
    prefix of the configured list;
    behind candidates that failed with a rate or quota signature the next
    one is invoked; a parsed list is returned at once; any other failure,
    also a parsed value that has no length, ends the loop with the empty
    list; when all candidates are rate limited all are invoked and the
    empty list is returned. *)
Theorem commentary_candidates_in_order key a articles :
  key <> EmptyString ->
  genai_Client key = Returns generate_content ->
  (Commentary.generate_joho_commentary genai_Client json_loads prompt_template
     key (a :: articles)).2 `prefix_of` Summarizer.models_to_try /\
  (forall pre m post,
     Summarizer.models_to_try = pre ++ m :: post ->
     (forall x, x ∈ pre ->
        Summarizer.rate_limited
          (Commentary.attempt generate_content json_loads x
             (Commentary.prompt prompt_template (a :: articles)))) ->
     (forall picks,
        Commentary.attempt generate_content json_loads m
          (Commentary.prompt prompt_template (a :: articles)) = Returns picks ->
        Commentary.generate_joho_commentary genai_Client json_loads
          prompt_template key (a :: articles) = (Returns picks, pre ++ [m])) /\
     (forall err_str,
        Commentary.attempt generate_content json_loads m
          (Commentary.prompt prompt_template (a :: articles)) = Raises err_str ->
        Summarizer.is_rate_limit err_str = false ->
        Commentary.generate_joho_commentary genai_Client json_loads
          prompt_template key (a :: articles) = (Returns (VList []), pre ++ [m]))) /\
  ((forall x, x ∈ Summarizer.models_to_try ->
      Summarizer.rate_limited
        (Commentary.attempt generate_content json_loads x
           (Commentary.prompt prompt_template (a :: articles)))) ->
   Commentary.generate_joho_commentary genai_Client json_loads prompt_template
     key (a :: articles) = (Returns (VList []), Summarizer.models_to_try)) /\
  (forall model_name prompt text picks,
     generate_content model_name prompt = Returns (Some text) ->
     Commentary.search_brackets (Summarizer.strip_fences text) <> None ->
     Commentary.attempt generate_content json_loads model_name prompt
     = Returns picks ->
     exists n, Commentary.py_len picks = Returns n).
Proof.
  intros Hkey Hclient.
  assert (Hk : String.eqb key EmptyString || bool_decide (a :: articles = []) = false).
  { apply String.eqb_neq in Hkey. by rewrite Hkey. }
  unfold Commentary.generate_joho_commentary. rewrite Hk, Hclient. split_and!.
  - pose proof (commentary_try_models_prefix Summarizer.models_to_try
                  (Commentary.prompt prompt_template (a :: articles))) as Hp.
    by destruct (Commentary.try_models _ _ _ _) as [[v|] tr].
  - intros pre m post Hm Hpre.
    rewrite Hm, commentary_try_models_rate_limited by done.
    split; [intros picks Ha|intros err_str Ha Hrl]; simpl; rewrite Ha; simpl.
    + done.
    + by rewrite Hrl.
  - intros Hall. rewrite <- (app_nil_r Summarizer.models_to_try) at 1.
    rewrite commentary_try_models_rate_limited by done.
    cbn [Commentary.try_models fst snd]. by rewrite app_nil_r.
  - intros model_name prompt text picks Hg Hfound. unfold Commentary.attempt.
    rewrite Hg. destruct (Commentary.search_brackets _) as [group|]; [|done].
    destruct (json_loads group) as [v|]; [|done].
    destruct (Commentary.py_len v) as [n|] eqn:Hn; [|done].
    intros [= <-]. by exists n.
Qed.

End BackendMore.

Lemma summary_reads_top_ten_witness :
  exists rest,
    (Summarizer.summarize_with_gemini (Samples.client_of Samples.backend_exhausted)
       Samples.json_loads Samples.prompt_template "key" Samples.ranked).2
    = "gemini-2.0-flash" :: rest /\ (length rest <= 3)%nat.
Proof.
  apply (summary_reads_top_ten (Samples.client_of Samples.backend_exhausted)
           Samples.backend_exhausted Samples.json_loads
           Samples.prompt_template "key" Samples.ranked).
  - discriminate.
  - reflexivity.
Defined.

Lemma commentary_candidates_in_order_witness :
  Commentary.generate_joho_commentary (Samples.client_of Samples.backend_quota_then_list)
    Samples.json_loads_list Samples.prompt_template "key"
    (Curation.make_article "VentureBeat" Samples.e_fresh :: [])
  = (Py.Returns (Py.VList []), ["gemini-2.0-flash"; "gemini-2.0-flash-lite"]) /\
  Commentary.generate_joho_commentary (Samples.client_of Samples.backend_quota_then_ok)
    Samples.json_loads_list Samples.prompt_template "key"
    (Curation.make_article "VentureBeat" Samples.e_fresh :: [])
  = (Py.Returns (Py.VList []), ["gemini-2.0-flash"; "gemini-2.0-flash-lite"]) /\
  Commentary.generate_joho_commentary (Samples.client_of Samples.backend_exhausted)
    Samples.json_loads_list Samples.prompt_template "key"
    (Curation.make_article "VentureBeat" Samples.e_fresh :: [])
  = (Py.Returns (Py.VList []), Summarizer.models_to_try).
Proof.
  assert (Hkey : "key" <> EmptyString) by discriminate.
  split_and!.
  - destruct (commentary_candidates_in_order (Samples.client_of Samples.backend_quota_then_list)
                Samples.backend_quota_then_list
                Samples.json_loads_list Samples.prompt_template "key"
                (Curation.make_article "VentureBeat" Samples.e_fresh) [] Hkey
                eq_refl)
      as (_&Hstep&_).
    destruct (Hstep ["gemini-2.0-flash"] "gemini-2.0-flash-lite"
                ["gemini-2.5-flash"; "gemini-flash-lite-latest"] eq_refl)
      as [Hok _].
    { intros x ->%list_elem_of_singleton. exists "429 RESOURCE_EXHAUSTED".
      split; vm_compute; reflexivity. }
    apply Hok. vm_compute. reflexivity.
  - destruct (commentary_candidates_in_order (Samples.client_of Samples.backend_quota_then_ok)
                Samples.backend_quota_then_ok
                Samples.json_loads_list Samples.prompt_template "key"
                (Curation.make_article "VentureBeat" Samples.e_fresh) [] Hkey
                eq_refl)
      as (_&Hstep&_).
    destruct (Hstep ["gemini-2.0-flash"] "gemini-2.0-flash-lite"
                ["gemini-2.5-flash"; "gemini-flash-lite-latest"] eq_refl)
      as [_ Herr].
    { intros x ->%list_elem_of_singleton. exists "429 RESOURCE_EXHAUSTED".
      split; vm_compute; reflexivity. }
    apply (Herr Commentary.no_json_list_error); vm_compute; reflexivity.
  - destruct (commentary_candidates_in_order (Samples.client_of Samples.backend_exhausted)
                Samples.backend_exhausted
                Samples.json_loads_list Samples.prompt_template "key"
                (Curation.make_article "VentureBeat" Samples.e_fresh) [] Hkey
                eq_refl)
      as (_&_&Hall&_).
    apply Hall. intros x _. exists "You exceeded your current quota".
    split; vm_compute; reflexivity.
Defined.

(** *** The snapshot store: bounds, round trip, name collisions *)

Section StoreMore.
Import Py Curation Store Text.

Variable json_dumps : value -> string.
Variable json_loads : string -> outcome value.

(** A [save_data] whose two writes complete. *)
Lemma save_data_complete (write_text : string -> string -> written)
    (fs : gmap string (option string)) now slot_now summary articles :
  let text :=
    json_dumps
      (VDict [ ("timestamp", VStr (Clock.isoformat Clock.jst_offset now));
               ("time_slot", VStr (get_time_slot slot_now));
               ("summary", summary);
               ("raw_articles", VList (article_value <$> take 15 articles)) ]) in
  write_text (snapshot_name now) text = Complete ->
  write_text latest_name text = Complete ->
  save_data json_dumps write_text fs now slot_now summary articles
  = (<[latest_name := Some text]> (<[snapshot_name now := Some text]> fs),
     Returns (snapshot_name now)).
Proof.
  intros text H1 H2. unfold save_data, write_file. cbv zeta.
  fold (snapshot_name now). fold text. by rewrite H1, H2.
Qed.

Lemma omap_length {A B} (f : A -> option B) (l : list A) :
  (length (omap f l) <= length l)%nat.
Proof.
  induction l as [|x l IH]; [done|]. csimpl. destruct (f x); simpl; lia.
Qed.

Lemma data_files_NoDup (fs : gmap string (option string)) : NoDup (data_files fs).
Proof.
  unfold data_files. rewrite sort_desc_perm. apply NoDup_filter, NoDup_elements.
Qed.

(** X12. The history is capped and selective: [load_history] returns at
    most twelve entries; each is the parsed content of a file named
    [news_*.json] among the twelve greatest such names; [latest.json] is
    never read; a directory without snapshot files gives the empty
    history. *)
Theorem load_history_bounded (fs : gmap string (option string)) :
  (length (load_history json_loads fs) <= 12)%nat /\
  (forall v,
     v ∈ load_history json_loads fs ->
     exists name,
       name ∈ take 12 (data_files fs) /\ glob_news name = true /\
       name <> latest_name /\ read_snapshot json_loads fs name = Some v) /\
  ((forall name, is_Some (fs !! name) -> glob_news name = false) ->
   load_history json_loads fs = []).
Proof.
  assert (Hload : load_history json_loads fs
                  = omap (read_snapshot json_loads fs) (take 12 (data_files fs))).
  { unfold load_history. by rewrite read_files_omap. }
  rewrite Hload. split_and!.
  - etrans; [apply omap_length|]. rewrite length_take. lia.
  - intros v (name&Hin&Hv)%list_elem_of_omap. exists name.
    pose proof (elem_of_sublist _ _ _ Hin (sublist_take _ _)) as Hd.
    apply data_files_elem in Hd as [_ Hg].
    split_and!; [done|done| |done].
    intros ->. vm_compute in Hg. discriminate Hg.
  - intros Hnone. rewrite <- Hload.
    destruct (data_files fs) as [|n l] eqn:Hd.
    { unfold load_history. by rewrite Hd. }
    assert (Hn : n ∈ data_files fs) by (rewrite Hd; by left).
    apply data_files_elem in Hn as [Hs Hg]. by rewrite (Hnone n Hs) in Hg.
Qed.

Lemma ends_with_app (suffix a : string) : ends_with suffix (a +:+ suffix) = true.
Proof.
  induction a as [|c a IH].
  - rewrite append_nil_l. destruct suffix; cbn [ends_with]; by rewrite String.eqb_refl.
  - rewrite append_cons. cbn [ends_with]. rewrite IH. apply orb_true_r.
Qed.

Lemma glob_news_snapshot_name (t : Clock.datetime) : glob_news (snapshot_name t) = true.
Proof.
  unfold glob_news, snapshot_name.
  change (strip_prefix "news_" ("news_" +:+ Clock.strftime_stamp t +:+ ".json"))
    with (Some (Clock.strftime_stamp t +:+ ".json")).
  apply ends_with_app.
Qed.

Lemma str_lt_irrefl (a : string) : ~ str_lt a a.
Proof. unfold str_lt, str_compare. by rewrite compare_refl. Qed.

Lemma str_lt_asym (a b : string) : str_lt a b -> str_lt b a -> False.
Proof.
  unfold str_lt, str_compare. intros H1 H2.
  rewrite String.compare_antisym, H1 in H2. done.
Qed.

Lemma sorted_desc_unique (l1 l2 : list string) :
  StronglySorted (fun a b => str_lt b a) l1 ->
  StronglySorted (fun a b => str_lt b a) l2 ->
  NoDup l1 -> NoDup l2 -> (forall x, x ∈ l1 <-> x ∈ l2) -> l1 = l2.
Proof.
  intros H1 H2 N1 N2 Hel.
  apply (StronglySorted_unique_strong (fun a b => str_lt b a)); [|done|done|].
  - intros x1 x2 _ _ Ha Hb. destruct (str_lt_asym _ _ Ha Hb).
  - by apply NoDup_Permutation.
Qed.

(** X13. Saving and loading compose: when both writes complete, the
    parser reads back what the serialiser wrote for the data of the run, and
    the name of the new snapshot is above the names of all stored snapshots
    (the run is later than every stored one), then after [save_data] the
    snapshot files are the new one followed by the old ones, and
    [load_history] returns the data of the run first, followed by what it
    returned for the eleven most recent older snapshots. *)
Theorem save_then_load (write_text : string -> string -> written)
    (fs : gmap string (option string)) now slot_now summary articles :
  let data :=
    VDict [ ("timestamp", VStr (Clock.isoformat Clock.jst_offset now));
            ("time_slot", VStr (get_time_slot slot_now));
            ("summary", summary);
            ("raw_articles", VList (article_value <$> take 15 articles)) ] in
  let fs' := (save_data json_dumps write_text fs now slot_now summary articles).1 in
  write_text (snapshot_name now) (json_dumps data) = Complete ->
  write_text latest_name (json_dumps data) = Complete ->
  json_loads (json_dumps data) = Returns data ->
  (forall name, name ∈ data_files fs -> str_lt name (snapshot_name now)) ->
  data_files fs' = snapshot_name now :: data_files fs /\
  load_history json_loads fs'
  = data :: omap (read_snapshot json_loads fs) (take 11 (data_files fs)).
Proof.
  intros data fs' Hw1 Hw2 Hrt Hnew.
  assert (Hfs' : fs' = <[latest_name := Some (json_dumps data)]>
                         (<[snapshot_name now := Some (json_dumps data)]> fs)).
  { unfold fs'. by rewrite save_data_complete. }
  assert (Hfresh : snapshot_name now ∉ data_files fs).
  { intros Hin. apply (str_lt_irrefl (snapshot_name now)). by apply Hnew. }
  assert (Hfiles : data_files fs' = snapshot_name now :: data_files fs).
  { apply sorted_desc_unique.
    - apply data_files_sorted.
    - constructor; [apply data_files_sorted|]. by apply Forall_forall.
    - apply data_files_NoDup.
    - constructor; [done|apply data_files_NoDup].
    - intros x. rewrite elem_of_cons, !data_files_elem, Hfs'.
      destruct (decide (x = latest_name)) as [->|Hl].
      { split; [by intros [_ ?]|]. intros [Heq|[_ ?]]; [|done].
        pose proof (glob_news_snapshot_name now) as Hg.
        rewrite <- Heq in Hg. done. }
      rewrite lookup_insert_ne by congruence.
      destruct (decide (x = snapshot_name now)) as [->|Hs].
      { rewrite lookup_insert_eq, glob_news_snapshot_name. split; [by left|].
        intros _. by split. }
      rewrite lookup_insert_ne by congruence. split; [by right|].
      by intros [?|?]. }
  split; [done|].
  unfold load_history. rewrite read_files_omap, Hfiles. simpl take. csimpl.
  assert (Hsnap : read_snapshot json_loads fs' (snapshot_name now) = Some data).
  { unfold read_snapshot. rewrite Hfs'.
    destruct (decide (latest_name = snapshot_name now)) as [->|Hne].
    - by rewrite lookup_insert_eq, Hrt.
    - by rewrite lookup_insert_ne, lookup_insert_eq, Hrt. }
  rewrite Hsnap. f_equal.
  apply list_omap_ext, Forall2_same_length_lookup. split; [done|].
  intros i x y Hx Hy. simplify_eq.
  assert (Hin : x ∈ data_files fs).
  { apply list_elem_of_lookup_2 in Hx.
    exact (elem_of_sublist _ _ _ Hx (sublist_take _ _)). }
  unfold read_snapshot. rewrite Hfs'.
  rewrite !lookup_insert_ne; [done| |].
  - intros <-. done.
  - intros <-. apply data_files_elem in Hin as [_ Hg].
    vm_compute in Hg. discriminate Hg.
Qed.

(** X14. Snapshot names identify minutes, not runs: the names written for
    two instants coincide exactly when the instants fall in the same
    minute. After a [save_data] whose writes completed, a second one in the
    same minute works on the same snapshot file: when its writes complete,
    the snapshot and [latest.json] both hold the text of the second run and
    no snapshot file was added; when its dump of the snapshot stops part
    way, the snapshot of the first run is gone, the file holds what went
    out, and [latest.json] still holds the text of the first run. *)
Theorem same_minute_overwrites (write_t write_u : string -> string -> written)
    (fs : gmap string (option string))
    t u slot_t slot_u summary_t summary_u articles_t articles_u :
  let text_t :=
    json_dumps
      (VDict [ ("timestamp", VStr (Clock.isoformat Clock.jst_offset t));
               ("time_slot", VStr (get_time_slot slot_t));
               ("summary", summary_t);
               ("raw_articles", VList (article_value <$> take 15 articles_t)) ]) in
  let text_u :=
    json_dumps
      (VDict [ ("timestamp", VStr (Clock.isoformat Clock.jst_offset u));
               ("time_slot", VStr (get_time_slot slot_u));
               ("summary", summary_u);
               ("raw_articles", VList (article_value <$> take 15 articles_u)) ]) in
  let fs1 := (save_data json_dumps write_t fs t slot_t summary_t articles_t).1 in
  let fs2 := (save_data json_dumps write_u fs1 u slot_u summary_u articles_u).1 in
  Clock.valid t -> Clock.valid u ->
  (snapshot_name t = snapshot_name u <-> compare_minutes t u = Eq) /\
  (compare_minutes t u = Eq ->
   write_t (snapshot_name t) text_t = Complete ->
   write_t latest_name text_t = Complete ->
   (write_u (snapshot_name u) text_u = Complete ->
    write_u latest_name text_u = Complete ->
    fs2 !! snapshot_name t = fs2 !! latest_name /\
    fs2 !! snapshot_name t = Some (Some text_u) /\
    data_files fs2 = data_files fs1) /\
   (forall kept err_str,
      write_u (snapshot_name u) text_u = Truncated kept err_str ->
      fs2 !! snapshot_name t = Some (Some kept) /\
      fs2 !! latest_name = Some (Some text_t))).
Proof.
  intros text_t text_u fs1 fs2 Ht Hu.
  assert (Hname : snapshot_name t = snapshot_name u <-> compare_minutes t u = Eq).
  { rewrite <- snapshot_name_compare by done. split.
    - intros ->. apply compare_refl.
    - apply String.compare_eq_iff. }
  split; [done|]. intros Hsame Ht1 Ht2. apply Hname in Hsame.
  assert (Hfs1 : fs1 = <[latest_name := Some text_t]>
                         (<[snapshot_name t := Some text_t]> fs)).
  { unfold fs1. by rewrite save_data_complete. }
  pose proof (snapshot_not_latest t) as Hne.
  split.
  - intros Hu1 Hu2.
    assert (Hfs2 : fs2 = <[latest_name := Some text_u]>
                           (<[snapshot_name u := Some text_u]> fs1)).
    { unfold fs2. by rewrite save_data_complete. }
    assert (Hl : fs2 !! latest_name = Some (Some text_u)).
    { rewrite Hfs2. apply lookup_insert_eq. }
    assert (Hs : fs2 !! snapshot_name t = Some (Some text_u)).
    { rewrite Hfs2, Hsame.
      rewrite lookup_insert_ne by (intros E; by apply (snapshot_not_latest u)).
      apply lookup_insert_eq. }
    split_and!; [by rewrite Hs, Hl|done|].
    apply sorted_desc_unique; try apply data_files_sorted; try apply data_files_NoDup.
    intros x. rewrite !data_files_elem.
    assert (Hdom : is_Some (fs2 !! x) <-> is_Some (fs1 !! x)).
    { rewrite Hfs2. destruct (decide (x = latest_name)) as [->|Hxl].
      - rewrite lookup_insert_eq. split; [|by eexists]. intros _.
        rewrite Hfs1, lookup_insert_eq. by eexists.
      - rewrite lookup_insert_ne by done.
        destruct (decide (x = snapshot_name u)) as [->|Hxs].
        + rewrite lookup_insert_eq. split; [|by eexists]. intros _.
          rewrite <- Hsame, Hfs1.
          rewrite lookup_insert_ne, lookup_insert_eq by done. by eexists.
        + by rewrite lookup_insert_ne. }
    by rewrite Hdom.
  - intros kept err_str Hu1.
    assert (Hfs2 : fs2 = <[snapshot_name u := Some kept]> fs1).
    { unfold fs2, save_data, write_file. cbv zeta.
      fold (snapshot_name u). fold text_u. by rewrite Hu1. }
    rewrite Hfs2, <- Hsame. split.
    + apply lookup_insert_eq.
    + rewrite lookup_insert_ne by done. rewrite Hfs1. apply lookup_insert_eq.
Qed.

End StoreMore.

Lemma load_history_bounded_witness :
  Store.load_history Samples.json_loads_tagged
    ({[ "latest.json" := Some "{1}" ]} : gmap string (option string)) = [].
Proof.
  apply (load_history_bounded Samples.json_loads_tagged).
  intros name [x Hx]. apply lookup_singleton_Some in Hx as [<- _]. reflexivity.
Defined.

Lemma save_then_load_witness :
  Store.load_history Samples.json_loads_run
    (Store.save_data Samples.json_dumps Samples.write_all Samples.twelve_files
       Samples.run_now Samples.run_now (Py.VStr "{s}") []).1
  = Samples.run_data
      :: omap (Store.read_snapshot Samples.json_loads_run Samples.twelve_files)
           (take 11 (Store.data_files Samples.twelve_files)).
Proof.
  refine (proj2 (save_then_load Samples.json_dumps Samples.json_loads_run
                   Samples.write_all
                   Samples.twelve_files Samples.run_now Samples.run_now
                   (Py.VStr "{s}") [] eq_refl eq_refl _ _)).
  - vm_compute. reflexivity.
  - intros name Hin. vm_compute in Hin.
    repeat (apply elem_of_cons in Hin as [->|Hin]; [reflexivity|]).
    by apply elem_of_nil in Hin.
Defined.

Lemma same_minute_overwrites_witness :
  let fs1 :=
    (Store.save_data Samples.json_dumps Samples.write_all Samples.twelve_files
       (Clock.mk_datetime 2024 3 11 6 0 0 0) (Clock.mk_datetime 2024 3 11 6 0 0 0)
       Py.VNone []).1 in
  let again write_u :=
    (Store.save_data Samples.json_dumps write_u fs1
       (Clock.mk_datetime 2024 3 11 6 0 59 5) (Clock.mk_datetime 2024 3 11 6 0 59 5)
       Py.VNone []).1 in
  Store.snapshot_name (Clock.mk_datetime 2024 3 11 6 0 0 0)
  = Store.snapshot_name (Clock.mk_datetime 2024 3 11 6 0 59 5) /\
  Store.data_files (again Samples.write_all) = Store.data_files fs1 /\
  again Samples.write_stops !! "news_20240311_0600.json" = Some (Some "{") /\
  again Samples.write_stops !! "latest.json"
  = Some (Some "{2024-03-11T06:00:00+09:00}").
Proof.
  intros fs1 again.
  destruct (same_minute_overwrites Samples.json_dumps
              Samples.write_all Samples.write_all Samples.twelve_files
              (Clock.mk_datetime 2024 3 11 6 0 0 0)
              (Clock.mk_datetime 2024 3 11 6 0 59 5)
              (Clock.mk_datetime 2024 3 11 6 0 0 0)
              (Clock.mk_datetime 2024 3 11 6 0 59 5)
              Py.VNone Py.VNone [] [])
    as [Hname Hover]; [by apply validb_valid..|].
  destruct (same_minute_overwrites Samples.json_dumps
              Samples.write_all Samples.write_stops Samples.twelve_files
              (Clock.mk_datetime 2024 3 11 6 0 0 0)
              (Clock.mk_datetime 2024 3 11 6 0 59 5)
              (Clock.mk_datetime 2024 3 11 6 0 0 0)
              (Clock.mk_datetime 2024 3 11 6 0 59 5)
              Py.VNone Py.VNone [] [])
    as [_ Hstop]; [by apply validb_valid..|].
  destruct (Hover eq_refl eq_refl eq_refl) as [Hdone _].
  destruct (Hstop eq_refl eq_refl eq_refl) as [_ Hcut].
  destruct (Hdone eq_refl eq_refl) as (_&_&Hfiles).
  destruct (Hcut "{" _ eq_refl) as [Hsnap Hlatest].
  split_and!.
  - by apply Hname.
  - exact Hfiles.
  - exact Hsnap.
  - exact Hlatest.
Defined.

(** *** The trigger computation: cadence and monotonicity *)

Section SchedulerMore.
Import Clock Scheduler.

Lemma replace_hour_valid (t : datetime) (h : Z) :
  valid t -> 0 <= h < 24 -> valid (replace_hour t h).
Proof. intros (?&?&?&_) ?. unfold valid. simpl. lia. Qed.

Lemma add_one_day_fields (t : datetime) :
  hour (add_one_day t) = hour t /\ minute (add_one_day t) = minute t /\
  second (add_one_day t) = second t /\ microsecond (add_one_day t) = microsecond t.
Proof. unfold add_one_day. by repeat destruct (_ <? _). Qed.

Lemma add_one_day_replace_hour (t : datetime) (h : Z) :
  add_one_day (replace_hour t h) = replace_hour (add_one_day t) h.
Proof. unfold add_one_day, replace_hour. simpl. by repeat destruct (_ <? _). Qed.

Lemma trigger_eta (t : datetime) :
  is_trigger t -> t = replace_hour t (hour t).
Proof. intros (_&?&?&?). destruct t. simpl in *. by subst. Qed.

(** X15. From a configured trigger time the next run is the next
    configured hour of the same day, or 06:00 of the next day behind the
    last one; four successive runs lead from a trigger time to the same
    time of the next civil day. *)
Theorem daily_cadence (t : datetime) :
  valid t -> year t < 9999 -> is_trigger t ->
  (hour t = 6 -> get_next_run t = replace_hour t 12) /\
  (hour t = 12 -> get_next_run t = replace_hour t 16) /\
  (hour t = 16 -> get_next_run t = replace_hour t 20) /\
  (hour t = 20 -> get_next_run t = replace_hour (add_one_day t) 6) /\
  get_next_run (get_next_run (get_next_run (get_next_run t))) = add_one_day t.
Proof.
  intros Hv Hy Ht.
  pose proof (add_one_day_valid t Hv Hy) as Hv'.
  pose proof (add_one_day_fields t) as (Hh&Hmi&Hs&Hus).
  assert (Hnext : forall u h, valid u -> 0 <= h < 24 ->
            get_next_run (replace_hour u h)
            = if h <? 6 then replace_hour u 6
              else if h <? 12 then replace_hour u 12
              else if h <? 16 then replace_hour u 16
              else if h <? 20 then replace_hour u 20
              else replace_hour (add_one_day u) 6).
  { intros u h Hu Hr.
    rewrite get_next_run_cases by by apply replace_hour_valid.
    cbn [hour replace_hour]. rewrite add_one_day_replace_hour.
    by repeat destruct (_ <? _). }
  pose proof (trigger_eta t Ht) as Heta.
  apply is_trigger_hours in Ht as (Hhour&_).
  assert (Hlast : replace_hour (add_one_day t) (hour t) = add_one_day t).
  { destruct (add_one_day t) as [y m d h mi se us] eqn:E. simpl in *.
    destruct t as [y0 m0 d0 h0 mi0 se0 us0]. simpl in *.
    injection Heta as ? ? ?. unfold replace_hour. simpl. by subst. }
  split_and!.
  - intros H6. rewrite Heta, H6 at 1. by rewrite Hnext by (done || lia).
  - intros H12. rewrite Heta, H12 at 1. by rewrite Hnext by (done || lia).
  - intros H16. rewrite Heta, H16 at 1. by rewrite Hnext by (done || lia).
  - intros H20. rewrite Heta, H20 at 1. by rewrite Hnext by (done || lia).
  - rewrite Heta at 1.
    destruct Hhour as [H|[H|[H|H]]]; rewrite H in *;
      repeat (rewrite Hnext by (done || lia); cbn [Z.ltb Z.compare Pos.compare
                Pos.compare_cont]);
      exact Hlast.
Qed.

Lemma daily_cadence_witness :
  get_next_run (get_next_run (get_next_run (get_next_run
    (mk_datetime 2024 12 31 16 0 0 0))))
  = mk_datetime 2025 1 1 16 0 0 0.
Proof.
  refine (proj2 (proj2 (proj2 (proj2
            (daily_cadence (mk_datetime 2024 12 31 16 0 0 0) _ _ _))))).
  - apply validb_valid. reflexivity.
  - reflexivity.
  - unfold is_trigger. simpl. split_and!; [|done..].
    unfold SCHEDULE_HOURS. repeat constructor.
Defined.

Lemma add_one_day_mono (a b : datetime) :
  valid a -> valid b ->
  (year a < year b \/ (year a = year b /\
   (month a < month b \/ (month a = month b /\ day a <= day b)))) ->
  year (add_one_day a) < year (add_one_day b) \/
  (year (add_one_day a) = year (add_one_day b) /\
   (month (add_one_day a) < month (add_one_day b) \/
    (month (add_one_day a) = month (add_one_day b) /\
     day (add_one_day a) <= day (add_one_day b)))).
Proof.
  intros Ha Hb Hle.
  destruct (decide (year a = year b /\ month a = month b /\ day a = day b))
    as [(Hy&Hm&Hd)|Hne].
  - unfold add_one_day. rewrite Hy, Hm, Hd. repeat destruct (_ <? _); simpl; lia.
  - assert (Hlt : year a < year b \/ (year a = year b /\
              (month a < month b \/ (month a = month b /\ day a < day b)))) by lia.
    pose proof (add_one_day_least a b Ha Hb Hlt) as H1. cbv zeta in H1.
    pose proof (add_one_day_later b) as H2. cbv zeta in H2. lia.
Qed.

Ltac split_ltb :=
  match goal with
  | |- context [ ?x <? ?y ] => destruct (Z.ltb_spec x y)
  end.

(** X16. The trigger computation is monotone: a later clock reading never
    gives an earlier next run. *)
Theorem get_next_run_monotone (a b : datetime) :
  valid a -> valid b -> le a b -> le (get_next_run a) (get_next_run b).
Proof.
  intros Ha Hb Hle. rewrite !get_next_run_cases by done.
  apply le_spec in Hle.
  pose proof Ha as (_&_&_&?&?&?&?). pose proof Hb as (_&_&_&?&?&?&?).
  assert (Hdate : year a < year b \/ (year a = year b /\
            (month a < month b \/ (month a = month b /\ day a <= day b)))) by lia.
  pose proof (add_one_day_mono a b Ha Hb Hdate) as Hmono.
  pose proof (add_one_day_later b) as Hlater. cbv zeta in Hlater.
  assert (Hleast : (year a < year b \/ (year a = year b /\
              (month a < month b \/ (month a = month b /\ day a < day b)))) ->
            year (add_one_day a) < year b \/ (year (add_one_day a) = year b /\
              (month (add_one_day a) < month b \/
               (month (add_one_day a) = month b /\ day (add_one_day a) <= day b)))).
  { intros Hlt. exact (add_one_day_least a b Ha Hb Hlt). }
  apply le_spec.
  repeat split_ltb; cbn [year month day hour minute second microsecond replace_hour];
    lia.
Qed.

Lemma get_next_run_monotone_witness :
  le (get_next_run (mk_datetime 2024 2 29 20 0 0 0))
     (get_next_run (mk_datetime 2024 3 1 5 59 59 999999)).
Proof.
  apply get_next_run_monotone; [by apply validb_valid..|discriminate].
Defined.

End SchedulerMore.

(** *** Time slots, sort keys, failures without a signature *)

Section LabelsMore.
Import Clock Scheduler Store Text.

(** X17. Each run of the schedule gets its own label: the runs at 6, 12,
    16 and 20 are labelled morning, noon, evening and night, so two
    configured trigger times with the same label have the same hour; and
    the label depends on the hour of the clock reading only. *)
Theorem time_slots_of_triggers (t u : datetime) :
  is_trigger t -> is_trigger u ->
  (get_time_slot t = get_time_slot u -> hour t = hour u) /\
  (hour t = 6 -> get_time_slot t = "朝") /\
  (hour t = 12 -> get_time_slot t = "昼") /\
  (hour t = 16 -> get_time_slot t = "夕方") /\
  (hour t = 20 -> get_time_slot t = "夜") /\
  (forall a b, hour a = hour b -> get_time_slot a = get_time_slot b).
Proof.
  intros [Ht _]%is_trigger_hours [Hu _]%is_trigger_hours.
  unfold get_time_slot. cbv zeta. split_and!.
  - destruct Ht as [H|[H|[H|H]]], Hu as [H'|[H'|[H'|H']]]; rewrite H, H';
      done || (vm_compute; discriminate).
  - by intros ->.
  - by intros ->.
  - by intros ->.
  - by intros ->.
  - by intros a b ->.
Qed.

Lemma time_slots_of_triggers_witness :
  get_time_slot (get_next_run (mk_datetime 2024 3 10 21 0 0 0)) = "朝".
Proof.
  refine (proj1 (proj2 (time_slots_of_triggers
            (get_next_run (mk_datetime 2024 3 10 21 0 0 0))
            (get_next_run (mk_datetime 2024 3 10 21 0 0 0)) _ _)) eq_refl);
    (split; [unfold SCHEDULE_HOURS; simpl; repeat constructor|done]).
Defined.

(** X18. The sort key is an order embedding: for two instants, each a
    proper date and time, the renderings [isoformat] writes with the UTC
    offset are ordered as the instants are, with or without a fraction of a
    second, and are equal only for equal instants. *)
Theorem isoformat_orders_instants (t u : datetime) :
  valid t -> valid u ->
  (str_lt (isoformat utc_offset t) (isoformat utc_offset u) <-> lt t u) /\
  (str_le (isoformat utc_offset t) (isoformat utc_offset u) <-> le t u) /\
  (isoformat utc_offset t = isoformat utc_offset u <-> t = u).
Proof.
  intros Ht Hu. unfold str_lt, str_le, str_compare, lt, le, utc_offset.
  rewrite isoformat_compare by done. split_and!; [done|done|].
  split; [|by intros ->]. by apply isoformat_inj.
Qed.

Lemma isoformat_orders_instants_witness :
  str_lt (isoformat utc_offset (mk_datetime 2024 3 10 9 30 0 0))
         (isoformat utc_offset (mk_datetime 2024 3 10 9 30 0 1)) <->
  lt (mk_datetime 2024 3 10 9 30 0 0) (mk_datetime 2024 3 10 9 30 0 1).
Proof.
  apply (isoformat_orders_instants (mk_datetime 2024 3 10 9 30 0 0)
           (mk_datetime 2024 3 10 9 30 0 1)); by apply validb_valid.
Defined.

End LabelsMore.

Section FailuresMore.
Import Py Text Summarizer.

Variable genai_Client : string -> outcome client.
Variable generate_content : string -> string -> outcome (option string).
Variable json_loads : string -> outcome value.
Variable prompt_template : string -> string.

(** X19. A response without text, or without any span from an opening to
    a closing brace, is a failure without the rate signature, whatever the
    response says: when the first candidate of a constructed client answers
    so, the loop stops there and the fallback is returned after that one
    invocation. And an exception text raises the signature as soon as it
    holds [429] anywhere, or [quota] in any case. *)
Theorem response_without_json_stops key articles :
  key <> EmptyString ->
  genai_Client key = Returns generate_content ->
  (generate_content "gemini-2.0-flash" (prompt_news prompt_template articles)
   = Returns None \/
   exists text,
     generate_content "gemini-2.0-flash" (prompt_news prompt_template articles)
     = Returns (Some text) /\
     Regex.search_braces (strip_fences text) = None) ->
  summarize_with_gemini genai_Client json_loads prompt_template key articles
  = (Returns (_dummy_summary articles), ["gemini-2.0-flash"]) /\
  (forall pre post, is_rate_limit (pre +:+ "429" +:+ post) = true) /\
  (forall pre q post, lower q = "quota" -> is_rate_limit (pre +:+ q +:+ post) = true).
Proof.
  intros Hkey Hclient Hresp. apply String.eqb_neq in Hkey. split_and!.
  - unfold summarize_with_gemini. rewrite Hkey, Hclient.
    change models_to_try
      with ("gemini-2.0-flash" :: ["gemini-2.0-flash-lite"; "gemini-2.5-flash";
                                   "gemini-flash-lite-latest"]).
    cbn [try_models]. unfold attempt.
    destruct Hresp as [->|(text&->&->)]; reflexivity.
  - intros pre post. unfold is_rate_limit. by rewrite contains_app.
  - intros pre q post Hq. unfold is_rate_limit.
    rewrite !lower_app, Hq, contains_app. apply orb_true_r.
Qed.

End FailuresMore.

Lemma response_without_json_stops_witness :
  Summarizer.summarize_with_gemini
    (Samples.client_of (fun _ _ => Py.Returns (Some "quota? no json here")))
    Samples.json_loads Samples.prompt_template "key" Samples.ranked
  = (Py.Returns (Summarizer._dummy_summary Samples.ranked), ["gemini-2.0-flash"]).
Proof.
  refine (proj1 (response_without_json_stops
            (Samples.client_of (fun _ _ => Py.Returns (Some "quota? no json here")))
            (fun _ _ => Py.Returns (Some "quota? no json here"))
            Samples.json_loads Samples.prompt_template "key" Samples.ranked _ _ _)).
  - discriminate.
  - reflexivity.
  - right. exists "quota? no json here". split; reflexivity.
Defined.

(** *** The run as a whole *)

Section RunMore.
Import Py Curation Pipeline.

Variable str_lower : string -> string.
Variable parse : string -> feed_result.
Variable summary_Client : string -> outcome Summarizer.client.
Variable commentary_Client : string -> outcome Summarizer.client.
Variable json_loads : string -> outcome value.
Variable json_dumps : value -> string.
Variable write_text : string -> string -> Store.written.
Variable summary_template : string -> string.
Variable commentary_template : string -> string.

Local Abbreviation collect := (Curation.collect str_lower).
Local Abbreviation collected := (Curation.collected str_lower).
Local Abbreviation fetch_articles := (Curation.fetch_articles str_lower).
Local Abbreviation main :=
  (Pipeline.main str_lower parse summary_Client commentary_Client json_loads
     json_dumps write_text summary_template commentary_template).

Lemma collect_all_raise c m feeds :
  (forall u, parse u = FetchRaises) -> collect parse c m feeds [] = [].
Proof.
  intros Hall. induction feeds as [|[n u] feeds IH]; simpl; [done|].
  by rewrite Hall.
Qed.

(** X20. A run that collects no article ends at once: it writes no file,
    invokes no backend and loads no history. This is what happens when
    every source fails. *)
Theorem empty_run_writes_nothing key fs now_utc save_now slot_now :
  (fetch_articles parse now_utc 5 = [] ->
   main key fs now_utc save_now slot_now = Returns (mk_run fs [] [] None)) /\
  ((forall u, parse u = FetchRaises) ->
   main key fs now_utc save_now slot_now = Returns (mk_run fs [] [] None)).
Proof.
  assert (H : fetch_articles parse now_utc 5 = [] ->
              main key fs now_utc save_now slot_now
              = Returns (mk_run fs [] [] None)).
  { intros Hnil. unfold Pipeline.main. cbv zeta. rewrite Hnil. reflexivity. }
  split; [done|]. intros Hall. apply H.
  unfold Curation.fetch_articles, Curation.collected. cbv zeta.
  by rewrite collect_all_raise.
Qed.



(** X21. Without an API key a run that collected articles goes on in test
    mode: it constructs no client and invokes no backend, and hands the
    fallback summary, unchanged, to [save_data]. When both writes complete,
    the snapshot and [latest.json] hold the same text, made of that
    summary and the first fifteen articles, and the history is loaded from
    the directory just written; when a write raises, the run raises. *)
Theorem run_without_key fs now_utc save_now slot_now :
  let articles := fetch_articles parse now_utc 5 in
  let text :=
    json_dumps
      (VDict [ ("timestamp", VStr (Clock.isoformat Clock.jst_offset save_now));
               ("time_slot", VStr (Store.get_time_slot slot_now));
               ("summary", Summarizer._dummy_summary articles);
               ("raw_articles", VList (Store.article_value <$> take 15 articles)) ]) in
  articles <> [] ->
  (write_text (Store.snapshot_name save_now) text = Store.Complete ->
   write_text Store.latest_name text = Store.Complete ->
   exists fs',
     main EmptyString fs now_utc save_now slot_now
     = Returns (mk_run fs' [] [] (Some (Store.load_history json_loads fs'))) /\
     fs' !! Store.latest_name = Some (Some text) /\
     fs' !! Store.snapshot_name save_now = fs' !! Store.latest_name) /\
  (write_text (Store.snapshot_name save_now) text <> Store.Complete \/
   write_text Store.latest_name text <> Store.Complete ->
   exists err_str,
     main EmptyString fs now_utc save_now slot_now = Raises err_str).
Proof.
  intros articles text Hne.
  assert (Hmain : main EmptyString fs now_utc save_now slot_now
            = match Store.save_data json_dumps write_text fs save_now slot_now
                      (Summarizer._dummy_summary articles) articles with
              | (_, Raises err_str) => Raises err_str
              | (fs', Returns _) =>
                  Returns (mk_run fs' [] []
                             (Some (Store.load_history json_loads fs')))
              end).
  { unfold Pipeline.main. cbv zeta. fold articles.
    rewrite bool_decide_eq_false_2 by done.
    unfold Summarizer.summarize_with_gemini, Commentary.generate_joho_commentary.
    cbn [String.eqb orb]. reflexivity. }
  rewrite Hmain. split.
  - intros H1 H2. rewrite save_data_complete by done. fold text.
    eexists. split_and!; [reflexivity|by rewrite lookup_insert_eq|].
    rewrite lookup_insert_eq.
    rewrite lookup_insert_ne by (intros E; by apply (snapshot_not_latest save_now)).
    by rewrite lookup_insert_eq.
  - intros Hfail. unfold Store.save_data, Store.write_file. cbv zeta.
    fold (Store.snapshot_name save_now). fold text.
    destruct (write_text (Store.snapshot_name save_now) text) eqn:H1;
      [|by eexists..].
    destruct (write_text Store.latest_name text) eqn:H2; [|by eexists..].
    by destruct Hfail.
Qed.


End RunMore.

Lemma empty_run_writes_nothing_witness :
  Pipeline.main Text.lower (fun _ => Curation.FetchRaises)
    (Samples.client_of Samples.backend_quota_then_ok)
    (Samples.client_of Samples.backend_quota_then_ok)
    Samples.json_loads Samples.json_dumps Samples.write_all
    Samples.prompt_template Samples.prompt_template
    "key" Samples.twelve_files Samples.now_utc Samples.run_now Samples.run_now
  = Py.Returns (Pipeline.mk_run Samples.twelve_files [] [] None).
Proof.
  by apply (proj2 (empty_run_writes_nothing Text.lower
                     (fun _ => Curation.FetchRaises)
                     (Samples.client_of Samples.backend_quota_then_ok)
                     (Samples.client_of Samples.backend_quota_then_ok)
                     Samples.json_loads Samples.json_dumps Samples.write_all
                     Samples.prompt_template Samples.prompt_template
                     "key" Samples.twelve_files
                     Samples.now_utc Samples.run_now Samples.run_now)).
Defined.

Lemma run_without_key_witness :
  (exists fs',
     Pipeline.main Text.lower Samples.parse Samples.client_refused
       Samples.client_refused Samples.json_loads Samples.json_dumps
       Samples.write_all Samples.prompt_template Samples.prompt_template
       EmptyString Samples.twelve_files Samples.now_utc Samples.run_now
       Samples.run_now
     = Py.Returns (Pipeline.mk_run fs' [] []
                     (Some (Store.load_history Samples.json_loads fs'))) /\
     fs' !! Store.snapshot_name Samples.run_now = fs' !! Store.latest_name) /\
  (exists err_str,
     Pipeline.main Text.lower Samples.parse Samples.client_refused
       Samples.client_refused Samples.json_loads Samples.json_dumps
       Samples.write_stops Samples.prompt_template Samples.prompt_template
       EmptyString Samples.twelve_files Samples.now_utc Samples.run_now
       Samples.run_now
     = Py.Raises err_str).
Proof.
  split.
  - destruct (run_without_key Text.lower Samples.parse Samples.client_refused
                Samples.client_refused Samples.json_loads Samples.json_dumps
                Samples.write_all Samples.prompt_template Samples.prompt_template
                Samples.twelve_files Samples.now_utc Samples.run_now
                Samples.run_now) as [Hdone _].
    { vm_compute. discriminate. }
    destruct (Hdone eq_refl eq_refl) as (fs'&Hmain&_&Hsame).
    exists fs'. by split.
  - destruct (run_without_key Text.lower Samples.parse Samples.client_refused
                Samples.client_refused Samples.json_loads Samples.json_dumps
                Samples.write_stops Samples.prompt_template Samples.prompt_template
                Samples.twelve_files Samples.now_utc Samples.run_now
                Samples.run_now) as [_ Hfail].
    { vm_compute. discriminate. }
    apply Hfail. left. vm_compute. discriminate.
Defined.

